(** * six-scraper: tick series import/export with incremental append

    A shallow embedding of [six-scraper.py]: the tick record model
    ([MarketData]), the raw export parser ([_parse_raw]), the CSV and JSON
    codecs, the incremental merge into a file ([save_data]) or into the
    tick store ([save_data_to_db]), the store reader ([load_data_from_db])
    and the range-boundary parser ([_parse_datetime]).

    Modelling conventions.
    - A Python [str] is a list of characters ([list ascii]); the character
      classes of [str.strip], [\s], [\d] and [\w] are given on ASCII.
    - A Python exception is a value of [exn]; a call that may raise returns
      a [result].  Code that touches files, the standard output or the
      store threads a [world] and returns the world it leaves behind, also
      when it raises.
    - [float] values and the [json] library are interfaces ([PyFloat],
      [JsonCodec]): the program only converts floats from and to text and
      only loads and dumps documents.  A decimal instance and a small JSON
      instance make every definition executable.
    - The tick store keeps the documents it is given, timestamps
      included, in insertion order; [sys.exit(1)] is the exception
      [SystemExit 1].
    - Resource limits of the interpreter (csv field size limit, integer
      digit limit, memory) and operating-system failures other than a
      missing file are outside the model. *)

From Stdlib Require Import ZArith NArith List Ascii String Lia Bool.
From stdpp Require Import base tactics option list gmap strings sorting.
Import ListNotations.

Local Open Scope N_scope.

(** ** Strings *)

Abbreviation str := (list ascii) (only parsing).

Coercion list_ascii_of_string : string >-> list.

Definition code (c : ascii) : N := N_of_ascii c.

Definition in_range (lo hi : N) (c : ascii) : bool :=
  (lo <=? code c) && (code c <=? hi).

(** [str.isspace] on ASCII: TAB..CR, FS..US and the blank. *)
Definition is_space (c : ascii) : bool :=
  in_range 9 13 c || in_range 28 32 c.

Definition is_digit (c : ascii) : bool := in_range 48 57 c.

Definition digit_val (c : ascii) : N := code c - 48.

Definition digit_char (n : N) : ascii := ascii_of_N (48 + n mod 10).

(** [\w] on ASCII: letters, digits and the underscore. *)
Definition is_word (c : ascii) : bool :=
  in_range 48 57 c || in_range 65 90 c || in_range 97 122 c || (code c =? 95).

Definition chr_eqb (a b : ascii) : bool := code a =? code b.

Fixpoint lstrip (s : str) : str :=
  match s with
  | c :: s' => if is_space c then lstrip s' else s
  | [] => []
  end.

Definition rstrip (s : str) : str := rev (lstrip (rev s)).

(** [s.strip()] *)
Definition strip (s : str) : str := rstrip (lstrip s).

(** [s.split(sep)] for a one-character separator: never empty. *)
Fixpoint split (sep : ascii) (s : str) : list str :=
  match s with
  | [] => [[]]
  | c :: s' =>
      if chr_eqb c sep then [] :: split sep s'
      else match split sep s' with
           | w :: ws => (c :: w) :: ws
           | [] => [[c]]
           end
  end.

(** [sep.join(parts)] *)
Fixpoint join (sep : str) (parts : list str) : str :=
  match parts with
  | [] => []
  | [p] => p
  | p :: ps => p ++ sep ++ join sep ps
  end.

(** ** Exceptions and results *)

Inductive exn : Type :=
| ValueError
| TypeError
| IndexError
| KeyError
| OverflowError
| AssertionError
| CsvError
| BrokenFile
| SystemExit (code : Z).

Inductive result (A : Type) : Type :=
| Ok (a : A)
| Raise (e : exn).

Arguments Ok {A} a.
Arguments Raise {A} e.

Definition bind {A B : Type} (r : result A) (k : A -> result B) : result B :=
  match r with
  | Ok a => k a
  | Raise e => Raise e
  end.

Notation "x <~ r ;; k" := (bind r (fun x => k))
  (at level 100, r at next level, right associativity, only parsing).

Definition is_ok {A : Type} (r : result A) : bool :=
  match r with Ok _ => true | Raise _ => false end.

Definition of_option {A : Type} (e : exn) (o : option A) : result A :=
  match o with Some a => Ok a | None => Raise e end.

(** [try: ... except <caught>: raise <e>] *)
Definition reraise {A : Type} (caught : exn -> bool) (e : exn) (r : result A) : result A :=
  match r with
  | Ok a => Ok a
  | Raise x => if caught x then Raise e else Raise x
  end.

Fixpoint map_result {A B : Type} (f : A -> result B) (l : list A) : result (list B) :=
  match l with
  | [] => Ok []
  | a :: l' => b <~ f a ;; bs <~ map_result f l' ;; Ok (b :: bs)
  end.

(** [l[0]] and [l[i]] on a list *)
Definition index {A : Type} (l : list A) (i : nat) : result A :=
  of_option IndexError (l !! i).

(** ** Integers and text *)

(** The digits of [int(s)] in base ten: digits with single underscores
    between them.  [need] says that a digit must come next. *)
Fixpoint digits_value (acc : N) (need : bool) (s : str) : option N :=
  match s with
  | [] => if need then None else Some acc
  | c :: s' =>
      if is_digit c then digits_value (10 * acc + digit_val c) false s'
      else if chr_eqb c "_" && negb need then digits_value acc true s'
      else None
  end.

(** [int(s)] for a [str]: [None] is [ValueError]. *)
Definition int_of_str (s : str) : option Z :=
  match strip s with
  | c :: r =>
      if chr_eqb c "-" then (fun n => (- Z.of_N n)%Z) <$> digits_value 0 true r
      else if chr_eqb c "+" then Z.of_N <$> digits_value 0 true r
      else Z.of_N <$> digits_value 0 true (c :: r)
  | [] => None
  end.

Fixpoint digits_of (fuel : nat) (n : N) (acc : str) : str :=
  match fuel with
  | O => acc
  | S fuel' =>
      let acc' := digit_char n :: acc in
      if n <? 10 then acc' else digits_of fuel' (n / 10) acc'
  end.

Definition str_of_N (n : N) : str := digits_of (S (N.to_nat (N.log2 n))) n [].

(** [str(z)] for an [int] *)
Definition str_of_Z (z : Z) : str :=
  match z with
  | Zneg p => "-"%char :: str_of_N (Npos p)
  | _ => str_of_N (Z.to_N z)
  end.

(** ** Floats, Python values and the json library *)

(** What the program asks of [float]: conversion from and to text, from and
    to [int], the truth value, and telling two stored values apart. *)
Class PyFloat : Type := {
  float : Type;
  float_of_str : str -> option float;   (* float(s), None is ValueError *)
  float_repr : float -> str;            (* repr(x), also str(x) *)
  float_of_int : Z -> option float;     (* float(n), None is OverflowError *)
  int_of_float : float -> result Z;     (* int(x) *)
  float_is_zero : float -> bool;        (* x == 0.0 *)
  float_same : float -> float -> bool;  (* the same stored value *)
  float_same_refl : forall x, float_same x x = true
}.

(** The values a JSON document is made of. *)
#[warnings="-register-all"]
Inductive pyval `{PyFloat} : Type :=
| PNone
| PBool (b : bool)
| PInt (z : Z)
| PFloat (x : float)
| PStr (s : str)
| PList (l : list pyval)
| PDict (items : list (str * pyval)).

(** [json.dumps] and [json.loads]; [None] is the [ValueError] of a text
    that is not JSON. *)
Class JsonCodec `{PyFloat} : Type := {
  json_dumps : pyval -> str;
  json_loads : str -> option pyval
}.

(** ** Datetimes *)

Record datetime : Type := mk_datetime {
  year : N; month : N; day : N;
  hour : N; minute : N; second : N; microsecond : N
}.

Definition EPOCH : datetime := mk_datetime 1970 1 1 0 0 0 0.

Definition dt_fields (d : datetime) : list N :=
  [year d; month d; day d; hour d; minute d; second d; microsecond d].

Fixpoint lex_compare (a b : list N) : comparison :=
  match a, b with
  | [], [] => Eq
  | [], _ :: _ => Lt
  | _ :: _, [] => Gt
  | x :: a', y :: b' =>
      match x ?= y with
      | Eq => lex_compare a' b'
      | c => c
      end
  end.

Definition dt_compare (a b : datetime) : comparison :=
  lex_compare (dt_fields a) (dt_fields b).

(** [a < b], [a > b] and [a <= b] on naive datetimes *)
Definition dt_ltb (a b : datetime) : bool :=
  match dt_compare a b with Lt => true | _ => false end.

Definition dt_gtb (a b : datetime) : bool := dt_ltb b a.

Definition dt_leb (a b : datetime) : bool := negb (dt_ltb b a).

Definition is_leap (y : N) : bool :=
  (y mod 4 =? 0) && (negb (y mod 100 =? 0) || (y mod 400 =? 0)).

Definition days_in_month (y m : N) : N :=
  if m =? 2 then (if is_leap y then 29 else 28)
  else if (m =? 4) || (m =? 6) || (m =? 9) || (m =? 11) then 30
  else 31.

(** The values the [datetime] constructor accepts. *)
Definition valid_datetime (d : datetime) : bool :=
  (1 <=? year d) && (year d <=? 9999) &&
  (1 <=? month d) && (month d <=? 12) &&
  (1 <=? day d) && (day d <=? days_in_month (year d) (month d)) &&
  (hour d <? 24) && (minute d <? 60) && (second d <? 60) &&
  (microsecond d <? 1000000).

Definition whole_second (d : datetime) : bool := microsecond d =? 0.

Definition pad2 (n : N) : str := [digit_char (n / 10); digit_char n].

Definition pad4 (n : N) : str :=
  [digit_char (n / 1000); digit_char (n / 100); digit_char (n / 10); digit_char n].

(** [dt.strftime(fmt)] for the directives the program uses; the year is
    written with four digits, which is what every platform does for the
    years from 1000 on. *)
Fixpoint strftime (d : datetime) (fmt : str) : str :=
  match fmt with
  | [] => []
  | c :: fmt' =>
      if chr_eqb c "%" then
        match fmt' with
        | x :: fmt'' =>
            (if chr_eqb x "d" then pad2 (day d)
             else if chr_eqb x "m" then pad2 (month d)
             else if chr_eqb x "Y" then pad4 (year d)
             else if chr_eqb x "H" then pad2 (hour d)
             else if chr_eqb x "M" then pad2 (minute d)
             else if chr_eqb x "S" then pad2 (second d)
             else [c; x]) ++ strftime d fmt''
        | [] => [c]
        end
      else c :: strftime d fmt'
  end.

(** *** strptime

    [_strptime] turns the format into a regular expression, one group of
    alternatives per directive and [\s+] for white space, matches it at the
    start of the text ignoring case and then asks that nothing is left. *)

Inductive fmt_item : Type :=
| Fd | Fm | FY | FH | FM | FS
| Flit (c : ascii)
| Fws.

Definition directive (x : ascii) : option fmt_item :=
  if chr_eqb x "d" then Some Fd
  else if chr_eqb x "m" then Some Fm
  else if chr_eqb x "Y" then Some FY
  else if chr_eqb x "H" then Some FH
  else if chr_eqb x "M" then Some FM
  else if chr_eqb x "S" then Some FS
  else None.

Fixpoint parse_format (fmt : str) : option (list fmt_item) :=
  match fmt with
  | [] => Some []
  | c :: fmt' =>
      if chr_eqb c "%" then
        match fmt' with
        | x :: fmt'' =>
            match directive x, parse_format fmt'' with
            | Some it, Some items => Some (it :: items)
            | _, _ => None
            end
        | [] => None
        end
      else if is_space c then
        (fun items => match items with
                      | Fws :: _ => items
                      | _ => Fws :: items
                      end) <$> parse_format fmt'
      else (fun items => Flit c :: items) <$> parse_format fmt'
  end.

(** A character class is a range of codes; a pattern a sequence of
    classes; a directive a list of patterns tried in order. *)
Definition alternatives (it : fmt_item) : list (list (N * N)) :=
  match it with
  | Fd => [[(51, 51); (48, 49)]; [(49, 50); (48, 57)]; [(48, 48); (49, 57)];
           [(49, 57)]; [(32, 32); (49, 57)]]
  | Fm => [[(49, 49); (48, 50)]; [(48, 48); (49, 57)]; [(49, 57)]]
  | FY => [[(48, 57); (48, 57); (48, 57); (48, 57)]]
  | FH => [[(50, 50); (48, 51)]; [(48, 49); (48, 57)]; [(48, 57)]]
  | FM => [[(48, 53); (48, 57)]; [(48, 57)]]
  | FS => [[(54, 54); (48, 49)]; [(48, 53); (48, 57)]; [(48, 57)]]
  | _ => []
  end.

Fixpoint match_pattern (pat : list (N * N)) (s : str) : option (str * str) :=
  match pat with
  | [] => Some ([], s)
  | (lo, hi) :: pat' =>
      match s with
      | c :: s' =>
          if in_range lo hi c then
            match match_pattern pat' s' with
            | Some (m, rest) => Some (c :: m, rest)
            | None => None
            end
          else None
      | [] => None
      end
  end.

(** [int(group)] for a matched group: digits, after an optional blank. *)
Definition group_value (m : str) : N :=
  fold_left (fun acc c => if is_digit c then 10 * acc + digit_val c else acc) m 0.

Definition set_field (it : fmt_item) (v : N) (d : datetime) : datetime :=
  match it with
  | Fd => mk_datetime (year d) (month d) v (hour d) (minute d) (second d) (microsecond d)
  | Fm => mk_datetime (year d) v (day d) (hour d) (minute d) (second d) (microsecond d)
  | FY => mk_datetime v (month d) (day d) (hour d) (minute d) (second d) (microsecond d)
  | FH => mk_datetime (year d) (month d) (day d) v (minute d) (second d) (microsecond d)
  | FM => mk_datetime (year d) (month d) (day d) (hour d) v (second d) (microsecond d)
  | FS => mk_datetime (year d) (month d) (day d) (hour d) (minute d) v (microsecond d)
  | _ => d
  end.

Definition lower (c : ascii) : ascii :=
  if in_range 65 90 c then ascii_of_N (code c + 32) else c.

(** The rests of [s] after one or more white-space characters, the longest
    run first, as a greedy [\s+] offers them. *)
Fixpoint ws_rests (s : str) : list str :=
  match s with
  | c :: s' => if is_space c then ws_rests s' ++ [s'] else []
  | [] => []
  end.

(** All the ways the expression matches a prefix of [s], in the order the
    backtracking matcher finds them. *)
Fixpoint match_items (items : list fmt_item) (s : str) (acc : datetime)
  : list (datetime * str) :=
  match items with
  | [] => [(acc, s)]
  | Flit c :: items' =>
      match s with
      | x :: s' =>
          if chr_eqb (lower x) (lower c) then match_items items' s' acc else []
      | [] => []
      end
  | Fws :: items' =>
      flat_map (fun rest => match_items items' rest acc) (ws_rests s)
  | it :: items' =>
      flat_map (fun pat =>
                  match match_pattern pat s with
                  | Some (m, rest) =>
                      match_items items' rest (set_field it (group_value m) acc)
                  | None => []
                  end) (alternatives it)
  end.

(** [datetime.datetime.strptime(s, fmt)]; [None] is [ValueError]. *)
Definition strptime (s : str) (fmt : str) : option datetime :=
  items ← parse_format fmt;
  match match_items items s (mk_datetime 1900 1 1 0 0 0 0) with
  | (d, []) :: _ => if valid_datetime d then Some d else None
  | _ => None
  end.

(** ** Text files and the csv library *)

Definition CR : ascii := "013"%char.
Definition LF : ascii := "010"%char.
Definition DQUOTE : ascii := "034"%char.
Definition SEMI : ascii := ";"%char.

(** What a file opened in text mode hands to its reader: every "\r\n" and
    every lone "\r" becomes "\n". *)
Fixpoint universal_newlines (s : str) : str :=
  match s with
  | [] => []
  | c :: s' =>
      if chr_eqb c CR then
        LF :: match s' with
              | c' :: s'' =>
                  if chr_eqb c' LF then universal_newlines s''
                  else universal_newlines s'
              | [] => []
              end
      else c :: universal_newlines s'
  end.

(** The lines of a text, each with its "\n" when it has one
    ([f.readlines()], iteration over a file object). *)
Fixpoint lines_of (s : str) : list str :=
  match s with
  | [] => []
  | c :: s' =>
      if chr_eqb c LF then [c] :: lines_of s'
      else match lines_of s' with
           | l :: ls => (c :: l) :: ls
           | [] => [[c]]
           end
  end.

(** The states of the reader of [_csv.c], for the default dialect with the
    delimiter set to the semicolon (no escape character, doubled quotes,
    not strict). *)
Inductive csv_state : Type :=
| START_RECORD | START_FIELD | IN_FIELD
| IN_QUOTED_FIELD | QUOTE_IN_QUOTED_FIELD | EAT_CRNL.

Record csv_reader : Type := mk_reader {
  state : csv_state;
  field : str;
  fields : list str
}.

Definition parse_reset : csv_reader := mk_reader START_RECORD [] [].

Definition parse_save_field (st : csv_state) (r : csv_reader) : csv_reader :=
  mk_reader st [] (fields r ++ [field r]).

Definition parse_add_char (st : csv_state) (c : ascii) (r : csv_reader) : csv_reader :=
  mk_reader st (field r ++ [c]) (fields r).

Definition set_state (st : csv_state) (r : csv_reader) : csv_reader :=
  mk_reader st (field r) (fields r).

Definition is_newline (c : ascii) : bool := chr_eqb c LF || chr_eqb c CR.

(** [parse_process_char]; [None] is the end-of-line mark the reader feeds
    after each line. *)
Definition parse_process_char (r : csv_reader) (c : option ascii) : result csv_reader :=
  let start_field (r : csv_reader) :=
    match c with
    | None => Ok (parse_save_field START_RECORD r)
    | Some x =>
        if is_newline x then Ok (parse_save_field EAT_CRNL r)
        else if chr_eqb x DQUOTE then Ok (set_state IN_QUOTED_FIELD r)
        else if chr_eqb x SEMI then Ok (parse_save_field START_FIELD r)
        else Ok (parse_add_char IN_FIELD x r)
    end in
  match state r with
  | START_RECORD =>
      match c with
      | None => Ok r
      | Some x =>
          if is_newline x then Ok (set_state EAT_CRNL r) else start_field r
      end
  | START_FIELD => start_field r
  | IN_FIELD =>
      match c with
      | None => Ok (parse_save_field START_RECORD r)
      | Some x =>
          if is_newline x then Ok (parse_save_field EAT_CRNL r)
          else if chr_eqb x SEMI then Ok (parse_save_field START_FIELD r)
          else Ok (parse_add_char IN_FIELD x r)
      end
  | IN_QUOTED_FIELD =>
      match c with
      | None => Ok r
      | Some x =>
          if chr_eqb x DQUOTE then Ok (set_state QUOTE_IN_QUOTED_FIELD r)
          else Ok (parse_add_char IN_QUOTED_FIELD x r)
      end
  | QUOTE_IN_QUOTED_FIELD =>
      match c with
      | None => Ok (parse_save_field START_RECORD r)
      | Some x =>
          if chr_eqb x DQUOTE then Ok (parse_add_char IN_QUOTED_FIELD x r)
          else if chr_eqb x SEMI then Ok (parse_save_field START_FIELD r)
          else if is_newline x then Ok (parse_save_field EAT_CRNL r)
          else Ok (parse_add_char IN_FIELD x r)
      end
  | EAT_CRNL =>
      match c with
      | None => Ok (set_state START_RECORD r)
      | Some x => if is_newline x then Ok r else Raise CsvError
      end
  end.

Fixpoint feed_line (r : csv_reader) (line : str) : result csv_reader :=
  match line with
  | [] => parse_process_char r None
  | c :: line' => r' <~ parse_process_char r (Some c) ;; feed_line r' line'
  end.

(** What iterating over an object gives: the items, then the exception
    that ends the iteration when there is one. *)
Record iteration (A : Type) : Type := mk_iteration {
  yields : list A;
  ends_with : option exn
}.

Arguments mk_iteration {A} yields ends_with.
Arguments yields {A} i.
Arguments ends_with {A} i.

Definition yield_first {A : Type} (a : A) (it : iteration A) : iteration A :=
  mk_iteration (a :: yields it) (ends_with it).

(** [list(it)] *)
Definition list_of {A : Type} (it : iteration A) : result (list A) :=
  match ends_with it with
  | Some e => Raise e
  | None => Ok (yields it)
  end.

(** [Reader_iternext], called until the lines run out: a record may span
    lines while a quoted field is open. *)
Fixpoint reader_rows (r : csv_reader) (lines : list str) : iteration (list str) :=
  match lines with
  | [] =>
      match field r, state r with
      | _ :: _, _ | _, IN_QUOTED_FIELD =>
          mk_iteration [fields r ++ [field r]] None
      | _, _ => mk_iteration [] None
      end
  | line :: lines' =>
      match feed_line r line with
      | Raise e => mk_iteration [] (Some e)
      | Ok r' =>
          match state r' with
          | START_RECORD => yield_first (fields r') (reader_rows parse_reset lines')
          | _ => reader_rows r' lines'
          end
      end
  end.

(** [csv.reader(f, delimiter=';')] over the lines of [f] *)
Definition csv_reader_over (lines : list str) : iteration (list str) :=
  reader_rows parse_reset lines.

Definition needs_quotes (f : str) : bool :=
  existsb (fun c => chr_eqb c SEMI || chr_eqb c DQUOTE || is_newline c) f.

Definition csv_field (f : str) : str :=
  if needs_quotes f then
    DQUOTE :: flat_map (fun c => if chr_eqb c DQUOTE then [c; c] else [c]) f ++ [DQUOTE]
  else f.

(** One [writer.writerow]: the fields joined by the delimiter, quoted when
    they must be, and the line terminator "\r\n". *)
Definition csv_writerow (row : list str) : str :=
  match row with
  | [[]] => [DQUOTE; DQUOTE; CR; LF]
  | _ => join [SEMI] (map csv_field row) ++ [CR; LF]
  end.

Definition csv_writerows (rows : list (list str)) : str :=
  flat_map csv_writerow rows.

(** ** The header pattern *)

Fixpoint span (p : ascii -> bool) (s : str) : str * str :=
  match s with
  | c :: s' => if p c then let '(w, r) := span p s' in (c :: w, r) else ([], s)
  | [] => ([], [])
  end.

(** The expression [\((\w+)\/(\w+)\)] at the start of [s]. *)
Definition match_header_at (s : str) : option (str * str) :=
  match s with
  | c :: s1 =>
      if chr_eqb c "(" then
        match span is_word s1 with
        | ((_ :: _) as w1, c2 :: s2) =>
            if chr_eqb c2 "/" then
              match span is_word s2 with
              | ((_ :: _) as w2, c3 :: _) =>
                  if chr_eqb c3 ")" then Some (w1, w2) else None
              | _ => None
              end
            else None
        | _ => None
        end
      else None
  | [] => None
  end.

(** [re_find(r'\((\w+)\/(\w+)\)', s)]: the groups of the leftmost match. *)
Fixpoint re_find_header (s : str) : option (str * str) :=
  match match_header_at s with
  | Some g => Some g
  | None =>
      match s with
      | _ :: s' => re_find_header s'
      | [] => None
      end
  end.

(** ** Operations on Python values *)

Section Program.

Context `{FL : PyFloat} `{JS : !JsonCodec}.

Definition hex_digit (n : N) : ascii :=
  if n <? 10 then ascii_of_N (48 + n) else ascii_of_N (87 + n).

(** [repr(s)] for a [str] *)
Definition repr_str (s : str) : str :=
  let has c := existsb (chr_eqb c) s in
  let q : ascii := if has "'"%char && negb (has DQUOTE) then DQUOTE else "'"%char in
  let esc (c : ascii) : str :=
    if chr_eqb c q || chr_eqb c "\" then ["\"%char; c]
    else if chr_eqb c "009" then "\t"
    else if chr_eqb c LF then "\n"
    else if chr_eqb c CR then "\r"
    else if (code c <? 32) || (code c =? 127) then
      ["\"%char; "x"%char; hex_digit (code c / 16); hex_digit (code c mod 16)]
    else [c] in
  q :: flat_map esc s ++ [q].

Fixpoint py_repr (v : pyval) : str :=
  match v with
  | PNone => "None"
  | PBool b => if b then "True" else "False"
  | PInt z => str_of_Z z
  | PFloat x => float_repr x
  | PStr s => repr_str s
  | PList l => "[" ++ join ", " (map py_repr l) ++ "]"
  | PDict items =>
      "{" ++ join ", " (map (fun kv => repr_str kv.1 ++ ": " ++ py_repr kv.2) items) ++ "}"
  end.

(** [str(v)], what [%s] formats *)
Definition py_str (v : pyval) : str :=
  match v with
  | PStr s => s
  | _ => py_repr v
  end.

(** Whether two values are the same document value; the store matches the
    fields of a query this way. *)
Fixpoint pyval_eqb (a b : pyval) : bool :=
  match a, b with
  | PNone, PNone => true
  | PBool x, PBool y => eqb x y
  | PInt x, PInt y => (x =? y)%Z
  | PFloat x, PFloat y => float_same x y
  | PStr x, PStr y => bool_decide (x = y)
  | PList x, PList y =>
      (fix go (x y : list pyval) : bool :=
         match x, y with
         | [], [] => true
         | u :: x', v :: y' => pyval_eqb u v && go x' y'
         | _, _ => false
         end) x y
  | PDict x, PDict y =>
      (fix go (x y : list (str * pyval)) : bool :=
         match x, y with
         | [], [] => true
         | (k, u) :: x', (l, v) :: y' =>
             bool_decide (k = l) && pyval_eqb u v && go x' y'
         | _, _ => false
         end) x y
  | _, _ => false
  end.

(** The truth value of [v] *)
Definition py_truth (v : pyval) : bool :=
  match v with
  | PNone => false
  | PBool b => b
  | PInt z => negb (z =? 0)%Z
  | PFloat x => negb (float_is_zero x)
  | PStr s => negb (bool_decide (s = []))
  | PList l => negb (bool_decide (length l = 0%nat))
  | PDict items => negb (bool_decide (length items = 0%nat))
  end.

(** [iter(v)]: a list gives its items, a string its characters, a
    dictionary its keys; anything else raises [TypeError]. *)
Definition py_iter (v : pyval) : iteration pyval :=
  match v with
  | PList l => mk_iteration l None
  | PStr s => mk_iteration (map (fun c => PStr [c]) s) None
  | PDict items => mk_iteration (map (fun kv => PStr kv.1) items) None
  | _ => mk_iteration [] (Some TypeError)
  end.

Fixpoint assoc (k : str) (items : list (str * pyval)) : option pyval :=
  match items with
  | [] => None
  | (k', v) :: items' => if bool_decide (k = k') then Some v else assoc k items'
  end.

(** [v[key]] for a string key *)
Definition getitem (v : pyval) (key : str) : result pyval :=
  match v with
  | PDict items => of_option KeyError (assoc key items)
  | _ => Raise TypeError
  end.

(** [v[-1]] *)
Definition getitem_last (v : pyval) : result pyval :=
  match v with
  | PList l => of_option IndexError (last l)
  | PStr s => of_option IndexError ((fun c => PStr [c]) <$> last s)
  | PDict _ => Raise KeyError
  | _ => Raise TypeError
  end.

(** [v[0]] *)
Definition getitem_first (v : pyval) : result pyval :=
  match v with
  | PList l => of_option IndexError (head l)
  | PStr s => of_option IndexError ((fun c => PStr [c]) <$> head s)
  | PDict _ => Raise KeyError
  | _ => Raise TypeError
  end.

(** [float(v)] *)
Definition py_float (v : pyval) : result float :=
  match v with
  | PStr s => of_option ValueError (float_of_str s)
  | PFloat x => Ok x
  | PInt z => of_option OverflowError (float_of_int z)
  | PBool b => of_option OverflowError (float_of_int (if b then 1 else 0)%Z)
  | _ => Raise TypeError
  end.

(** [int(v)] *)
Definition py_int (v : pyval) : result Z :=
  match v with
  | PStr s => of_option ValueError (int_of_str s)
  | PInt z => Ok z
  | PBool b => Ok (if b then 1 else 0)%Z
  | PFloat x => int_of_float x
  | _ => Raise TypeError
  end.

(** ** Business logic abstractions *)

Definition tick : Type := datetime * float * Z.

Definition tick_time (t : tick) : datetime := t.1.1.

(** [class MarketData]: a stock data range *)
Record MarketData : Type := mk_MarketData {
  symbol : pyval;
  isin : pyval;
  data : list tick
}.

Definition parse_datetime (dt_str : str) : result datetime :=
  of_option ValueError (strptime dt_str "%d.%m.%Y %H:%M:%S").

Definition str_datetime (dt : datetime) : str :=
  strftime dt "%d.%m.%Y %H:%M:%S".

(** [parse_datetime] applied to a value that need not be a [str] *)
Definition py_parse_datetime (v : pyval) : result datetime :=
  match v with
  | PStr s => parse_datetime s
  | _ => Raise TypeError
  end.

(** [dt, price, volume = row] *)
Definition unpack3 (row : pyval) : result (pyval * pyval * pyval) :=
  items <~ list_of (py_iter row) ;;
  match items with
  | [dt; price; volume] => Ok (dt, price, volume)
  | _ => Raise ValueError
  end.

(** One step of the comprehension in [from_rows] *)
Definition tick_of_row (row : pyval) : result tick :=
  r <~ unpack3 row ;;
  let '(dt, price, volume) := r in
  d <~ py_parse_datetime dt ;;
  p <~ py_float price ;;
  v <~ py_int volume ;;
  Ok (d, p, v).

(** [MarketData.from_rows(symbol, isin, rows)] *)
Definition from_rows (symbol isin : pyval) (rows : iteration pyval) : result MarketData :=
  data <~ map_result tick_of_row (yields rows) ;;
  match ends_with rows with
  | Some e => Raise e
  | None => Ok (mk_MarketData symbol isin data)
  end.

(** [data.encoded_rows(start)] *)
Definition encoded_rows (self : MarketData) (start : datetime) : list (str * float * Z) :=
  flat_map (fun t : tick =>
              let '(dt, price, volume) := t in
              if dt_gtb dt start then [(str_datetime dt, price, volume)] else [])
           (data self).

(** ** Grab data from the exchange *)

Definition _parse_csv (raw_csv : str) : result (list (list str)) :=
  list_of (csv_reader_over (lines_of raw_csv)).

(** One step of the comprehension in [_parse_raw] *)
Definition tick_of_raw_row (date_str : str) (row : list str) : result tick :=
  match row with
  | t :: price :: volume :: _ =>
      d <~ parse_datetime (date_str ++ " " ++ strip t) ;;
      p <~ of_option ValueError (float_of_str price) ;;
      v <~ of_option ValueError (int_of_str volume) ;;
      Ok (d, p, v)
  | _ => Raise ValueError
  end.

Definition _parse_raw (raw_data : str) : result (str * str * list tick) :=
  parsed <~ _parse_csv raw_data ;;
  row0 <~ index parsed 0 ;;
  head0 <~ index row0 0 ;;
  found <~ of_option TypeError (re_find_header head0) ;;
  let '(symbol, isin) := found in
  row1 <~ index parsed 1 ;;
  head1 <~ index row1 0 ;;
  let date_str := strip head1 in
  rows <~ map_result (tick_of_raw_row date_str) (drop 3 (removelast parsed)) ;;
  Ok (symbol, isin, rev rows).

(** [grab] without the download: the series of a raw export *)
Definition grab_from (raw_data : str) : result MarketData :=
  r <~ _parse_raw raw_data ;;
  let '(symbol, isin, data) := r in
  Ok (mk_MarketData (PStr symbol) (PStr isin) data).

(** ** The world: files, standard streams and the store *)

(** A document of the [ticks] collection *)
Record tickdoc : Type := mk_tickdoc {
  t_symbol : pyval;
  t_isin : pyval;
  t_time : datetime;
  t_price : float;
  t_volume : Z
}.

(** A document of the [stocks] collection *)
Record stock : Type := mk_stock {
  s_symbol : pyval;
  s_isin : pyval
}.

(** The store: both collections in insertion order, and the calls of
    [db.ticks.insert] made so far. *)
Record database : Type := mk_database {
  stocks : list stock;
  ticks : list tickdoc;
  insert_calls : list (list tickdoc)
}.

Record world : Type := mk_world {
  files : gmap str str;
  stdout : str;
  stderr : str;
  db : database
}.

Definition set_files (fs : gmap str str) (w : world) : world :=
  mk_world fs (stdout w) (stderr w) (db w).

Definition set_db (d : database) (w : world) : world :=
  mk_world (files w) (stdout w) (stderr w) d.

(** [print(message, file=sys.stderr); sys.exit(1)] *)
Definition _exit {A : Type} (message : str) (w : world) : result A * world :=
  (Raise (SystemExit 1%Z),
   mk_world (files w) (stdout w) (stderr w ++ message ++ [LF]) (db w)).

(** ** Data export/import functions *)

Definition json_row (r : str * float * Z) : pyval :=
  let '(dt, price, volume) := r in PList [PStr dt; PFloat price; PInt volume].

Definition csv_row (r : str * float * Z) : list str :=
  let '(dt, price, volume) := r in [dt; float_repr price; str_of_Z volume].

(** [_write_json(f, data, last_dt, old_ticks)]: the text written to [f] *)
Definition _write_json (data : MarketData) (last_dt : datetime) (old_ticks : pyval)
  : result str :=
  old <~ list_of (py_iter old_ticks) ;;
  let ticks := old ++ map json_row (encoded_rows data last_dt) in
  Ok (json_dumps (PDict [("symbol" : str, symbol data); ("isin" : str, isin data);
                         ("ticks" : str, PList ticks)])).

Definition caught_by (es : list exn) (e : exn) : bool :=
  existsb (fun x => match x, e with
                    | ValueError, ValueError | TypeError, TypeError
                    | IndexError, IndexError | KeyError, KeyError => true
                    | _, _ => false
                    end) es.

(** [_read_json(f)], [f] an open file whose content is [content] *)
Definition _read_json (content : str) : result MarketData :=
  reraise (caught_by [ValueError; KeyError]) BrokenFile
    (raw <~ of_option ValueError (json_loads (universal_newlines content)) ;;
     s <~ getitem raw "symbol" ;;
     i <~ getitem raw "isin" ;;
     t <~ getitem raw "ticks" ;;
     from_rows s i (py_iter t)).

Definition _peek_json (content : str) : result (datetime * pyval) :=
  reraise (caught_by [KeyError; IndexError; ValueError; TypeError]) BrokenFile
    (old_data <~ of_option ValueError (json_loads (universal_newlines content)) ;;
     old_ticks <~ getitem old_data "ticks" ;;
     last_dt <~ (if py_truth old_ticks then
                   l <~ getitem_last old_ticks ;;
                   x <~ getitem_first l ;;
                   py_parse_datetime x
                 else Ok EPOCH) ;;
     Ok (last_dt, old_ticks)).

(** [_write_csv(f, data, last_dt, old_ticks)]: the text written to [f] *)
Definition _write_csv (data : MarketData) (last_dt : datetime) (old_ticks : pyval)
  : result str :=
  Ok (csv_writerows (map csv_row (encoded_rows data last_dt))).

Definition _read_csv (content : str) : result MarketData :=
  reraise (caught_by [ValueError]) BrokenFile
    (let reader := csv_reader_over (lines_of (universal_newlines content)) in
     from_rows PNone PNone
       (mk_iteration (map (fun row => PList (map PStr row)) (yields reader))
                     (ends_with reader))).

Definition _peek_csv (content : str) : result (datetime * pyval) :=
  reraise (caught_by [IndexError; ValueError]) BrokenFile
    (let lines := lines_of (universal_newlines content) in
     last_dt <~ match last lines with
                | Some l => x <~ index (split SEMI l) 0 ;; parse_datetime x
                | None => Ok EPOCH
                end ;;
     Ok (last_dt, PList [])).

Inductive file_format : Type := csv | json.

Inductive write_mode : Type := strict | append | overwrite.

(** The mode a file is opened with for writing *)
Inductive open_mode : Type := mode_w | mode_a.

Definition format_name (format : file_format) : str :=
  match format with csv => "csv" | json => "json" end.

Definition IMPLEMENTATIONS (format : file_format)
  : (MarketData -> datetime -> pyval -> result str)
    * (str -> result (datetime * pyval)) * open_mode :=
  match format with
  | json => (_write_json, _peek_json, mode_w)
  | csv => (_write_csv, _peek_csv, mode_a)
  end.

(** [open(filename, file_mode)]: ['w'] empties the file, ['a'] keeps what
    it holds; both create it. *)
Definition open_for_writing (filename : str) (m : open_mode) (w : world) : world :=
  match m with
  | mode_w => set_files (<[filename := []]> (files w)) w
  | mode_a => set_files (<[filename := default [] (files w !! filename)]> (files w)) w
  end.

(** [f.write(text)] on the file opened last *)
Definition write_text (filename : str) (text : str) (w : world) : world :=
  set_files (<[filename := default [] (files w !! filename) ++ text]> (files w)) w.

Definition is_exn_BrokenFile (e : exn) : bool :=
  match e with BrokenFile => true | _ => false end.

(** [if not filename: filename = '%s.%s' % (data.symbol, format)] *)
Definition target (data : MarketData) (format : file_format) (filename : option str)
  : str :=
  match filename with
  | Some ((_ :: _) as name) => name
  | _ => py_str (symbol data) ++ "." ++ format_name format
  end.

Definition save_data (data : MarketData) (format : option file_format)
    (mode : write_mode) (filename : option str) (w : world) : result unit * world :=
  match format with
  | None => (Raise AssertionError, w)
  | Some format =>
      let '(write, peek, file_mode) := IMPLEMENTATIONS format in
      let filename := target data format filename in
      let is_stdout := bool_decide (filename = ("-" : str)) in
      let peeked : result (datetime * pyval) * world :=
        if is_stdout then (Ok (EPOCH, PList []), w)
        else
          match files w !! filename with
          | Some content =>
              match mode with
              | append =>
                  match peek content with
                  | Ok p => (Ok p, w)
                  | Raise e =>
                      if is_exn_BrokenFile e then
                        _exit ("File " ++ filename
                               ++ " format is broken. Remove it or use --overwrite.") w
                      else (Raise e, w)
                  end
              | overwrite => (Ok (EPOCH, PList []), w)
              | strict =>
                  _exit ("File " ++ filename
                         ++ " already exists. Use --append or --overwrite.") w
              end
          | None => (Ok (EPOCH, PList []), w)
          end in
      match peeked with
      | (Raise e, w') => (Raise e, w')
      | (Ok (last_dt, old_ticks), w') =>
          if is_stdout then
            match write data last_dt old_ticks with
            | Ok text =>
                (Ok tt, mk_world (files w') (stdout w' ++ text) (stderr w') (db w'))
            | Raise e => (Raise e, w')
            end
          else
            let w'' := open_for_writing filename file_mode w' in
            match write data last_dt old_ticks with
            | Ok text => (Ok tt, write_text filename text w'')
            | Raise e => (Raise e, w'')
            end
      end
  end.

(** ** Database data functions *)

(** The order [sort('time', ASCENDING)] sorts by, and its converse *)
Definition time_asc (a b : tickdoc) : Prop := dt_leb (t_time a) (t_time b).

Definition time_desc (a b : tickdoc) : Prop := dt_leb (t_time b) (t_time a).

#[global] Instance time_asc_dec a b : Decision (time_asc a b).
Proof. unfold time_asc. apply _. Defined.

#[global] Instance time_desc_dec a b : Decision (time_desc a b).
Proof. unfold time_desc. apply _. Defined.

(** [db.stocks.find_one({'$or': [{'symbol': x}, {'isin': x}]})] *)
Definition find_stock (symbol_or_isin : str) (w : world) : option stock :=
  head (List.filter (fun s => pyval_eqb (s_symbol s) (PStr symbol_or_isin)
                              || pyval_eqb (s_isin s) (PStr symbol_or_isin))
                    (stocks (db w))).

(** [db.ticks.find_one({'symbol': symbol}, sort=[('time', -1)])] *)
Definition find_latest_tick (symbol : pyval) (d : database) : option tickdoc :=
  head (merge_sort time_desc
          (List.filter (fun t => pyval_eqb (t_symbol t) symbol) (ticks d))).

(** [db.ticks.insert(rows)] *)
Definition insert_ticks (rows : list tickdoc) (d : database) : database :=
  mk_database (stocks d) (ticks d ++ rows) (insert_calls d ++ [rows]).

Definition save_data_to_db (data : MarketData) (w : world) : result unit * world :=
  let doc := find_latest_tick (symbol data) (db w) in
  let start_time := match doc with Some doc => t_time doc | None => EPOCH end in
  let rows :=
    flat_map (fun t : tick =>
                let '(t, price, volume) := t in
                if dt_gtb t start_time
                then [mk_tickdoc (symbol data) (isin data) t price volume]
                else [])
             (let 'mk_MarketData _ _ data_data := data in data_data) in
  match rows with
  | _ :: _ => (Ok tt, set_db (insert_ticks rows (db w)) w)
  | [] => (Ok tt, w)
  end.

Definition load_data_from_db (symbol_or_isin : str) (from_ to : option datetime)
    (w : world) : result MarketData * world :=
  match find_stock symbol_or_isin w with
  | None => _exit ("Stock " ++ symbol_or_isin ++ " is not found in database.") w
  | Some stock =>
      let range_query (t : tickdoc) : bool :=
        pyval_eqb (t_symbol t) (s_symbol stock)
        && match from_ with Some f => dt_leb f (t_time t) | None => true end
        && match to with Some u => dt_leb (t_time t) u | None => true end in
      let rows := merge_sort time_asc (List.filter range_query (ticks (db w))) in
      let data := map (fun t => (t_time t, t_price t, t_volume t)) rows in
      (Ok (mk_MarketData (s_symbol stock) (s_isin stock) data), w)
  end.

(** ** Range boundaries *)

Definition FORMATS : list str :=
  ["%d.%m.%Y" : str; "%d.%m.%YT%H:%M" : str; "%d.%m.%YT%H:%M:%S" : str;
   "%d.%m.%Y %H:%M" : str; "%d.%m.%Y %H:%M:%S" : str].

(** [some(tries)]: the first try that is not [None] *)
Fixpoint some {A : Type} (tries : list (option A)) : option A :=
  match tries with
  | [] => None
  | Some a :: _ => Some a
  | None :: tries' => some tries'
  end.

Definition _parse_datetime (dt_str : str) (w : world) : result datetime * world :=
  let tries := map (fun f => strptime dt_str f) FORMATS in
  match some tries with
  | Some dt => (Ok dt, w)
  | None => _exit ("Can't parse " ++ [DQUOTE] ++ dt_str ++ [DQUOTE] ++ " into datetime.") w
  end.

End Program.

Arguments pyval : clear implicits.
Arguments MarketData : clear implicits.
Arguments tickdoc : clear implicits.
Arguments stock : clear implicits.
Arguments database : clear implicits.
Arguments world : clear implicits.

(** * The commands

    The commands that work on files and on the store.  The commands that
    download from the exchange ([grab], [add], [update]) and the set-up of
    the indexes are not part of the model. *)

(** ** Names of files *)

(** [s.rfind(c)] *)
Fixpoint rfind (c : ascii) (s : str) : option nat :=
  match s with
  | [] => None
  | x :: s' =>
      match rfind c s' with
      | Some i => Some (S i)
      | None => if chr_eqb x c then Some 0%nat else None
      end
  end.

(** [s.rsplit('.', 1)] *)
Definition rsplit_dot (s : str) : list str :=
  match rfind "." s with
  | Some i => [take i s; drop (S i) s]
  | None => [s]
  end.

(** [os.path.basename(p)] *)
Definition basename (p : str) : str :=
  match rfind "/" p with
  | Some i => drop (S i) p
  | None => p
  end.

(** [os.path.splitext(p)]: the extension starts at the last dot of the
    last component, unless only dots come before it there. *)
Definition splitext (p : str) : str * str :=
  match rfind "." p with
  | Some dotIndex =>
      let filenameIndex := match rfind "/" p with Some i => S i | None => 0%nat end in
      if bool_decide (filenameIndex <= dotIndex)%nat
         && existsb (fun c => negb (chr_eqb c "."))
              (take (dotIndex - filenameIndex) (drop filenameIndex p))
      then (take dotIndex p, drop dotIndex p)
      else (p, [])
  | None => (p, [])
  end.

Section Commands.

Context `{FL : PyFloat} `{JS : !JsonCodec}.

(** [print(message, file=sys.stderr)] *)
Definition _warn (message : str) (w : world FL) : world FL :=
  mk_world (files w) (stdout w) (stderr w ++ message ++ [LF]) (db w).

(** [print(message)] *)
Definition print (message : str) (w : world FL) : world FL :=
  mk_world (files w) (stdout w ++ message ++ [LF]) (stderr w) (db w).

(** ** Loading a file *)

Definition READERS (format : file_format) : str -> result (MarketData FL) :=
  match format with
  | json => _read_json
  | csv => _read_csv
  end.

(** The key of [READERS] an extension names *)
Definition format_of_name (name : str) : option file_format :=
  if bool_decide (name = ("json" : str)) then Some json
  else if bool_decide (name = ("csv" : str)) then Some csv
  else None.

(** [load_data(filename, symbol_or_isin, format)], [format] one of the
    formats of the command line or [None] *)
Definition load_data (filename : str) (symbol_or_isin : option str)
    (format : option file_format) (w : world FL)
  : result (MarketData FL) * world FL :=
  let chosen : result file_format * world FL :=
    match format with
    | Some f => (Ok f, w)
    | None =>
        match rsplit_dot filename with
        | [_; ext] =>
            match format_of_name ext with
            | Some f => (Ok f, w)
            | None =>
                _exit ("Don't know how to read *." ++ ext ++ " files. "
                       ++ "Try specifying format explicitely with --csv or --json.") w
            end
        | _ => (Raise ValueError, w)
        end
    end in
  match chosen with
  | (Raise e, w') => (Raise e, w')
  | (Ok f, _) =>
      match files w !! filename with
      | None => _exit ("File " ++ filename ++ " not found.") w
      | Some content =>
          match READERS f content with
          | Raise e =>
              if is_exn_BrokenFile e
              then _exit ("File " ++ filename ++ " format is broken.") w
              else (Raise e, w)
          | Ok md =>
              if py_truth (symbol md) then (Ok md, w)
              else
                let given := match symbol_or_isin with
                             | Some ((_ :: _) as s) => Some s
                             | _ => None
                             end in
                let guess := match given with
                             | Some s => s
                             | None => (splitext (basename filename)).1
                             end in
                match find_stock guess w with
                | Some st =>
                    (Ok (mk_MarketData (s_symbol st) (s_isin st) (data md)), w)
                | None =>
                    match given with
                    | Some s =>
                        _exit ("Stock " ++ s ++ " not registered in database.") w
                    | None =>
                        _exit ("Can't guess stock for " ++ filename
                               ++ " file. Use --as to specify.") w
                    end
                end
          end
      end
  end.

(** ** Database commands *)

Definition do_list (w : world FL) : result unit * world FL :=
  let records := stocks (db w) in
  let w' := fold_left (fun w st => print (py_str (s_symbol st) ++ ["009"%char]
                                          ++ py_str (s_isin st)) w)
                      records w in
  match records with
  | [] => (Ok tt, _warn "Update list is empty" w')
  | _ => (Ok tt, w')
  end.

(** A field that is one of the names, as [{'$in': names}] asks *)
Definition is_in (names : list str) (v : pyval FL) : bool :=
  existsb (fun n => pyval_eqb v (PStr n)) names.

(** [', '.join(values)]: every value has to be a [str] *)
Definition join_values (values : list (pyval FL)) : result str :=
  parts <~ map_result (fun v => match v with
                                | PStr s => Ok s
                                | _ => Raise TypeError
                                end) values ;;
  Ok (join ", " parts).

(** Whether [set(...)] takes the value *)
Definition hashable (v : pyval FL) : bool :=
  match v with
  | PList _ | PDict _ => false
  | _ => true
  end.

Definition do_remove (names : list str) (purge_data : bool) (w : world FL)
  : result unit * world FL :=
  let query_stock (st : stock FL) : bool :=
    is_in names (s_symbol st) || is_in names (s_isin st) in
  let query_tick (t : tickdoc FL) : bool :=
    is_in names (t_symbol t) || is_in names (t_isin t) in
  let records := List.filter query_stock (stocks (db w)) in
  let removed : result unit * world FL :=
    match records with
    | [] => (Ok tt, w)
    | _ :: _ =>
        let w1 := set_db (mk_database
                            (List.filter (fun st => negb (query_stock st)) (stocks (db w)))
                            (ticks (db w)) (insert_calls (db w))) w in
        match join_values (map s_symbol records) with
        | Ok text => (Ok tt, print ("Stocks " ++ text ++ " removed from update list.") w1)
        | Raise e => (Raise e, w1)
        end
    end in
  match removed with
  | (Raise e, w1) => (Raise e, w1)
  | (Ok _, w1) =>
      let found := flat_map (fun st => [s_symbol st; s_isin st]) records in
      if negb (forallb hashable found) then (Raise TypeError, w1)
      else
        let not_found :=
          List.filter (fun n => negb (existsb (fun v => pyval_eqb v (PStr n)) found)) names in
        let w2 := match not_found with
                  | [] => w1
                  | _ :: _ => _warn ("Stocks " ++ join ", " not_found
                                     ++ " are not on update list.") w1
                  end in
        if purge_data then
          let n := length (List.filter query_tick (ticks (db w2))) in
          let w3 := set_db (mk_database (stocks (db w2))
                              (List.filter (fun t => negb (query_tick t)) (ticks (db w2)))
                              (insert_calls (db w2))) w2 in
          if bool_decide (n = 0%nat)
          then (Ok tt, _warn ("No data for " ++ join ", " names ++ " to erase.") w3)
          else (Ok tt, print ("Stocks " ++ join ", " names ++ " data erased.") w3)
        else (Ok tt, w2)
  end.

(** ** Other commands *)

Definition do_export (symbol_or_isin : str) (from_ to : option datetime)
    (format : option file_format) (mode : write_mode) (filename : option str)
    (w : world FL) : result unit * world FL :=
  match load_data_from_db symbol_or_isin from_ to w with
  | (Ok md, w') => save_data md format mode filename w'
  | (Raise e, w') => (Raise e, w')
  end.

Definition do_load (symbol_or_isin : option str) (filename : str)
    (format : option file_format) (w : world FL) : result unit * world FL :=
  match load_data filename symbol_or_isin format w with
  | (Ok md, w') => save_data_to_db md w'
  | (Raise e, w') => (Raise e, w')
  end.

(** [_process_stocks(action, stocks)]: a subtask that exits is given up
    and the next one is taken. *)
Fixpoint _process_stocks (action : str -> world FL -> result unit * world FL)
    (names : list str) (w : world FL) : result unit * world FL :=
  match names with
  | [] => (Ok tt, w)
  | name :: names' =>
      match action name w with
      | (Ok _, w') => _process_stocks action names' w'
      | (Raise (SystemExit _), w') => _process_stocks action names' w'
      | (Raise e, w') => (Raise e, w')
      end
  end.

End Commands.

(** ** A decimal instance of the float interface

    A float is kept as the decimal number its shortest [repr] shows: a
    sign, the digits without trailing zeros and a power of ten.  For the
    literals of up to 15 significant digits the program meets this is what
    the binary floats of Python show as well. *)

Inductive dec : Type :=
| DFin (neg : bool) (m : N) (e : Z)
| DInf (neg : bool)
| DNan.

Fixpoint strip_zeros (fuel : nat) (m : N) (e : Z) : N * Z :=
  match fuel with
  | O => (m, e)
  | S fuel' =>
      if m =? 0 then (0, 0%Z)
      else if m mod 10 =? 0 then strip_zeros fuel' (m / 10) (e + 1)%Z
      else (m, e)
  end.

Definition dec_norm (neg : bool) (m : N) (e : Z) : dec :=
  let '(m', e') := strip_zeros (S (N.to_nat (N.log2 m))) m e in DFin neg m' e'.

Definition count_digits (s : str) : N := N.of_nat (length (List.filter is_digit s)).

(** The first position of a character satisfying [p], splitting there *)
Fixpoint break_at (p : ascii -> bool) (s : str) : str * option str :=
  match s with
  | [] => ([], None)
  | c :: s' =>
      if p c then ([], Some s')
      else let '(a, b) := break_at p s' in (c :: a, b)
  end.

Definition signed (s : str) : bool * str :=
  match s with
  | c :: r => if chr_eqb c "-" then (true, r)
              else if chr_eqb c "+" then (false, r) else (false, s)
  | [] => (false, [])
  end.

Definition dec_of_str (s : str) : option dec :=
  let '(neg, body) := signed (strip s) in
  let low := map lower body in
  if bool_decide (low = ("inf" : str)) || bool_decide (low = ("infinity" : str))
  then Some (DInf neg)
  else if bool_decide (low = ("nan" : str)) then Some DNan
  else
    let '(mant, exp) := break_at (fun c => chr_eqb (lower c) "e") body in
    let '(ip, fp) := break_at (fun c => chr_eqb c ".") mant in
    let fp := default [] fp in
    let part (p : str) : option N :=
      match p with [] => Some 0 | _ => digits_value 0 true p end in
    match ip, fp with
    | [], [] => None
    | _, _ =>
        i ← part ip;
        f ← part fp;
        x ← match exp with
            | None => Some 0%Z
            | Some t =>
                let '(eneg, ds) := signed t in
                (fun n => if eneg then (- Z.of_N n)%Z else Z.of_N n)
                  <$> digits_value 0 true ds
            end;
        let k := count_digits fp in
        Some (dec_norm neg (i * 10 ^ k + f) (x - Z.of_N k))
    end.

Definition zeros (n : Z) : str := repeat "0"%char (Z.to_nat n).

Definition dec_repr (x : dec) : str :=
  match x with
  | DNan => "nan"
  | DInf neg => if neg then "-inf" else "inf"
  | DFin neg m e =>
      let ds := str_of_N m in
      let n := Z.of_nat (length ds) in
      let decpt := (n + e)%Z in
      (if neg then "-" else "") ++
      (if (m =? 0) then "0.0"
       else if (decpt <=? -4)%Z || (16 <? decpt)%Z then
         let x := (decpt - 1)%Z in
         let xs := str_of_N (Z.to_N (Z.abs x)) in
         take 1 ds ++ (match drop 1 ds with [] => [] | r => "." ++ r end)
         ++ "e" ++ (if (x <? 0)%Z then "-" else "+")
         ++ (match xs with [_] => "0" ++ xs | _ => xs end)
       else if (decpt <=? 0)%Z then "0." ++ zeros (- decpt) ++ ds
       else if (decpt <? n)%Z then
         take (Z.to_nat decpt) ds ++ "." ++ drop (Z.to_nat decpt) ds
       else ds ++ zeros (decpt - n) ++ ".0")
  end.

Definition dec_of_int (z : Z) : option dec :=
  if (Z.abs z <? 2 ^ 1024)%Z then Some (dec_norm (z <? 0)%Z (Z.abs_N z) 0) else None.

Definition int_of_dec (x : dec) : result Z :=
  match x with
  | DNan => Raise ValueError
  | DInf _ => Raise OverflowError
  | DFin neg m e =>
      let a := if (0 <=? e)%Z then (Z.of_N m * 10 ^ e)%Z
               else (Z.of_N m / 10 ^ (- e))%Z in
      Ok (if neg then - a else a)%Z
  end.

Definition dec_is_zero (x : dec) : bool :=
  match x with
  | DFin _ m _ => m =? 0
  | _ => false
  end.

Definition dec_same (x y : dec) : bool :=
  match x, y with
  | DFin a m e, DFin b n f => eqb a b && (m =? n) && (e =? f)%Z
  | DInf a, DInf b => eqb a b
  | DNan, DNan => true
  | _, _ => false
  end.

#[export, refine] Instance DecFloat : PyFloat := {|
  float := dec;
  float_of_str := dec_of_str;
  float_repr := dec_repr;
  float_of_int := dec_of_int;
  int_of_float := int_of_dec;
  float_is_zero := dec_is_zero;
  float_same := dec_same
|}.
Proof.
  intros [a m e|a|]; simpl; [|by destruct a|done].
  rewrite N.eqb_refl, Z.eqb_refl. by destruct a.
Defined.

(** ** A small instance of the json library, over the decimal floats *)

Definition hex4 (n : N) : str :=
  [hex_digit (n / 4096 mod 16); hex_digit (n / 256 mod 16);
   hex_digit (n / 16 mod 16); hex_digit (n mod 16)].

Definition json_string (s : str) : str :=
  let esc (c : ascii) : str :=
    if chr_eqb c DQUOTE || chr_eqb c "\" then ["\"%char; c]
    else if chr_eqb c LF then "\n"
    else if chr_eqb c CR then "\r"
    else if chr_eqb c "009" then "\t"
    else if chr_eqb c "008" then "\b"
    else if chr_eqb c "012" then "\f"
    else if (code c <? 32) || (126 <? code c) then "\u" ++ hex4 (code c)
    else [c] in
  DQUOTE :: flat_map esc s ++ [DQUOTE].

Fixpoint json_encode (v : pyval DecFloat) : str :=
  match v with
  | PNone => "null"
  | PBool b => if b then "true" else "false"
  | PInt z => str_of_Z z
  | PFloat x =>
      match x with
      | DNan => "NaN"
      | DInf neg => if neg then "-Infinity" else "Infinity"
      | _ => dec_repr x
      end
  | PStr s => json_string s
  | PList l => "[" ++ join ", " (map json_encode l) ++ "]"
  | PDict items =>
      "{" ++ join ", " (map (fun kv => json_string kv.1 ++ ": " ++ json_encode kv.2) items)
      ++ "}"
  end.

Definition is_json_ws (c : ascii) : bool :=
  chr_eqb c " " || chr_eqb c "009" || chr_eqb c LF || chr_eqb c CR.

Fixpoint skip_ws (s : str) : str :=
  match s with
  | c :: s' => if is_json_ws c then skip_ws s' else s
  | [] => []
  end.

Definition hex_val (c : ascii) : option N :=
  if is_digit c then Some (digit_val c)
  else if in_range 97 102 c then Some (code c - 87)
  else if in_range 65 70 c then Some (code c - 55)
  else None.

(** The rest of a string literal after its opening quote *)
Fixpoint scan_string (s : str) (acc : str) : option (str * str) :=
  match s with
  | [] => None
  | c :: r =>
      if chr_eqb c DQUOTE then Some (rev acc, r)
      else if chr_eqb c "\" then
        match r with
        | x :: r' =>
            if chr_eqb x "u" then
              match r' with
              | h1 :: h2 :: h3 :: h4 :: r'' =>
                  match hex_val h1, hex_val h2, hex_val h3, hex_val h4 with
                  | Some a, Some b, Some c', Some d =>
                      let n := ((a * 16 + b) * 16 + c') * 16 + d in
                      if n <? 256 then scan_string r'' (ascii_of_N n :: acc) else None
                  | _, _, _, _ => None
                  end
              | _ => None
              end
            else
              match (if chr_eqb x DQUOTE || chr_eqb x "\" || chr_eqb x "/" then Some x
                     else if chr_eqb x "n" then Some LF
                     else if chr_eqb x "r" then Some CR
                     else if chr_eqb x "t" then Some "009"%char
                     else if chr_eqb x "b" then Some "008"%char
                     else if chr_eqb x "f" then Some "012"%char
                     else None) with
              | Some y => scan_string r' (y :: acc)
              | None => None
              end
        | [] => None
        end
      else if code c <? 32 then None
      else scan_string r (c :: acc)
  end.

Fixpoint strip_prefix (p s : str) : option str :=
  match p, s with
  | [], _ => Some s
  | a :: p', b :: s' => if chr_eqb a b then strip_prefix p' s' else None
  | _ :: _, [] => None
  end.

(** A number: a sign, an integer part without leading zeros, then an
    optional fraction and an optional exponent *)
Definition scan_number (s : str) : option (pyval DecFloat * str) :=
  let '(sign, s1) := match s with
                     | c :: r => if chr_eqb c "-" then ([c], r) else ([], s)
                     | [] => ([], s)
                     end in
  let '(ip, s2) := match s1 with
                   | c :: r => if chr_eqb c "0" then ([c], r) else span is_digit s1
                   | [] => ([], s1)
                   end in
  match ip with
  | [] => None
  | _ =>
      let '(fp, s3) := match s2 with
                       | c :: r =>
                           if chr_eqb c "." then
                             match span is_digit r with
                             | ([], _) => ([], s2)
                             | (ds, r') => (c :: ds, r')
                             end
                           else ([], s2)
                       | [] => ([], s2)
                       end in
      let '(ep, s4) := match s3 with
                       | c :: r =>
                           if chr_eqb (lower c) "e" then
                             let '(sg, r1) := match r with
                                              | x :: r' =>
                                                  if chr_eqb x "-" || chr_eqb x "+"
                                                  then ([x], r') else ([], r)
                                              | [] => ([], r)
                                              end in
                             match span is_digit r1 with
                             | ([], _) => ([], s3)
                             | (ds, r') => (c :: sg ++ ds, r')
                             end
                           else ([], s3)
                       | [] => ([], s3)
                       end in
      match fp, ep with
      | [], [] =>
          match int_of_str (sign ++ ip) with
          | Some z => Some (PInt z, s4)
          | None => None
          end
      | _, _ =>
          match dec_of_str (sign ++ ip ++ fp ++ ep) with
          | Some x => Some (@PFloat DecFloat x, s4)
          | None => None
          end
      end
  end.

Fixpoint set_item (k : str) (v : pyval DecFloat) (items : list (str * pyval DecFloat))
  : list (str * pyval DecFloat) :=
  match items with
  | [] => [(k, v)]
  | (k', v') :: items' =>
      if bool_decide (k = k') then (k, v) :: items' else (k', v') :: set_item k v items'
  end.

Fixpoint scan_value (fuel : nat) (s : str) : option (pyval DecFloat * str) :=
  match fuel with
  | O => None
  | S fuel' =>
      match s with
      | [] => None
      | c :: r =>
          if chr_eqb c DQUOTE then
            match scan_string r [] with
            | Some (t, r') => Some (PStr t, r')
            | None => None
            end
          else if chr_eqb c "[" then
            match skip_ws r with
            | x :: r' => if chr_eqb x "]" then Some (PList [], r')
                         else scan_items fuel' (x :: r') []
            | [] => None
            end
          else if chr_eqb c "{" then
            match skip_ws r with
            | x :: r' => if chr_eqb x "}" then Some (PDict [], r')
                         else scan_members fuel' (x :: r') []
            | [] => None
            end
          else
            match strip_prefix "null" s, strip_prefix "true" s, strip_prefix "false" s,
                  strip_prefix "NaN" s, strip_prefix "Infinity" s,
                  strip_prefix "-Infinity" s with
            | Some r', _, _, _, _, _ => Some (PNone, r')
            | _, Some r', _, _, _, _ => Some (PBool true, r')
            | _, _, Some r', _, _, _ => Some (PBool false, r')
            | _, _, _, Some r', _, _ => Some (PFloat DNan, r')
            | _, _, _, _, Some r', _ => Some (PFloat (DInf false), r')
            | _, _, _, _, _, Some r' => Some (PFloat (DInf true), r')
            | _, _, _, _, _, _ => scan_number s
            end
      end
  end
with scan_items (fuel : nat) (s : str) (acc : list (pyval DecFloat))
  : option (pyval DecFloat * str) :=
  match fuel with
  | O => None
  | S fuel' =>
      match scan_value fuel' s with
      | Some (v, r) =>
          match skip_ws r with
          | x :: r' =>
              if chr_eqb x "]" then Some (PList (acc ++ [v]), r')
              else if chr_eqb x "," then scan_items fuel' (skip_ws r') (acc ++ [v])
              else None
          | [] => None
          end
      | None => None
      end
  end
with scan_members (fuel : nat) (s : str) (acc : list (str * pyval DecFloat))
  : option (pyval DecFloat * str) :=
  match fuel with
  | O => None
  | S fuel' =>
      match s with
      | q :: s' =>
          if chr_eqb q DQUOTE then
            match scan_string s' [] with
            | Some (k, r) =>
                match skip_ws r with
                | c :: r1 =>
                    if chr_eqb c ":" then
                      match scan_value fuel' (skip_ws r1) with
                      | Some (v, r2) =>
                          match skip_ws r2 with
                          | x :: r3 =>
                              if chr_eqb x "}" then Some (PDict (set_item k v acc), r3)
                              else if chr_eqb x "," then
                                scan_members fuel' (skip_ws r3) (set_item k v acc)
                              else None
                          | [] => None
                          end
                      | None => None
                      end
                    else None
                | [] => None
                end
            | None => None
            end
          else None
      | [] => None
      end
  end.

Definition json_decode (s : str) : option (pyval DecFloat) :=
  match scan_value (2 * S (length s)) (skip_ws s) with
  | Some (v, r) => match skip_ws r with [] => Some v | _ => None end
  | None => None
  end.

#[export] Instance MiniJson : @JsonCodec DecFloat := {|
  json_dumps := json_encode;
  json_loads := json_decode
|}.

(** * Vocabulary of the properties

    What the statements below speak of: the records after a watermark, the
    texts the libraries carry, the phases of [save_data], the order of a
    series and the ways the readers fail. *)

Section Vocabulary.

Context `{FL : PyFloat} `{JS : !JsonCodec}.

Definition symbol_ticks (sym : pyval FL) (d : database FL) : list (tickdoc FL) :=
  List.filter (fun t => pyval_eqb (t_symbol t) sym) (ticks d).

(** [T] is the greatest of the times [l] *)
Definition is_max_time (T : datetime) (l : list datetime) : Prop :=
  T ∈ l /\ forall t, t ∈ l -> dt_leb t T = true.

(** The records of a series after the watermark [T], in their order *)
Definition newer_than (T : datetime) (self : MarketData FL) : list tick :=
  List.filter (fun t : tick => dt_gtb (tick_time t) T) (data self).

Definition tickdoc_of (self : MarketData FL) (t : tick) : tickdoc FL :=
  mk_tickdoc (symbol self) (isin self) t.1.1 t.1.2 t.2.

Definition encode (t : tick) : str * float * Z :=
  (str_datetime t.1.1, t.1.2, t.2).

(** The watermark [save_data_to_db] starts from *)
Definition store_watermark (sym : pyval FL) (d : database FL) : datetime :=
  match find_latest_tick sym d with
  | Some doc => t_time doc
  | None => EPOCH
  end.

(** A character that is no delimiter, quote or line break *)
Definition plain_char (c : ascii) : bool :=
  negb (chr_eqb c SEMI || chr_eqb c DQUOTE || is_newline c).

Definition plain (s : str) : bool := forallb plain_char s.

Definition dval (acc : N) (ds : str) : N :=
  fold_left (fun a c => 10 * a + digit_val c) ds acc.

Definition first_is {A : Type} (l : list A) (x : A) : Prop := exists t, l = x :: t.

(** The values a two-digit directive prints *)
Definition in_field (it : fmt_item) (n : N) : Prop :=
  match it with
  | Fd => 1 <= n < 32
  | Fm => 1 <= n < 13
  | FH => n < 24
  | FM | FS => n < 60
  | _ => False
  end.

(** The first alternative of a directive that matches at the start of
    [s]: the text of the group and the rest *)
Definition first_alt (it : fmt_item) (s : str) : option (str * str) :=
  fold_right (fun pat r => match match_pattern pat s with
                           | Some m => Some m
                           | None => r
                           end) None (alternatives it).

Definition is_directive (it : fmt_item) : bool :=
  match it with
  | Flit _ | Fws => false
  | _ => true
  end.

(** A two-digit field is read back as it was written. *)
Definition field_check (it : fmt_item) (n : N) : bool :=
  match first_alt it (pad2 n) with
  | Some (m, []) => bool_decide (m = pad2 n) && (group_value m =? n)
  | _ => false
  end.

(** A text without line breaks *)
Definition no_newline (s : str) : bool := forallb (fun c => negb (is_newline c)) s.

(** The line the reader sees for a row written by the writer *)
Definition csv_line (row : list str) : str := join [SEMI] row ++ [LF].

Definition plain_row (row : list str) : Prop :=
  Forall (fun f => plain f = true) row /\ row <> [[]].

(** A text that is empty or ends a line *)
Definition ends_line (s : str) : Prop :=
  s = [] \/ exists s', universal_newlines s = s' ++ [LF].

Definition field_state (st : csv_state) : Prop :=
  st = START_RECORD \/ st = START_FIELD \/ st = IN_FIELD.

(** What a file opened in text mode gives the reader: no carriage return,
    and a line feed only at the end of a line. *)
Definition good_line (l : str) : Prop :=
  no_newline l = true \/ exists body, l = body ++ [LF] /\ no_newline body = true.

(** The first half of [save_data], up to the second [open]: the watermark
    and the old ticks it goes on with, or the exception it stops with. *)
Definition peek_phase (format : file_format) (mode : write_mode) (name : str) (w : world FL)
  : result (datetime * pyval FL) * world FL :=
  match files w !! name with
  | Some content =>
      match mode with
      | append =>
          match (IMPLEMENTATIONS format).1.2 content with
          | Ok p => (Ok p, w)
          | Raise e =>
              if is_exn_BrokenFile e then
                _exit ("File " ++ name
                       ++ " format is broken. Remove it or use --overwrite.") w
              else (Raise e, w)
          end
      | overwrite => (Ok (EPOCH, PList []), w)
      | strict =>
          _exit ("File " ++ name ++ " already exists. Use --append or --overwrite.") w
      end
  | None => (Ok (EPOCH, PList []), w)
  end.

Definition start (format : file_format) (mode : write_mode) (name : str) (w : world FL)
  : result (datetime * pyval FL) :=
  (peek_phase format mode name w).1.

(** The document [_write_json] dumps *)
Definition document (data : MarketData FL) (ticks : list (pyval FL)) : pyval FL :=
  PDict [("symbol" : str, symbol data); ("isin" : str, isin data);
         ("ticks" : str, PList ticks)].

Definition written_rows (data : MarketData FL) (W : datetime) : list (str * float * Z) :=
  map encode (newer_than W data).

(** A record the text formats can carry: a valid datetime of a year with
    four digits, without microseconds *)
Definition storable (t : tick) : Prop :=
  (valid_datetime (tick_time t) = true /\ (1000 <=? year (tick_time t)) = true)
  /\ whole_second (tick_time t) = true.

(** A price whose [repr] the csv writer need not quote *)
Definition plain_price (t : tick) : Prop := plain (float_repr t.1.2) = true.

(** A price the csv format carries: its [repr] needs no quoting and
    [float] reads it back *)
Definition csv_price (t : tick) : Prop :=
  plain_price t /\ float_of_str (float_repr t.1.2) = Some t.1.2.

(** A document the library reads back as it was dumped *)
Definition reads_back (v : pyval FL) : Prop :=
  json_loads (universal_newlines (json_dumps v)) = Some v.

(** The watermark [_peek_json] reads off the old ticks *)
Definition watermark_of (old_ticks : pyval FL) : result datetime :=
  if py_truth old_ticks then
    l <~ getitem_last old_ticks ;;
    x <~ getitem_first l ;;
    py_parse_datetime x
  else Ok EPOCH.

Definition tick_le (a b : tick) : Prop := dt_leb (tick_time a) (tick_time b) = true.

(** Sorted by timestamp, ties allowed *)
Definition ascending (l : list tick) : Prop := Sorted tick_le l.

(** The series without its records at or before [EPOCH] *)
Definition after_epoch (self : MarketData FL) : MarketData FL :=
  mk_MarketData (symbol self) (isin self) (newer_than EPOCH self).

(** What makes a data row of the export unreadable *)
Definition bad_raw_row (date_str : str) (row : list str) : Prop :=
  (length row < 3)%nat
  \/ exists t price volume rest,
       row = t :: price :: volume :: rest
       /\ (parse_datetime (date_str ++ " " ++ strip t) = Raise ValueError
           \/ float_of_str price = None \/ int_of_str volume = None).

(** The rows of [parsed[3:-1]] *)
Definition data_rows (parsed : list (list str)) : list (list str) :=
  drop 3 (removelast parsed).

(** The ways [_parse_raw] fails: the csv reader gives up; the first line
    has no first field; that field lacks the pattern; the second line has
    no first field; a data row is unreadable. *)
Inductive raw_failure (raw : str) : exn -> Prop :=
| fail_csv e :
    _parse_csv raw = Raise e -> raw_failure raw e
| fail_no_header parsed :
    _parse_csv raw = Ok parsed ->
    (forall h r, parsed !! 0%nat <> Some (h :: r)) ->
    raw_failure raw IndexError
| fail_pattern parsed h0 r0 :
    _parse_csv raw = Ok parsed -> parsed !! 0%nat = Some (h0 :: r0) ->
    re_find_header h0 = None ->
    raw_failure raw TypeError
| fail_no_date parsed h0 r0 :
    _parse_csv raw = Ok parsed -> parsed !! 0%nat = Some (h0 :: r0) ->
    is_Some (re_find_header h0) ->
    (forall h r, parsed !! 1%nat <> Some (h :: r)) ->
    raw_failure raw IndexError
| fail_row parsed h0 r0 h1 r1 row :
    _parse_csv raw = Ok parsed -> parsed !! 0%nat = Some (h0 :: r0) ->
    is_Some (re_find_header h0) ->
    parsed !! 1%nat = Some (h1 :: r1) ->
    row ∈ data_rows parsed -> bad_raw_row (strip h1) row ->
    raw_failure raw ValueError.

(** The rows the csv reader finds in a file opened in text mode *)
Definition csv_rows (content : str) : list (list str) :=
  yields (csv_reader_over (lines_of (universal_newlines content))).

(** A row [_read_csv] accepts, and the record it makes of it *)
Definition good_csv_row (row : list str) (t : tick) : Prop :=
  exists d p v, row = [d; p; v] /\ parse_datetime d = Ok t.1.1
                /\ float_of_str p = Some t.1.2 /\ int_of_str v = Some t.2.

(** A row [_read_csv] stops at *)
Definition bad_csv_row (row : list str) : Prop :=
  length row <> 3%nat
  \/ exists d p v, row = [d; p; v]
                   /\ (parse_datetime d = Raise ValueError
                       \/ float_of_str p = None \/ int_of_str v = None).

Definition csv_pyrow (row : list str) : pyval FL := PList (map PStr row).

(** The watermark [_peek_csv] reads: the first field of the last line *)
Definition csv_watermark (content : str) : result datetime :=
  match last (lines_of (universal_newlines content)) with
  | Some l => x <~ index (split SEMI l) 0 ;; parse_datetime x
  | None => Ok EPOCH
  end.

(** The datetime without its microseconds *)
Definition truncate_second (d : datetime) : datetime :=
  mk_datetime (year d) (month d) (day d) (hour d) (minute d) (second d) 0.

(** Timestamps that grow from each record to the next *)
Definition strictly_ascending (l : list tick) : Prop :=
  Sorted (fun a b => dt_ltb (tick_time a) (tick_time b) = true) l.

(** The record a document of the store holds *)
Definition tick_of_doc (doc : tickdoc FL) : tick :=
  (t_time doc, t_price doc, t_volume doc).

(** The documents [load_data_from_db] asks the store for *)
Definition in_query (sym : pyval FL) (from_ to : option datetime) (doc : tickdoc FL) : bool :=
  pyval_eqb (t_symbol doc) sym
  && match from_ with Some f => dt_leb f (t_time doc) | None => true end
  && match to with Some u => dt_leb (t_time doc) u | None => true end.

(** A subtask that ends or exits: the batch goes on after it *)
Definition goes_on (r : result unit) : Prop :=
  match r with
  | Ok _ | Raise (SystemExit _) => True
  | Raise _ => False
  end.

(** A stock or a tick that one of the names selects, by symbol or by isin *)
Definition named (names : list str) (sym isn : pyval FL) : bool :=
  is_in names sym || is_in names isn.

End Vocabulary.

(** * Sample data

    Concrete series, texts and worlds, over the decimal floats and the small
    json instance, on which the program is run below. *)

Definition on_day (h m s us : N) : datetime := mk_datetime 2014 7 29 h m s us.

(** The series of the unit tests *)
Definition ABBN : MarketData DecFloat :=
  mk_MarketData (PStr "ABBN") (PStr "CH0012221716")
    [ (on_day 15 23 3 0, DFin false 2152 (-2), 5738%Z);
      (on_day 15 24 35 0, DFin false 216 (-1), 9010%Z) ].

(** An export as the exchange serves it: header, date, column titles, the
    rows newest first, and an empty last line *)
Definition ABBN_export : str :=
  "ABB LTD (ABBN/CH0012221716)
          29.07.2014;
          Time;Price;Volume;
          15:24:35;21.6;9010;
          15:23:03;21.52;5738;

".

(** An export cut after its date line *)
Definition short_export : str :=
  "ABB LTD (ABBN/CH0012221716)
29.07.2014;
".

(** The csv file of the series of the unit tests *)
Definition ABBN_csv : str :=
  "29.07.2014 15:23:03;21.52;5738
29.07.2014 15:24:35;21.6;9010
".

(** A csv file whose rows are newest first *)
Definition newest_first_csv : str :=
  "29.07.2014 15:24:35;21.6;9010
29.07.2014 15:23:03;21.52;5738
".

(** A csv file with a fourth column *)
Definition four_column_csv : str :=
  "29.07.2014 15:23:03;21.52;5738;x
".

(** A csv file whose only row predates [EPOCH] *)
Definition old_csv : str :=
  "31.12.1969 23:59:59;1.5;1
".

(** A csv file written on the day before *)
Definition earlier_csv : str :=
  "28.07.2014 17:30:00;21.4;1200
".

(** The json file of the same record *)
Definition earlier_json : str :=
  json_dumps (PDict [("symbol" : str, PStr "ABBN"); ("isin" : str, PStr "CH0012221716");
                     ("ticks" : str,
                      PList [PList [PStr "28.07.2014 17:30:00";
                                    PFloat (DFin false 214 (-1)); PInt 1200]])]).

Definition latest_only : MarketData DecFloat :=
  mk_MarketData (PStr "ABBN") (PStr "CH0012221716")
    [ (on_day 15 24 35 0, DFin false 216 (-1), 9010%Z) ].

(** The records of ABBN, newest first *)
Definition ABBN_newest_first : MarketData DecFloat :=
  mk_MarketData (PStr "ABBN") (PStr "CH0012221716") (rev (data ABBN)).

(** A tick between two seconds *)
Definition half_second : MarketData DecFloat :=
  mk_MarketData (PStr "ABBN") (PStr "CH0012221716")
    [ (on_day 15 23 3 500000, DFin false 2152 (-2), 5738%Z) ].

Definition at_epoch : MarketData DecFloat :=
  mk_MarketData (PStr "ABBN") (PStr "CH0012221716")
    [ (EPOCH, DFin false 15 (-1), 10%Z) ].

Definition no_store : database DecFloat := mk_database [] [] [].

Definition empty_world : world DecFloat := mk_world ∅ [] [] no_store.

Definition with_file (name content : str) : world DecFloat :=
  mk_world {[ name := content ]} [] [] no_store.

(** A store that holds the first record of ABBN *)
Definition first_stored : database DecFloat :=
  mk_database [mk_stock (PStr "ABBN") (PStr "CH0012221716")]
    [mk_tickdoc (PStr "ABBN") (PStr "CH0012221716")
       (on_day 15 23 3 0) (DFin false 2152 (-2)) 5738%Z]
    [].

Definition with_store (d : database DecFloat) : world DecFloat := mk_world ∅ [] [] d.

(** The first record of ABBN alone *)
Definition first_only : MarketData DecFloat :=
  mk_MarketData (PStr "ABBN") (PStr "CH0012221716")
    [ (on_day 15 23 3 0, DFin false 2152 (-2), 5738%Z) ].

(** A store whose update list holds ABBN and that has no ticks yet *)
Definition ABBN_listed : database DecFloat :=
  mk_database [mk_stock (PStr "ABBN") (PStr "CH0012221716")] [] [].

Definition with_file_and_store (name content : str) (d : database DecFloat)
  : world DecFloat :=
  mk_world {[ name := content ]} [] [] d.

(** The file [name] after a run *)
Definition file_after (name : str) (run : result unit * world DecFloat)
  : option str :=
  files run.2 !! name.

(** * Properties *)

(** [lia] with division and remainder by constants *)
Ltac Zify.zify_post_hook ::= Z.to_euclidean_division_equations.

(** Closed equations are settled by running both sides. *)
Ltac evaluate :=
  lazymatch goal with |- _ = ?r => vm_cast_no_check (@eq_refl _ r) end.

(** ** The order on datetimes *)

Lemma lex_compare_refl a : lex_compare a a = Eq.
Proof. induction a as [|x a IH]; simpl; [done|]. by rewrite N.compare_refl. Qed.

Lemma lex_compare_eq a b : lex_compare a b = Eq -> a = b.
Proof.
  revert b. induction a as [|x a IH]; intros [|y b]; simpl; try done.
  destruct (x ?= y) eqn:E; try done.
  apply N.compare_eq_iff in E. intros H. f_equal; auto.
Qed.

Lemma lex_compare_antisym a b : lex_compare b a = CompOpp (lex_compare a b).
Proof.
  revert b. induction a as [|x a IH]; intros [|y b]; simpl; try done.
  rewrite (N.compare_antisym x y). destruct (x ?= y); simpl; auto.
Qed.

Lemma lex_compare_trans a b c :
  lex_compare a b = Lt -> lex_compare b c = Lt -> lex_compare a c = Lt.
Proof.
  revert b c. induction a as [|x a IH]; intros [|y b] [|z c]; simpl; try done.
  destruct (x ?= y) eqn:E1; try done; destruct (y ?= z) eqn:E2; try done.
  - apply N.compare_eq_iff in E1, E2. subst. rewrite N.compare_refl. apply IH.
  - apply N.compare_eq_iff in E1. subst. by rewrite E2.
  - apply N.compare_eq_iff in E2. subst. by rewrite E1.
  - intros _ _. rewrite N.compare_lt_iff in E1, E2.
    assert (x < z) as H by lia. apply N.compare_lt_iff in H. by rewrite H.
Qed.

Lemma dt_fields_inj a b : dt_fields a = dt_fields b -> a = b.
Proof. destruct a, b; unfold dt_fields; simpl. intros H. by simplify_eq. Qed.

Lemma dt_ltb_irrefl a : dt_ltb a a = false.
Proof. unfold dt_ltb, dt_compare. by rewrite lex_compare_refl. Qed.

Lemma dt_ltb_trans a b c : dt_ltb a b = true -> dt_ltb b c = true -> dt_ltb a c = true.
Proof.
  unfold dt_ltb, dt_compare.
  destruct (lex_compare (dt_fields a) (dt_fields b)) eqn:E1; try done.
  destruct (lex_compare (dt_fields b) (dt_fields c)) eqn:E2; try done.
  by rewrite (lex_compare_trans _ _ _ E1 E2).
Qed.

Lemma dt_ltb_asym a b : dt_ltb a b = true -> dt_ltb b a = false.
Proof.
  intros H. destruct (dt_ltb b a) eqn:E; [|done].
  pose proof (dt_ltb_trans _ _ _ H E) as F. by rewrite dt_ltb_irrefl in F.
Qed.

Lemma dt_trichotomy a b : dt_ltb a b = true \/ a = b \/ dt_ltb b a = true.
Proof.
  unfold dt_ltb, dt_compare.
  rewrite (lex_compare_antisym (dt_fields a) (dt_fields b)).
  destruct (lex_compare (dt_fields a) (dt_fields b)) eqn:E; simpl; auto.
  right; left. by apply dt_fields_inj, lex_compare_eq.
Qed.

Lemma dt_leb_refl a : dt_leb a a = true.
Proof. unfold dt_leb. by rewrite dt_ltb_irrefl. Qed.

Lemma dt_leb_total a b : dt_leb a b = true \/ dt_leb b a = true.
Proof.
  unfold dt_leb. destruct (dt_trichotomy a b) as [H|[->|H]].
  - left. by rewrite (dt_ltb_asym _ _ H).
  - left. by rewrite dt_ltb_irrefl.
  - right. by rewrite (dt_ltb_asym _ _ H).
Qed.

Lemma dt_leb_trans a b c : dt_leb a b = true -> dt_leb b c = true -> dt_leb a c = true.
Proof.
  unfold dt_leb. intros H1 H2. apply negb_true_iff. apply negb_true_iff in H1, H2.
  destruct (dt_ltb c a) eqn:E; [|done].
  destruct (dt_trichotomy a b) as [H|[->|H]]; try congruence.
  pose proof (dt_ltb_trans _ _ _ E H). congruence.
Qed.

Lemma dt_leb_antisym a b : dt_leb a b = true -> dt_leb b a = true -> a = b.
Proof.
  unfold dt_leb. intros H1 H2. apply negb_true_iff in H1, H2.
  destruct (dt_trichotomy a b) as [H|[->|H]]; congruence.
Qed.

Lemma dt_gtb_leb a b : dt_gtb a b = negb (dt_leb a b).
Proof. unfold dt_gtb, dt_leb. by rewrite negb_involutive. Qed.

Lemma dt_leb_gtb_trans a b c : dt_leb a b = true -> dt_gtb a c = true -> dt_gtb b c = true.
Proof.
  rewrite !dt_gtb_leb, !negb_true_iff. intros H1 H2.
  destruct (dt_leb b c) eqn:E; [|done]. by rewrite (dt_leb_trans _ _ _ H1 E) in H2.
Qed.

(** ** Results *)

Lemma map_result_Forall2 {A B : Type} (f : A -> result B) l l' :
  map_result f l = Ok l' <-> Forall2 (fun a b => f a = Ok b) l l'.
Proof.
  revert l'. induction l as [|a l IH]; intros l'; simpl.
  - split; [intros [= <-]; constructor | by inversion 1].
  - destruct (f a) as [b|e] eqn:E; simpl.
    + destruct (map_result f l) as [bs|e] eqn:E'; simpl.
      * split.
        -- intros [= <-]. constructor; [done|]. by apply IH.
        -- inversion 1 as [|? b' ? bs' Hb Hbs]; subst. apply IH in Hbs.
           congruence.
      * split; [done|]. inversion 1 as [|? b' ? bs' Hb Hbs]; subst.
        apply IH in Hbs. done.
    + split; [done|]. inversion 1; congruence.
Qed.

Lemma map_result_Raise {A B : Type} (f : A -> result B) l e :
  map_result f l = Raise e -> exists a, a ∈ l /\ f a = Raise e.
Proof.
  induction l as [|a l IH]; simpl; [done|].
  destruct (f a) as [b|e'] eqn:E; simpl.
  - destruct (map_result f l) as [bs|e''] eqn:E'; simpl; [done|].
    intros [= ->]. destruct IH as (x & Hx & Hfx); [done|].
    exists x. split; [by right|done].
  - intros [= ->]. exists a. split; [by left|done].
Qed.

Lemma map_result_all_ok {A B : Type} (f : A -> result B) l :
  (forall a, a ∈ l -> is_ok (f a) = true) -> is_ok (map_result f l) = true.
Proof.
  intros H. destruct (map_result f l) as [|e] eqn:E; [done|].
  apply map_result_Raise in E as (a & Ha & Hfa). specialize (H a Ha).
  by rewrite Hfa in H.
Qed.

Lemma map_result_app {A B : Type} (f : A -> result B) l1 l2 r1 r2 :
  map_result f l1 = Ok r1 -> map_result f l2 = Ok r2 ->
  map_result f (l1 ++ l2) = Ok (r1 ++ r2).
Proof.
  rewrite !map_result_Forall2. apply Forall2_app.
Qed.

Lemma elem_of_map {A B : Type} (f : A -> B) l y :
  y ∈ map f l <-> exists x, y = f x /\ x ∈ l.
Proof.
  rewrite list_elem_of_In, in_map_iff. split; intros (x & H1 & H2); exists x.
  - by rewrite list_elem_of_In.
  - by rewrite <- list_elem_of_In.
Qed.

Lemma elem_of_bfilter {A : Type} (f : A -> bool) l x :
  x ∈ List.filter f l <-> x ∈ l /\ f x = true.
Proof. by rewrite !list_elem_of_In, filter_In. Qed.

Section Properties.

Context `{FL : PyFloat} `{JS : !JsonCodec}.

Lemma pyval_eqb_refl (v : pyval FL) : pyval_eqb v v = true.
Proof.
  revert v. fix IH 1. intros [| b | z | x | s | l | items]; simpl.
  - done.
  - by destruct b.
  - apply Z.eqb_refl.
  - apply float_same_refl.
  - by apply bool_decide_eq_true.
  - induction l as [|u l IHl]; [done|]. by rewrite (IH u), IHl.
  - induction items as [|[k u] items IHl]; [done|].
    rewrite (IH u), IHl. rewrite bool_decide_eq_true_2; done.
Qed.

(** ** The tick store *)

Lemma encoded_rows_newer (self : MarketData FL) T :
  encoded_rows self T = map encode (newer_than T self).
Proof.
  unfold encoded_rows, newer_than. induction (data self) as [|[[d p] v] l IH]; [done|].
  simpl. unfold tick_time at 1. simpl. destruct (dt_gtb d T); simpl; by rewrite IH.
Qed.

#[local] Instance time_desc_trans : Transitive (@time_desc FL).
Proof.
  intros a b c. unfold time_desc. rewrite !Is_true_true. intros H1 H2.
  by apply (dt_leb_trans _ _ _ H2 H1).
Qed.

#[local] Instance time_desc_total : Total (@time_desc FL).
Proof.
  intros a b. unfold time_desc. rewrite !Is_true_true.
  destruct (dt_leb_total (t_time a) (t_time b)); auto.
Qed.

#[local] Instance time_asc_trans : Transitive (@time_asc FL).
Proof.
  intros a b c. unfold time_asc. rewrite !Is_true_true. apply dt_leb_trans.
Qed.

#[local] Instance time_asc_total : Total (@time_asc FL).
Proof.
  intros a b. unfold time_asc. rewrite !Is_true_true. apply dt_leb_total.
Qed.

Lemma find_latest_tick_None sym (d : database FL) :
  find_latest_tick sym d = None <-> symbol_ticks sym d = [].
Proof.
  unfold find_latest_tick. fold (symbol_ticks sym d).
  pose proof (merge_sort_Permutation time_desc (symbol_ticks sym d)) as HP.
  destruct (merge_sort time_desc (symbol_ticks sym d)) as [|x l] eqn:E; simpl.
  - split; [intros _|done]. by apply Permutation_nil in HP.
  - split; [done|]. intros H. rewrite H in HP. symmetry in HP.
    by apply Permutation_nil_cons in HP.
Qed.

Lemma find_latest_tick_Some sym (d : database FL) doc :
  find_latest_tick sym d = Some doc ->
  is_max_time (t_time doc) (map t_time (symbol_ticks sym d)).
Proof.
  unfold find_latest_tick. fold (symbol_ticks sym d).
  pose proof (merge_sort_Permutation time_desc (symbol_ticks sym d)) as HP.
  pose proof (StronglySorted_merge_sort time_desc (symbol_ticks sym d)) as HS.
  destruct (merge_sort time_desc (symbol_ticks sym d)) as [|x l] eqn:E; simpl; [done|].
  intros [= ->]. split.
  - apply elem_of_map. exists doc. split; [done|]. rewrite <- HP. by left.
  - intros t Ht. apply elem_of_map in Ht as (y & -> & Hy).
    rewrite <- HP in Hy. apply StronglySorted_inv in HS as [_ HF].
    apply elem_of_cons in Hy as [->|Hy]; [apply dt_leb_refl|].
    rewrite Forall_forall in HF. specialize (HF y Hy). unfold time_desc in HF.
    by apply Is_true_true.
Qed.

Lemma is_max_time_unique T T' l : is_max_time T l -> is_max_time T' l -> T = T'.
Proof.
  intros [H1 H2] [H3 H4]. apply dt_leb_antisym; auto.
Qed.

Lemma store_watermark_max sym (d : database FL) T :
  is_max_time T (map t_time (symbol_ticks sym d)) -> store_watermark sym d = T.
Proof.
  intros HT. unfold store_watermark.
  destruct (find_latest_tick sym d) as [doc|] eqn:E.
  - apply find_latest_tick_Some in E. by apply (is_max_time_unique _ _ _ E HT).
  - apply find_latest_tick_None in E. destruct HT as [HT _]. rewrite E in HT.
    by apply elem_of_nil in HT.
Qed.

Lemma save_data_to_db_unfold (self : MarketData FL) (w : world FL) :
  save_data_to_db self w =
  match map (tickdoc_of self) (newer_than (store_watermark (symbol self) (db w)) self) with
  | (_ :: _) as rows => (Ok tt, set_db (insert_ticks rows (db w)) w)
  | [] => (Ok tt, w)
  end.
Proof.
  unfold save_data_to_db, store_watermark, newer_than. destruct self as [sy isn dat]. simpl.
  set (T := match find_latest_tick sy (db w) with Some doc => t_time doc | None => EPOCH end).
  replace (flat_map _ dat) with
    (map (tickdoc_of (mk_MarketData sy isn dat))
       (List.filter (fun t : tick => dt_gtb (tick_time t) T) dat));
    [by destruct (map _ _)|].
  unfold tickdoc_of. simpl.
  induction dat as [|[[t p] v] l IH]; [done|]. simpl. unfold tick_time at 1. simpl.
  destruct (dt_gtb t T); simpl; by rewrite IH.
Qed.

Lemma symbol_ticks_insert (self : MarketData FL) (d : database FL) (new : list tick) :
  symbol_ticks (symbol self) (insert_ticks (map (tickdoc_of self) new) d)
  = symbol_ticks (symbol self) d ++ map (tickdoc_of self) new.
Proof.
  unfold symbol_ticks, insert_ticks. simpl. rewrite List.filter_app. f_equal.
  induction new as [|t new IH]; [done|]. simpl. by rewrite pyval_eqb_refl, IH.
Qed.

Lemma store_watermark_after_insert (self : MarketData FL) (d : database FL) new :
  new <> [] ->
  (forall t, t ∈ new -> dt_gtb (tick_time t) (store_watermark (symbol self) d) = true) ->
  let T' := store_watermark (symbol self) (insert_ticks (map (tickdoc_of self) new) d) in
  dt_leb (store_watermark (symbol self) d) T' = true
  /\ forall t, t ∈ new -> dt_leb (tick_time t) T' = true.
Proof.
  intros Hne Hnew. cbv zeta. set (d' := insert_ticks _ d).
  assert (is_max_time (store_watermark (symbol self) d')
            (map t_time (symbol_ticks (symbol self) d'))) as [Hin Hmax].
  { unfold store_watermark.
    destruct (find_latest_tick (symbol self) d') as [doc'|] eqn:E'.
    - by apply find_latest_tick_Some.
    - apply find_latest_tick_None in E'. unfold d' in E'.
      rewrite symbol_ticks_insert in E'.
      apply app_eq_nil in E' as [_ E']. by apply map_eq_nil in E'. }
  unfold d' in Hin, Hmax. rewrite symbol_ticks_insert, map_app in Hin, Hmax. fold d' in Hin, Hmax.
  split.
  - unfold store_watermark at 1.
    destruct (find_latest_tick (symbol self) d) as [doc|] eqn:E.
    + apply find_latest_tick_Some in E as [Hin0 _]. apply Hmax, elem_of_app. by left.
    + pose proof E as E0. apply find_latest_tick_None in E. rewrite E in Hin. simpl in Hin.
      apply elem_of_map in Hin as (x & Hx & Hxin). apply elem_of_map in Hxin as (t & -> & Ht).
      specialize (Hnew t Ht). unfold store_watermark in Hnew.
      rewrite E0 in Hnew. rewrite Hx. simpl.
      unfold dt_leb. unfold dt_gtb, tick_time in Hnew.
      by rewrite (dt_ltb_asym _ _ Hnew).
  - intros t Ht. apply Hmax, elem_of_app. right. apply elem_of_map.
    exists (tickdoc_of self t). split; [done|]. apply elem_of_map. by exists t.
Qed.

Lemma newer_than_nil_iff T (self : MarketData FL) :
  newer_than T self = [] <-> forall t, t ∈ data self -> dt_leb (tick_time t) T = true.
Proof.
  unfold newer_than. split.
  - intros H t Ht. destruct (dt_leb (tick_time t) T) eqn:E; [done|].
    assert (t ∈ List.filter (fun t : tick => dt_gtb (tick_time t) T) (data self)) as Hin.
    { apply elem_of_bfilter. split; [done|]. by rewrite dt_gtb_leb, E. }
    rewrite H in Hin. by apply elem_of_nil in Hin.
  - intros H. induction (data self) as [|t l IH]; [done|]. simpl.
    rewrite dt_gtb_leb, (H t) by (by left). simpl. apply IH. intros x Hx. apply H. by right.
Qed.

(** Appending to the store: exactly the records after the greatest stored
    time of the symbol are inserted, in their order, in one call; when
    there is none the store is left alone. *)
Lemma store_append (self : MarketData FL) (w : world FL) T :
  is_max_time T (map t_time (symbol_ticks (symbol self) (db w))) ->
  save_data_to_db self w =
  (Ok tt,
   match newer_than T self with
   | [] => w
   | new => set_db (mk_database (stocks (db w))
                      (ticks (db w) ++ map (tickdoc_of self) new)
                      (insert_calls (db w) ++ [map (tickdoc_of self) new])) w
   end).
Proof.
  intros HT. rewrite save_data_to_db_unfold, (store_watermark_max _ _ _ HT).
  by destruct (newer_than T self).
Qed.

(** The same when the store holds nothing for the symbol: the watermark
    is [EPOCH]. *)
Lemma store_append_empty (self : MarketData FL) (w : world FL) :
  symbol_ticks (symbol self) (db w) = [] ->
  save_data_to_db self w =
  (Ok tt,
   match newer_than EPOCH self with
   | [] => w
   | new => set_db (mk_database (stocks (db w))
                      (ticks (db w) ++ map (tickdoc_of self) new)
                      (insert_calls (db w) ++ [map (tickdoc_of self) new])) w
   end).
Proof.
  intros HT. rewrite save_data_to_db_unfold. unfold store_watermark.
  apply find_latest_tick_None in HT. rewrite HT. by destruct (newer_than EPOCH self).
Qed.

(** A second merge of the same series finds nothing to insert. *)
Lemma store_idempotent (self : MarketData FL) (w : world FL) :
  save_data_to_db self (save_data_to_db self w).2 = (Ok tt, (save_data_to_db self w).2).
Proof.
  rewrite (save_data_to_db_unfold self w).
  set (T := store_watermark (symbol self) (db w)).
  destruct (newer_than T self) as [|t0 new0] eqn:E; simpl.
  - rewrite save_data_to_db_unfold. fold T. by rewrite E.
  - rewrite save_data_to_db_unfold. simpl.
    change (tickdoc_of self t0 :: map (tickdoc_of self) new0)
      with (map (tickdoc_of self) (t0 :: new0)).
    rewrite <- E.
    destruct (store_watermark_after_insert self (db w) (newer_than T self)) as [H1 H2].
    { by rewrite E. }
    { intros t Ht. unfold newer_than in Ht. by apply elem_of_bfilter in Ht as [_ Ht]. }
    set (T' := store_watermark (symbol self) (insert_ticks _ (db w))) in *.
    assert (newer_than T' self = []) as ->; [|done].
    apply newer_than_nil_iff. intros t Ht.
    destruct (dt_gtb (tick_time t) T) eqn:Et.
    + apply H2. unfold newer_than. by apply elem_of_bfilter.
    + rewrite dt_gtb_leb in Et. apply negb_false_iff in Et.
      by apply (dt_leb_trans _ _ _ Et H1).
Qed.

(** ** Characters, digits and integers as text *)

Lemma code_ascii_of_N n : n < 256 -> code (ascii_of_N n) = n.
Proof. intros H. unfold code. by apply N_ascii_embedding. Qed.

Lemma code_digit_char n : code (digit_char n) = 48 + n mod 10.
Proof.
  unfold digit_char. apply code_ascii_of_N.
  pose proof (N.mod_upper_bound n 10). lia.
Qed.

Lemma is_digit_digit_char n : is_digit (digit_char n) = true.
Proof.
  unfold is_digit, in_range. rewrite code_digit_char.
  pose proof (N.mod_upper_bound n 10).
  apply andb_true_iff. split; apply N.leb_le; lia.
Qed.

Lemma digit_val_digit_char n : digit_val (digit_char n) = n mod 10.
Proof. unfold digit_val. rewrite code_digit_char. lia. Qed.

Lemma is_digit_props c :
  is_digit c = true ->
  plain_char c = true /\ is_space c = false /\ chr_eqb c "-" = false
  /\ chr_eqb c "+" = false /\ chr_eqb c "_" = false.
Proof.
  unfold is_digit, plain_char, is_space, is_newline, chr_eqb, in_range.
  change (code SEMI) with 59. change (code DQUOTE) with 34. change (code LF) with 10.
  change (code CR) with 13. change (code "-") with 45. change (code "+") with 43.
  change (code "_") with 95.
  rewrite andb_true_iff, !N.leb_le. intros [H1 H2].
  repeat split;
    repeat (first [rewrite negb_true_iff | rewrite orb_false_iff | rewrite andb_false_iff
                   | rewrite N.eqb_neq | rewrite N.leb_gt | split]); lia.
Qed.

Lemma digits_value_digits ds acc need :
  Forall (fun c => is_digit c = true) ds -> ds <> [] ->
  digits_value acc need ds = Some (dval acc ds).
Proof.
  intros HF. revert acc need. induction HF as [|c ds Hc HF IH]; intros acc need Hne; [done|].
  simpl. rewrite Hc. destruct ds as [|c' ds']; [done|]. by apply IH.
Qed.

Lemma digits_of_spec fuel n tl :
  fuel <> O -> n < 2 ^ N.of_nat fuel ->
  exists ds, digits_of fuel n tl = ds ++ tl /\ ds <> []
             /\ Forall (fun c => is_digit c = true) ds
             /\ forall acc, dval acc ds = acc * 10 ^ N.of_nat (length ds) + n.
Proof.
  revert n tl. induction fuel as [|fuel IH]; intros n tl Hf Hn; [done|].
  simpl. destruct (n <? 10) eqn:E.
  - apply N.ltb_lt in E. exists [digit_char n]. repeat split; [done| |].
    + constructor; [apply is_digit_digit_char | constructor].
    + intros acc. unfold dval. simpl. rewrite digit_val_digit_char.
      rewrite N.mod_small by done. lia.
  - apply N.ltb_ge in E.
    assert (n / 10 < 2 ^ N.of_nat fuel) as Hlt.
    { rewrite Nat2N.inj_succ, N.pow_succ_r' in Hn.
      apply N.Div0.div_lt_upper_bound. lia. }
    assert (fuel <> O) as Hf'.
    { intros ->. simpl in Hlt. assert (1 <= n / 10); [|lia].
      apply N.div_le_lower_bound; lia. }
    destruct (IH (n / 10) (digit_char n :: tl) Hf' Hlt) as (ds & Hds & Hne & HF & Hv).
    exists (ds ++ [digit_char n]). repeat split.
    + rewrite Hds. by rewrite <- app_assoc.
    + by destruct ds.
    + apply Forall_app. split; [done|]. constructor; [apply is_digit_digit_char|constructor].
    + intros acc. unfold dval in *. rewrite fold_left_app. simpl. rewrite Hv.
      rewrite digit_val_digit_char, length_app. simpl.
      rewrite Nat2N.inj_add. change (N.of_nat 1) with 1.
      rewrite N.pow_add_r, N.pow_1_r.
      pose proof (N.div_mod n 10). lia.
Qed.

Lemma str_of_N_spec n :
  exists ds, str_of_N n = ds /\ ds <> [] /\ Forall (fun c => is_digit c = true) ds
             /\ dval 0 ds = n.
Proof.
  unfold str_of_N.
  destruct (digits_of_spec (S (N.to_nat (N.log2 n))) n []) as (ds & H1 & H2 & H3 & H4).
  - done.
  - rewrite Nat2N.inj_succ, N2Nat.id. destruct (N.eq_dec n 0) as [->|Hn]; [done|].
    pose proof (N.log2_spec n). lia.
  - exists ds. rewrite app_nil_r in H1. repeat split; try done; rewrite H4; lia.
Qed.

Lemma lstrip_id s : (forall c r, s = c :: r -> is_space c = false) -> lstrip s = s.
Proof. destruct s as [|c r]; [done|]. intros H. simpl. by rewrite (H c r). Qed.

Lemma strip_id s :
  Forall (fun c => is_space c = false) s -> strip s = s.
Proof.
  intros HF. unfold strip, rstrip. rewrite (lstrip_id s).
  2:{ intros c r ->. by inversion HF. }
  rewrite lstrip_id; [apply rev_involutive|].
  intros c r Hr. apply Forall_rev in HF. rewrite Hr in HF. by inversion HF.
Qed.

Lemma str_of_Z_digits z :
  exists sign ds, str_of_Z z = sign ++ ds /\ (sign = [] \/ sign = ["-"%char])
    /\ ds <> [] /\ Forall (fun c => is_digit c = true) ds
    /\ (z = if bool_decide (sign = []) then Z.of_N (dval 0 ds) else - Z.of_N (dval 0 ds))%Z.
Proof.
  destruct z as [|p|p]; simpl.
  - destruct (str_of_N_spec 0) as (ds & H1 & H2 & H3 & H4).
    exists [], ds. simpl. rewrite H4. by repeat split; auto.
  - destruct (str_of_N_spec (N.pos p)) as (ds & H1 & H2 & H3 & H4).
    exists [], ds. simpl. rewrite H4. by repeat split; auto.
  - destruct (str_of_N_spec (N.pos p)) as (ds & H1 & H2 & H3 & H4).
    exists ["-"%char], ds. simpl. rewrite H4, H1. by repeat split; auto.
Qed.

(** [int(str(z)) == z] *)
Lemma int_of_str_of_Z z : int_of_str (str_of_Z z) = Some z.
Proof.
  destruct (str_of_Z_digits z) as (sign & ds & Hs & Hsign & Hne & HF & Hz).
  unfold int_of_str. rewrite Hs, strip_id.
  2:{ apply Forall_app. split.
      - destruct Hsign as [->| ->]; [constructor|]. by repeat constructor.
      - eapply Forall_impl; [exact HF|]. intros c Hc. by apply is_digit_props in Hc as (_ & ? & _). }
  destruct Hsign as [->| ->].
  - rewrite bool_decide_eq_true_2 in Hz by done. rewrite app_nil_l.
    destruct ds as [|c r]; [done|]. pose proof HF as HF0.
    inversion HF as [|? ? Hc HF']; subst.
    apply is_digit_props in Hc as (_ & _ & -> & -> & _).
    by rewrite digits_value_digits.
  - rewrite bool_decide_eq_false_2 in Hz by done.
    change (["-"%char] ++ ds) with ("-"%char :: ds). cbv iota.
    change (chr_eqb "-" "-") with true. cbv iota.
    rewrite digits_value_digits by done. simpl. by rewrite Hz.
Qed.

Lemma plain_str_of_Z z : plain (str_of_Z z) = true.
Proof.
  destruct (str_of_Z_digits z) as (sign & ds & Hs & Hsign & Hne & HF & Hz).
  rewrite Hs. unfold plain. rewrite forallb_app. apply andb_true_iff. split.
  - by destruct Hsign as [->| ->].
  - apply forallb_forall. intros c Hc. rewrite Forall_forall in HF.
    apply list_elem_of_In in Hc. by apply is_digit_props, HF.
Qed.

(** ** Formatting a datetime and parsing it back *)

Lemma N_below (P : N -> Prop) (k : nat) :
  (forall i : nat, (i < k)%nat -> P (N.of_nat i)) -> forall n, n < N.of_nat k -> P n.
Proof.
  intros H n Hn. rewrite <- (N2Nat.id n). apply H. lia.
Qed.

Lemma first_is_app {A : Type} (l l' : list A) x : first_is l x -> first_is (l ++ l') x.
Proof. intros [t ->]. by exists (t ++ l'). Qed.

Lemma match_items_first_alt it items s acc m rest x :
  is_directive it = true ->
  first_alt it s = Some (m, rest) ->
  first_is (match_items items rest (set_field it (group_value m) acc)) x ->
  first_is (match_items (it :: items) s acc) x.
Proof.
  intros Hit Hfa Hx.
  assert (match_items (it :: items) s acc =
          flat_map (fun pat =>
                      match match_pattern pat s with
                      | Some (m, rest) =>
                          match_items items rest (set_field it (group_value m) acc)
                      | None => []
                      end) (alternatives it)) as -> by (by destruct it).
  unfold first_alt in Hfa. induction (alternatives it) as [|pat alts IH]; [done|].
  simpl in *. destruct (match_pattern pat s) as [[m' rest']|].
  - simplify_eq. by apply first_is_app.
  - by apply IH.
Qed.

Lemma match_pattern_app pat s m r rest :
  match_pattern pat s = Some (m, r) -> match_pattern pat (s ++ rest) = Some (m, r ++ rest).
Proof.
  revert s m r. induction pat as [|[lo hi] pat IH]; intros s m r; simpl.
  - by intros [= <- <-].
  - destruct s as [|c s]; [done|]. simpl. destruct (in_range lo hi c); [|done].
    destruct (match_pattern pat s) as [[m' r']|] eqn:E; [|done].
    intros [= <- <-]. by rewrite (IH _ _ _ E).
Qed.

Lemma match_pattern_app_None pat s rest :
  (length pat <= length s)%nat ->
  match_pattern pat s = None -> match_pattern pat (s ++ rest) = None.
Proof.
  revert s. induction pat as [|[lo hi] pat IH]; intros s Hlen; simpl; [done|].
  destruct s as [|c s]; simpl in *; [lia|]. destruct (in_range lo hi c); [|done].
  destruct (match_pattern pat s) as [[m' r']|] eqn:E; [done|].
  intros _. rewrite IH; [done|lia|done].
Qed.

Lemma first_alt_app it s m r rest :
  Forall (fun pat => (length pat <= length s)%nat) (alternatives it) ->
  first_alt it s = Some (m, r) -> first_alt it (s ++ rest) = Some (m, r ++ rest).
Proof.
  unfold first_alt. induction 1 as [|pat alts Hp HF IH]; simpl; [done|].
  destruct (match_pattern pat s) as [[m' r']|] eqn:E.
  - intros [= <- <-]. by rewrite (match_pattern_app _ _ _ _ _ E).
  - intros H. rewrite (match_pattern_app_None _ _ _ Hp E). by apply IH.
Qed.

Lemma field_check_below it (lo k : nat) :
  forallb (field_check it) (map N.of_nat (seq lo k)) = true ->
  forall n, N.of_nat lo <= n < N.of_nat (lo + k) -> field_check it n = true.
Proof.
  intros H n Hn. rewrite forallb_forall in H. apply H.
  rewrite <- (N2Nat.id n). apply in_map, in_seq. lia.
Qed.

Lemma field_check_in_field it n : in_field it n -> field_check it n = true.
Proof.
  destruct it; simpl; try done; intros Hn.
  - apply (field_check_below Fd 1 31); [by vm_compute|lia].
  - apply (field_check_below Fm 1 12); [by vm_compute|lia].
  - apply (field_check_below FH 0 24); [by vm_compute|lia].
  - apply (field_check_below FM 0 60); [by vm_compute|lia].
  - apply (field_check_below FS 0 60); [by vm_compute|lia].
Qed.

Lemma match_items_field it items n rest acc x :
  in_field it n ->
  first_is (match_items items rest (set_field it n acc)) x ->
  first_is (match_items (it :: items) (pad2 n ++ rest) acc) x.
Proof.
  intros Hn Hx. pose proof (field_check_in_field it n Hn) as Hc. unfold field_check in Hc.
  destruct (first_alt it (pad2 n)) as [[m [|]]|] eqn:E; try done.
  apply andb_true_iff in Hc as [Hm Hv]. apply bool_decide_eq_true in Hm.
  apply N.eqb_eq in Hv. subst m.
  apply (match_items_first_alt it items _ acc (pad2 n) rest).
  - by destruct it.
  - apply (first_alt_app it (pad2 n) (pad2 n) [] rest); [|done].
    destruct it; try done; simpl; repeat constructor.
  - by rewrite Hv.
Qed.

Lemma group_value_pad4 y : y < 10000 -> group_value (pad4 y) = y.
Proof.
  intros Hy. unfold group_value, pad4. simpl.
  rewrite !is_digit_digit_char, !digit_val_digit_char. lia.
Qed.

Lemma match_items_year items y rest acc x :
  y < 10000 ->
  first_is (match_items items rest (set_field FY y acc)) x ->
  first_is (match_items (FY :: items) (pad4 y ++ rest) acc) x.
Proof.
  intros Hy Hx. apply (match_items_first_alt FY items _ acc (pad4 y) rest); [done| |].
  - unfold first_alt, pad4. simpl.
    pose proof is_digit_digit_char as Hd. unfold is_digit in Hd. by rewrite !Hd.
  - by rewrite group_value_pad4.
Qed.

Lemma match_items_lit c items rest acc x :
  first_is (match_items items rest acc) x ->
  first_is (match_items (Flit c :: items) (c :: rest) acc) x.
Proof.
  intros Hx. simpl. unfold chr_eqb. by rewrite N.eqb_refl.
Qed.

Lemma match_items_ws items n rest acc x :
  first_is (match_items items (pad2 n ++ rest) acc) x ->
  first_is (match_items (Fws :: items) (" "%char :: pad2 n ++ rest) acc) x.
Proof.
  intros Hx. simpl. change (is_space " ") with true. cbv iota.
  pose proof (is_digit_props _ (is_digit_digit_char (n / 10))) as (_ & -> & _).
  simpl. rewrite app_nil_r. exact Hx.
Qed.

Lemma str_datetime_eq d :
  str_datetime d =
  pad2 (day d) ++ "."%char :: pad2 (month d) ++ "."%char :: pad4 (year d)
  ++ " "%char :: pad2 (hour d) ++ ":"%char :: pad2 (minute d) ++ ":"%char
  :: pad2 (second d) ++ [].
Proof. reflexivity. Qed.

Lemma valid_datetime_fields d :
  valid_datetime d = true ->
  in_field Fd (day d) /\ in_field Fm (month d) /\ year d < 10000
  /\ in_field FH (hour d) /\ in_field FM (minute d) /\ in_field FS (second d).
Proof.
  unfold valid_datetime, in_field, days_in_month. rewrite !andb_true_iff.
  rewrite !N.leb_le, !N.ltb_lt. intros H.
  repeat (destruct (_ =? _) || destruct (is_leap _) || simpl in H); lia.
Qed.

(** [parse_datetime(str_datetime(dt)) == dt] for a datetime without
    microseconds *)
Lemma parse_str_datetime d :
  valid_datetime d = true -> whole_second d = true ->
  parse_datetime (str_datetime d) = Ok d.
Proof.
  intros Hv Hw. pose proof (valid_datetime_fields d Hv) as (Hd & Hm & Hy & HH & HM & HS).
  unfold parse_datetime, strptime. rewrite str_datetime_eq.
  change (parse_format "%d.%m.%Y %H:%M:%S") with
    (Some [Fd; Flit "."; Fm; Flit "."; FY; Fws; FH; Flit ":"; FM; Flit ":"; FS]).
  cbn [mbind option_bind].
  assert (first_is
            (match_items [Fd; Flit "."; Fm; Flit "."; FY; Fws; FH; Flit ":"; FM; Flit ":"; FS]
               (pad2 (day d) ++ "."%char :: pad2 (month d) ++ "."%char :: pad4 (year d)
                ++ " "%char :: pad2 (hour d) ++ ":"%char :: pad2 (minute d) ++ ":"%char
                :: pad2 (second d) ++ []) (mk_datetime 1900 1 1 0 0 0 0))
            (d, [])) as [t ->].
  { apply match_items_field; [done|]. apply match_items_lit.
    apply match_items_field; [done|]. apply match_items_lit.
    apply match_items_year; [done|]. apply match_items_ws.
    apply match_items_field; [done|]. apply match_items_lit.
    apply match_items_field; [done|]. apply match_items_lit.
    apply match_items_field; [done|]. simpl.
    unfold whole_second in Hw. apply N.eqb_eq in Hw. destruct d; simpl in *. subst.
    by eexists. }
  by rewrite Hv.
Qed.

(** ** Lines and csv text *)

Lemma chr_eqb_eq a b : chr_eqb a b = true <-> a = b.
Proof.
  unfold chr_eqb, code. rewrite N.eqb_eq. split; [|by intros ->].
  intros H. rewrite <- (ascii_N_embedding a), <- (ascii_N_embedding b). by rewrite H.
Qed.

Lemma chr_eqb_refl a : chr_eqb a a = true.
Proof. by apply chr_eqb_eq. Qed.

Lemma plain_char_props c :
  plain_char c = true ->
  chr_eqb c SEMI = false /\ chr_eqb c DQUOTE = false /\ is_newline c = false
  /\ chr_eqb c LF = false /\ chr_eqb c CR = false.
Proof.
  unfold plain_char, is_newline. rewrite negb_true_iff, !orb_false_iff. tauto.
Qed.

Lemma no_newline_app a b : no_newline (a ++ b) = no_newline a && no_newline b.
Proof. apply forallb_app. Qed.

Lemma plain_no_newline s : plain s = true -> no_newline s = true.
Proof.
  unfold plain, no_newline. rewrite !forallb_forall. intros H c Hc.
  specialize (H c Hc). by apply plain_char_props in H as (_ & _ & -> & _).
Qed.

Lemma csv_field_plain f : plain f = true -> csv_field f = f.
Proof.
  intros H. unfold csv_field.
  assert (needs_quotes f = false) as ->; [|done].
  unfold needs_quotes. apply not_true_is_false. intros E.
  apply existsb_exists in E as (c & Hc & E). unfold plain in H.
  rewrite forallb_forall in H. specialize (H c Hc). unfold plain_char in H.
  simpl in E. by rewrite E in H.
Qed.

Lemma map_csv_field_plain row :
  Forall (fun f => plain f = true) row -> map csv_field row = row.
Proof.
  induction 1 as [|f row Hf HF IH]; [done|]. simpl. by rewrite csv_field_plain, IH.
Qed.

Lemma no_newline_join row :
  Forall (fun f => plain f = true) row -> no_newline (join [SEMI] row) = true.
Proof.
  induction 1 as [|f row Hf HF IH]; [done|]. simpl. destruct row as [|g row].
  - by apply plain_no_newline.
  - rewrite !no_newline_app, (plain_no_newline _ Hf). simpl in *. by rewrite IH.
Qed.

Lemma universal_newlines_plain a b :
  no_newline a = true -> universal_newlines (a ++ b) = a ++ universal_newlines b.
Proof.
  induction a as [|c a IH]; [done|]. simpl. intros H. apply andb_true_iff in H as [Hc Ha].
  unfold is_newline in Hc. rewrite negb_true_iff, orb_false_iff in Hc. destruct Hc as [_ ->].
  by rewrite IH.
Qed.

Lemma universal_newlines_crlf s :
  universal_newlines (CR :: LF :: s) = LF :: universal_newlines s.
Proof. reflexivity. Qed.

Lemma lines_of_nonempty c s : lines_of (c :: s) <> [].
Proof. simpl. destruct (chr_eqb c LF); [done|]. by destruct (lines_of s). Qed.

Lemma lines_of_line a b :
  no_newline a = true -> lines_of (a ++ LF :: b) = (a ++ [LF]) :: lines_of b.
Proof.
  induction a as [|c a IH]; [done|]. simpl. intros H. apply andb_true_iff in H as [Hc Ha].
  unfold is_newline in Hc. rewrite negb_true_iff, orb_false_iff in Hc. destruct Hc as [-> _].
  by rewrite IH.
Qed.

Lemma lines_of_app_LF a b :
  lines_of (a ++ LF :: b) = lines_of (a ++ [LF]) ++ lines_of b.
Proof.
  induction a as [|c a IH]; [done|]. simpl. destruct (chr_eqb c LF).
  - by rewrite IH.
  - rewrite IH. destruct (lines_of (a ++ [LF])) as [|l ls] eqn:E; [|done].
    destruct a; by apply lines_of_nonempty in E.
Qed.

Lemma csv_writerow_plain row :
  plain_row row -> csv_writerow row = join [SEMI] row ++ [CR; LF].
Proof.
  intros [HF Hne]. unfold csv_writerow. rewrite (map_csv_field_plain _ HF).
  destruct row as [|[|] [|]]; done.
Qed.

Lemma universal_newlines_rows rows :
  Forall plain_row rows ->
  universal_newlines (csv_writerows rows) = flat_map csv_line rows.
Proof.
  induction 1 as [|row rows Hr HF IH]; [done|]. unfold csv_writerows in *. simpl.
  rewrite (csv_writerow_plain _ Hr), <- app_assoc.
  rewrite universal_newlines_plain by apply no_newline_join, Hr.
  simpl. rewrite IH. unfold csv_line. by rewrite <- app_assoc.
Qed.

Lemma lines_of_rows rows :
  Forall plain_row rows -> lines_of (flat_map csv_line rows) = map csv_line rows.
Proof.
  induction 1 as [|row rows Hr HF IH]; [done|]. simpl. unfold csv_line at 1.
  rewrite <- app_assoc. simpl.
  rewrite lines_of_line by apply no_newline_join, Hr. by rewrite IH.
Qed.

Lemma universal_newlines_cons c s :
  universal_newlines (c :: s) =
  if chr_eqb c CR then
    LF :: match s with
          | c' :: s'' =>
              if chr_eqb c' LF then universal_newlines s'' else universal_newlines s
          | [] => []
          end
  else c :: universal_newlines s.
Proof. by destruct s. Qed.

(** [universal_newlines] on a text put after another *)
Lemma universal_newlines_app a b :
  (forall b', b <> LF :: b') ->
  universal_newlines (a ++ b) = universal_newlines a ++ universal_newlines b.
Proof.
  intros Hb. remember (length a) as n eqn:Hn. revert a Hn.
  induction n as [n IH] using lt_wf_ind. intros a Hn.
  destruct a as [|c a]; [done|].
  change ((c :: a) ++ b) with (c :: (a ++ b)). rewrite !universal_newlines_cons.
  destruct (chr_eqb c CR) eqn:Ec.
  - destruct a as [|c' a].
    + rewrite app_nil_l. destruct b as [|x b]; [done|]. destruct (chr_eqb x LF) eqn:Ex; [|done].
      apply chr_eqb_eq in Ex. subst. by destruct (Hb b).
    + change ((c' :: a) ++ b) with (c' :: (a ++ b)). cbv iota.
      destruct (chr_eqb c' LF).
      * change (LF :: universal_newlines (a ++ b) = LF :: (universal_newlines a ++ universal_newlines b)).
        f_equal. apply (IH (length a)); [simpl in Hn; lia|done].
      * change (LF :: universal_newlines ((c' :: a) ++ b)
                = LF :: (universal_newlines (c' :: a) ++ universal_newlines b)).
        f_equal. apply (IH (length (c' :: a))); [simpl in *; lia|done].
  - change (c :: universal_newlines (a ++ b) = c :: (universal_newlines a ++ universal_newlines b)).
    f_equal. apply (IH (length a)); [simpl in Hn; lia|done].
Qed.

Lemma last_lines_of_app x row :
  x = [] \/ (exists x', x = x' ++ [LF]) ->
  no_newline (join [SEMI] row) = true ->
  last (lines_of (x ++ csv_line row)) = Some (csv_line row).
Proof.
  intros Hx Hrow.
  assert (lines_of (csv_line row) = [csv_line row]) as Hl.
  { unfold csv_line. by rewrite lines_of_line. }
  destruct Hx as [->|[x' ->]]; simpl; [by rewrite Hl|].
  rewrite <- app_assoc. simpl. rewrite lines_of_app_LF, Hl. by rewrite last_snoc.
Qed.

Lemma split_first a b :
  forallb (fun c => negb (chr_eqb c SEMI)) a = true ->
  index (split SEMI (a ++ SEMI :: b)) 0 = Ok a.
Proof.
  intros Ha. unfold index.
  assert (exists ws, split SEMI (a ++ SEMI :: b) = a :: ws) as [ws ->]; [|done].
  induction a as [|c a IH]; simpl.
  - by eexists.
  - simpl in Ha. apply andb_true_iff in Ha as [Hc Ha]. apply negb_true_iff in Hc.
    rewrite Hc. destruct (IH Ha) as [ws ->]. by eexists.
Qed.

(** ** The csv reader *)

Lemma process_plain_char st pre fs c :
  field_state st -> plain_char c = true ->
  parse_process_char (mk_reader st pre fs) (Some c) = Ok (mk_reader IN_FIELD (pre ++ [c]) fs).
Proof.
  intros Hst Hc. apply plain_char_props in Hc as (H1 & H2 & H3 & _).
  unfold parse_process_char. simpl.
  destruct Hst as [->|[->| ->]]; by rewrite ?H3, ?H2, ?H1.
Qed.

Lemma feed_cell st pre fs cell tl :
  field_state st -> plain cell = true ->
  feed_line (mk_reader st pre fs) (cell ++ tl)
  = feed_line (mk_reader (match cell with [] => st | _ => IN_FIELD end) (pre ++ cell) fs) tl.
Proof.
  revert st pre. induction cell as [|c cell IH]; intros st pre Hst Hp.
  - by rewrite app_nil_r.
  - simpl in Hp. apply andb_true_iff in Hp as [Hc Hp]. simpl.
    rewrite (process_plain_char _ _ _ _ Hst Hc). simpl.
    rewrite IH; [|right; by right|done]. rewrite <- app_assoc. simpl. by destruct cell.
Qed.

Lemma feed_row st fs cell cells :
  st = START_FIELD \/ (st = START_RECORD /\ cell :: cells <> [[]]) ->
  Forall (fun f => plain f = true) (cell :: cells) ->
  feed_line (mk_reader st [] fs) (csv_line (cell :: cells))
  = Ok (mk_reader START_RECORD [] (fs ++ cell :: cells)).
Proof.
  unfold csv_line. revert st fs cell. induction cells as [|c2 cs IH]; intros st fs cell Hst HF.
  - inversion HF as [|? ? Hc _]; subst. simpl join.
    rewrite feed_cell; [|destruct Hst as [->|[-> _]]; unfold field_state; auto|done].
    simpl. destruct cell as [|x cell].
    + destruct Hst as [->|[_ ?]]; done.
    + done.
  - inversion HF as [|? ? Hc HF']; subst.
    change (join [SEMI] (cell :: c2 :: cs)) with (cell ++ [SEMI] ++ join [SEMI] (c2 :: cs)).
    rewrite <- !app_assoc.
    rewrite feed_cell; [|destruct Hst as [->|[-> _]]; unfold field_state; auto|done].
    assert (forall st', field_state st' ->
              feed_line (mk_reader st' (cell) fs) ([SEMI] ++ join [SEMI] (c2 :: cs) ++ [LF])
              = feed_line (mk_reader START_FIELD [] (fs ++ [cell]))
                  (join [SEMI] (c2 :: cs) ++ [LF])) as Hsemi.
    { intros st' [->|[->| ->]]; done. }
    simpl app at 1. rewrite Hsemi.
    2:{ destruct cell; [destruct Hst as [->|[-> _]]|]; unfold field_state; auto. }
    rewrite IH; [|by left|done]. by rewrite <- app_assoc.
Qed.

(** Reading the lines of written rows gives the rows back. *)
Lemma reader_rows_written rows :
  Forall plain_row rows ->
  csv_reader_over (map csv_line rows) = mk_iteration rows None.
Proof.
  unfold csv_reader_over. induction 1 as [|row rows [HF Hne] HFs IH]; [done|].
  simpl. destruct row as [|cell cells].
  - simpl. unfold yield_first. by rewrite IH.
  - unfold parse_reset at 1. rewrite feed_row; [|right; done|done].
    simpl. unfold yield_first. by rewrite IH.
Qed.

Lemma universal_newlines_no_CR s :
  Forall (fun c => chr_eqb c CR = false) (universal_newlines s).
Proof.
  remember (length s) as n eqn:Hn. revert s Hn.
  induction n as [n IH] using lt_wf_ind. intros s Hn.
  destruct s as [|c s]; [constructor|]. rewrite universal_newlines_cons.
  destruct (chr_eqb c CR) eqn:Ec.
  - constructor; [done|]. destruct s as [|c' s]; [constructor|].
    destruct (chr_eqb c' LF).
    + apply (IH (length s)); [simpl in *; lia|done].
    + apply (IH (length (c' :: s))); [simpl in *; lia|done].
  - constructor; [done|]. apply (IH (length s)); [simpl in *; lia|done].
Qed.

Lemma good_line_cons c l :
  is_newline c = false -> good_line l -> good_line (c :: l).
Proof.
  intros Hc [H|(body & -> & H)].
  - left. simpl. by rewrite Hc.
  - right. exists (c :: body). split; [done|]. simpl. by rewrite Hc.
Qed.

Lemma lines_of_good s :
  Forall (fun c => chr_eqb c CR = false) s -> Forall good_line (lines_of s).
Proof.
  induction 1 as [|c s Hc HF IH]; [constructor|]. simpl.
  destruct (chr_eqb c LF) eqn:E.
  - constructor; [|done]. right. exists []. apply chr_eqb_eq in E. by subst.
  - assert (is_newline c = false) as Hn by (unfold is_newline; by rewrite E, Hc).
    destruct (lines_of s) as [|l ls].
    + constructor; [|constructor]. left. simpl. by rewrite Hn.
    + inversion IH; subst. constructor; [|done]. by apply good_line_cons.
Qed.

Lemma process_char_calm r c :
  state r <> EAT_CRNL -> is_newline c = false ->
  exists r', parse_process_char r (Some c) = Ok r' /\ state r' <> EAT_CRNL.
Proof.
  intros Hst Hc. unfold parse_process_char. rewrite Hc.
  destruct (state r); try done;
    repeat match goal with |- context [if ?b then _ else _] => destruct b end;
    eexists; split; try reflexivity; done.
Qed.

Lemma process_eol_calm r :
  exists r', parse_process_char r None = Ok r'
             /\ (state r' = START_RECORD \/ state r' = IN_QUOTED_FIELD).
Proof.
  unfold parse_process_char.
  destruct (state r) eqn:E; eexists; (split; [reflexivity|]); simpl; auto.
Qed.

Lemma feed_good_line l r :
  good_line l -> state r <> EAT_CRNL ->
  exists r', feed_line r l = Ok r' /\ (state r' = START_RECORD \/ state r' = IN_QUOTED_FIELD).
Proof.
  revert r. induction l as [|c l IH]; intros r Hg Hst.
  - simpl. apply process_eol_calm.
  - simpl. destruct (is_newline c) eqn:Ec.
    + destruct Hg as [H|(body & Hb & H)]; [simpl in H; by rewrite Ec in H|].
      destruct body as [|b body].
      * simpl in Hb. injection Hb as -> ->.
        assert (exists r', parse_process_char r (Some LF) = Ok r') as [r' Hr'].
        { unfold parse_process_char. destruct (state r); try done; by eexists. }
        rewrite Hr'. simpl. apply process_eol_calm.
      * simpl in Hb. injection Hb as -> ->. simpl in H. by rewrite Ec in H.
    + destruct (process_char_calm r c Hst Ec) as (r' & -> & Hst'). simpl.
      apply IH; [|done].
      destruct Hg as [H|(body & Hb & H)].
      * left. simpl in H. by rewrite Ec in H.
      * destruct body as [|b body]; simpl in Hb; injection Hb as -> ->.
        -- done.
        -- right. exists body. split; [done|]. simpl in H. by rewrite Ec in H.
Qed.

(** The reader raises no [csv.Error] on such lines. *)
Lemma reader_rows_good lines r :
  Forall good_line lines -> state r <> EAT_CRNL -> ends_with (reader_rows r lines) = None.
Proof.
  intros HF. revert r. induction HF as [|l lines Hl HF IH]; intros r Hst; simpl.
  - by destruct (field r), (state r).
  - destruct (feed_good_line l r Hl Hst) as (r' & -> & [E|E]); rewrite E; simpl.
    + by apply IH.
    + apply IH. by rewrite E.
Qed.

Lemma csv_reader_text_mode s :
  ends_with (csv_reader_over (lines_of (universal_newlines s))) = None.
Proof.
  apply reader_rows_good; [|done]. apply lines_of_good, universal_newlines_no_CR.
Qed.

(** ** Running [save_data] *)

Lemma peek_phase_Ok format mode name w p w' :
  peek_phase format mode name w = (Ok p, w') -> w' = w.
Proof.
  unfold peek_phase, _exit. intros H.
  repeat match type of H with
         | context [match ?x with _ => _ end] => destruct x
         | context [if ?x then _ else _] => destruct x
         end; by simplify_eq.
Qed.

Lemma peek_phase_files format mode name w :
  files (peek_phase format mode name w).2 = files w
  /\ stdout (peek_phase format mode name w).2 = stdout w
  /\ db (peek_phase format mode name w).2 = db w.
Proof.
  unfold peek_phase, _exit.
  repeat match goal with
         | |- context [match ?x with _ => _ end] => destruct x
         | |- context [if ?x then _ else _] => destruct x
         end; done.
Qed.

Lemma _write_csv_eq data W old :
  _write_csv data W old = Ok (csv_writerows (map csv_row (written_rows data W))).
Proof. unfold _write_csv, written_rows. by rewrite encoded_rows_newer. Qed.

Lemma _write_json_eq data W old items :
  list_of (py_iter old) = Ok items ->
  _write_json data W old
  = Ok (json_dumps (document data (items ++ map json_row (written_rows data W)))).
Proof.
  intros H. unfold _write_json, written_rows, document. rewrite H. simpl.
  by rewrite encoded_rows_newer.
Qed.

Lemma save_data_phases data format mode filename w :
  target data format filename <> ("-" : str) ->
  save_data data (Some format) mode filename w =
  let name := target data format filename in
  match peek_phase format mode name w with
  | (Raise e, w') => (Raise e, w')
  | (Ok (W, old), w') =>
      let w1 := open_for_writing name (IMPLEMENTATIONS format).2 w' in
      match (IMPLEMENTATIONS format).1.1 data W old with
      | Ok text => (Ok tt, write_text name text w1)
      | Raise e => (Raise e, w1)
      end
  end.
Proof.
  intros Hname. unfold save_data, peek_phase.
  destruct (IMPLEMENTATIONS format) as [[write peek] fm] eqn:EI.
  cbv beta iota zeta. cbn [fst snd] in *.
  set (name := target data format filename) in *.
  by rewrite bool_decide_eq_false_2.
Qed.

Lemma save_data_file data format mode filename w W old :
  target data format filename <> ("-" : str) ->
  start format mode (target data format filename) w = Ok (W, old) ->
  save_data data (Some format) mode filename w =
  let name := target data format filename in
  let w1 := open_for_writing name (IMPLEMENTATIONS format).2 w in
  match (IMPLEMENTATIONS format).1.1 data W old with
  | Ok text => (Ok tt, write_text name text w1)
  | Raise e => (Raise e, w1)
  end.
Proof.
  intros Hname Hstart. rewrite save_data_phases by done. cbv zeta. unfold start in Hstart.
  destruct (peek_phase format mode (target data format filename) w) as [r w'] eqn:E.
  simpl in Hstart. subst r. by rewrite (peek_phase_Ok _ _ _ _ _ _ E).
Qed.

(** When the first half stops, nothing is written and the series plays no
    part. *)
Lemma save_data_aborted data format mode filename w e :
  target data format filename <> ("-" : str) ->
  start format mode (target data format filename) w = Raise e ->
  save_data data (Some format) mode filename w
  = (Raise e, (peek_phase format mode (target data format filename) w).2).
Proof.
  intros Hname Hstart. rewrite save_data_phases by done. cbv zeta. unfold start in Hstart.
  destruct (peek_phase format mode (target data format filename) w) as [r w'] eqn:E.
  simpl in Hstart. by subst r.
Qed.

Lemma save_data_stdout data format mode filename w :
  target data format filename = ("-" : str) ->
  save_data data (Some format) mode filename w =
  match (IMPLEMENTATIONS format).1.1 data EPOCH (PList []) with
  | Ok text => (Ok tt, mk_world (files w) (stdout w ++ text) (stderr w) (db w))
  | Raise e => (Raise e, w)
  end.
Proof.
  intros Hname. unfold save_data.
  destruct (IMPLEMENTATIONS format) as [[write peek] fm] eqn:EI.
  cbv beta iota zeta. cbn [fst snd]. rewrite Hname.
  by rewrite bool_decide_eq_true_2.
Qed.

Lemma written_file_w name text (w : world FL) :
  files (write_text name text (open_for_writing name mode_w w)) = <[name := text]> (files w).
Proof.
  unfold write_text, open_for_writing. simpl. rewrite lookup_insert_eq. simpl.
  by rewrite insert_insert_eq.
Qed.

Lemma written_file_a name text (w : world FL) :
  files (write_text name text (open_for_writing name mode_a w))
  = <[name := default [] (files w !! name) ++ text]> (files w).
Proof.
  unfold write_text, open_for_writing. simpl. rewrite lookup_insert_eq. simpl.
  by rewrite insert_insert_eq.
Qed.

Lemma write_text_other name text (w : world FL) m :
  stdout (write_text name text (open_for_writing name m w)) = stdout w
  /\ stderr (write_text name text (open_for_writing name m w)) = stderr w
  /\ db (write_text name text (open_for_writing name m w)) = db w.
Proof. by destruct m. Qed.

(** ** Rows written and read back *)

Arguments str_datetime : simpl never.
Arguments csv_line : simpl never.

Lemma plain_str_datetime d : plain (str_datetime d) = true.
Proof.
  rewrite str_datetime_eq. unfold pad2, pad4, plain. simpl.
  repeat match goal with
         | |- context [plain_char (digit_char ?n)] =>
             let H := fresh in
             destruct (is_digit_props _ (is_digit_digit_char n)) as (H & _); rewrite H;
             clear H
         end.
  reflexivity.
Qed.

Lemma str_datetime_no_semi d :
  forallb (fun c => negb (chr_eqb c SEMI)) (str_datetime d) = true.
Proof.
  pose proof (plain_str_datetime d) as H. unfold plain in H.
  rewrite forallb_forall in *. intros c Hc. specialize (H c Hc).
  by apply plain_char_props in H as (-> & _).
Qed.

Lemma str_datetime_first d : exists c r, str_datetime d = c :: r /\ chr_eqb c LF = false.
Proof.
  rewrite str_datetime_eq. unfold pad2. simpl. eexists _, _. split; [done|].
  pose proof (is_digit_props _ (is_digit_digit_char (day d / 10))) as (H & _).
  by apply plain_char_props in H as (_ & _ & _ & -> & _).
Qed.

Lemma plain_row_csv_row (t : tick) :
  plain (float_repr t.1.2) = true -> plain_row (csv_row (encode t)).
Proof.
  destruct t as [[d p] v]. simpl. intros Hp. split; [|done].
  repeat constructor; [apply plain_str_datetime|done|apply plain_str_of_Z].
Qed.

Lemma tick_of_csv_row (t : tick) :
  storable t -> csv_price t ->
  tick_of_row (PList (map PStr (csv_row (encode t)))) = Ok t.
Proof.
  destruct t as [[d p] v]. intros [[Hv _] Hw] [_ Hp]. unfold tick_time in *. simpl in *.
  unfold tick_of_row, unpack3. simpl.
  rewrite (parse_str_datetime d Hv Hw). simpl. rewrite Hp. simpl.
  by rewrite int_of_str_of_Z.
Qed.

Lemma tick_of_json_row (t : tick) :
  storable t -> tick_of_row (json_row (encode t)) = Ok t.
Proof.
  destruct t as [[d p] v]. intros [[Hv _] Hw]. unfold tick_time in *. simpl in *.
  unfold tick_of_row, unpack3. simpl. by rewrite (parse_str_datetime d Hv Hw).
Qed.

Lemma rows_plain (l : list tick) :
  Forall plain_price l -> Forall plain_row (map csv_row (map encode l)).
Proof.
  induction 1 as [|t l Hp HF IH]; [constructor|]. simpl.
  constructor; [by apply plain_row_csv_row|done].
Qed.

Lemma csv_price_plain (l : list tick) : Forall csv_price l -> Forall plain_price l.
Proof. intros H. eapply Forall_impl; [exact H|]. by intros t [? _]. Qed.

(** Reading a csv text the writer produced *)
Lemma _read_csv_written (l : list tick) :
  Forall storable l -> Forall csv_price l ->
  _read_csv (csv_writerows (map csv_row (map encode l))) = Ok (mk_MarketData PNone PNone l).
Proof.
  intros Hs Hp. unfold _read_csv.
  rewrite universal_newlines_rows, lines_of_rows, reader_rows_written
    by by apply rows_plain, csv_price_plain.
  unfold from_rows. simpl.
  assert (map_result tick_of_row
            (map (fun row => PList (map PStr row)) (map csv_row (map encode l))) = Ok l) as ->.
  { apply map_result_Forall2. rewrite !map_map.
    induction l as [|t l IH]; [constructor|]. inversion Hs; inversion Hp; subst.
    simpl. constructor; [by apply tick_of_csv_row|by apply IH]. }
  done.
Qed.

Lemma getitem_document data ts :
  getitem (document data ts) "symbol" = Ok (symbol data)
  /\ getitem (document data ts) "isin" = Ok (isin data)
  /\ getitem (document data ts) "ticks" = Ok (PList ts).
Proof. done. Qed.

(** Reading a json text the writer produced *)
Lemma _read_json_written data (l : list tick) :
  Forall storable l ->
  reads_back (document data (map json_row (map encode l))) ->
  _read_json (json_dumps (document data (map json_row (map encode l))))
  = Ok (mk_MarketData (symbol data) (isin data) l).
Proof.
  intros Hs Hrb. unfold _read_json. rewrite Hrb. simpl.
  unfold from_rows. simpl.
  assert (map_result tick_of_row (map json_row (map encode l)) = Ok l) as ->; [|done].
  apply map_result_Forall2. rewrite !map_map. clear Hrb.
  induction Hs as [|t l Ht Hs IH]; [constructor|].
  simpl. constructor; [by apply tick_of_json_row|by apply IH].
Qed.

(** ** Peeking at a file the program wrote *)

Lemma csv_writerows_app r1 r2 :
  csv_writerows (r1 ++ r2) = csv_writerows r1 ++ csv_writerows r2.
Proof. unfold csv_writerows. apply flat_map_app. Qed.

Lemma flat_map_csv_line_ends rows :
  rows <> [] -> exists x, flat_map csv_line rows = x ++ [LF].
Proof.
  induction rows as [|r rows IH] using rev_ind; [done|]. intros _.
  rewrite flat_map_app. simpl. rewrite app_nil_r. unfold csv_line.
  exists (flat_map (fun row => join [SEMI] row ++ [LF]) rows ++ join [SEMI] r).
  by rewrite <- app_assoc.
Qed.

Lemma csv_writerows_cons r rs :
  csv_writerows (r :: rs) = csv_writerow r ++ csv_writerows rs.
Proof. reflexivity. Qed.

Lemma written_rows_first (l : list tick) :
  Forall plain_price l ->
  forall b', csv_writerows (map csv_row (map encode l)) <> LF :: b'.
Proof.
  intros HF b' H. destruct HF as [|t l Ht HF]; [done|].
  change (map csv_row (map encode (t :: l)))
    with (csv_row (encode t) :: map csv_row (map encode l)) in H.
  rewrite csv_writerows_cons in H.
  rewrite (csv_writerow_plain _ (plain_row_csv_row t Ht)) in H.
  destruct t as [[d p] v].
  change (csv_row (encode (d, p, v))) with [str_datetime d; float_repr p; str_of_Z v] in H.
  change (join [SEMI] [str_datetime d; float_repr p; str_of_Z v])
    with (str_datetime d ++ [SEMI] ++ float_repr p ++ [SEMI] ++ str_of_Z v) in H.
  destruct (str_datetime_first d) as (c & r & Hd & Hc). rewrite Hd in H. cbn [app] in H.
  injection H as -> _. by rewrite chr_eqb_refl in Hc.
Qed.

Lemma _peek_csv_appended old (l : list tick) t :
  ends_line old -> Forall plain_price (l ++ [t]) -> storable t ->
  _peek_csv (old ++ csv_writerows (map csv_row (map encode (l ++ [t]))))
  = Ok (tick_time t, PList []).
Proof.
  intros Hold Hp [[Hv _] Hw]. unfold _peek_csv.
  rewrite universal_newlines_app by by apply written_rows_first.
  rewrite universal_newlines_rows by by apply rows_plain.
  rewrite !map_app, flat_map_app.
  change (flat_map csv_line (map csv_row (map encode [t])))
    with (csv_line (csv_row (encode t)) ++ []).
  rewrite app_nil_r, app_assoc.
  apply Forall_app in Hp as [Hpl Hpt]. inversion Hpt as [|? ? Hpt' _]; subst.
  pose proof (plain_row_csv_row t Hpt') as [Hrow _].
  rewrite last_lines_of_app; [| |by apply no_newline_join].
  2:{ destruct (map csv_row (map encode l)) as [|r rs] eqn:E.
      - simpl. rewrite app_nil_r. destruct Hold as [->|[s' ->]]; [by left|right; by eexists].
      - right. destruct (flat_map_csv_line_ends (r :: rs)) as [x ->]; [done|].
        exists (universal_newlines old ++ x). by rewrite app_assoc. }
  destruct t as [[d p] v]. unfold csv_line.
  change (join [SEMI] (csv_row (encode (d, p, v))))
    with (str_datetime d ++ [SEMI] ++ float_repr p ++ [SEMI] ++ str_of_Z v).
  rewrite <- !app_assoc. cbn [app].
  rewrite split_first by apply str_datetime_no_semi.
  unfold tick_time in *. simpl in *. by rewrite (parse_str_datetime d Hv Hw).
Qed.

Lemma _peek_csv_empty : _peek_csv [] = Ok (EPOCH, PList []).
Proof. reflexivity. Qed.

Lemma reraise_all {A : Type} (r : result A) e :
  reraise (caught_by [KeyError; IndexError; ValueError; TypeError]) BrokenFile r = Raise e ->
  (forall x, r = Raise x -> caught_by [KeyError; IndexError; ValueError; TypeError] x = true) ->
  e = BrokenFile.
Proof.
  destruct r as [a|x]; simpl; [done|]. intros H Hx. rewrite (Hx x eq_refl) in H. congruence.
Qed.

Lemma _peek_json_Ok content W old :
  _peek_json content = Ok (W, old) <->
  exists od, json_loads (universal_newlines content) = Some od
             /\ getitem od "ticks" = Ok old /\ watermark_of old = Ok W.
Proof.
  unfold _peek_json, watermark_of.
  destruct (json_loads (universal_newlines content)) as [od|]; simpl.
  2:{ split; [done|]. by intros (? & ? & _). }
  destruct (getitem od _) as [t|e] eqn:Et; simpl.
  2:{ split; [by destruct e|]. intros (od' & [= <-] & Hg & _). congruence. }
  destruct (if py_truth t then _ else _) as [d|e] eqn:Ed; simpl.
  - split.
    + intros [= <- <-]. exists od. by rewrite Ed.
    + intros (od' & [= <-] & Hg & Hw). rewrite Et in Hg. injection Hg as <-.
      rewrite Ed in Hw. by injection Hw as <-.
  - split; [by destruct e|].
    intros (od' & [= <-] & Hg & Hw). rewrite Et in Hg. injection Hg as <-.
    by rewrite Ed in Hw.
Qed.

Lemma _peek_json_document data ts W :
  reads_back (document data ts) -> watermark_of (PList ts) = Ok W ->
  _peek_json (json_dumps (document data ts)) = Ok (W, PList ts).
Proof.
  intros Hrb HW. apply _peek_json_Ok. exists (document data ts). by split.
Qed.

Lemma last_map {A B : Type} (f : A -> B) l : last (map f l) = f <$> last l.
Proof.
  induction l as [|a [|b l] IH]; [done|done|]. by rewrite last_cons_cons, <- IH.
Qed.

Lemma watermark_of_items old items W :
  list_of (py_iter old) = Ok items -> watermark_of old = Ok W ->
  watermark_of (PList items) = Ok W.
Proof.
  unfold watermark_of. destruct old as [| | | |s|l|d]; simpl; try done.
  - intros [= <-]. destruct s as [|c s]; [done|].
    simpl py_truth. cbv iota. unfold getitem_last. rewrite last_map. by intros H.
  - by intros [= <-].
  - intros [= <-]. by destruct d.
Qed.

Lemma watermark_of_written items (l : list tick) t :
  storable t ->
  watermark_of (PList (items ++ map json_row (map encode (l ++ [t])))) = Ok (tick_time t).
Proof.
  intros [[Hv _] Hw]. unfold watermark_of. rewrite !map_app. simpl.
  rewrite !app_assoc. set (pre := items ++ _).
  rewrite last_snoc, length_app. simpl. rewrite bool_decide_eq_false_2 by lia. simpl.
  destruct t as [[d p] v]. unfold tick_time in *. simpl in *.
  by rewrite (parse_str_datetime d Hv Hw).
Qed.

(** ** Merging into a file *)

Lemma write_open_w name text (w : world FL) :
  write_text name text (open_for_writing name mode_w w)
  = set_files (<[name := text]> (files w)) w.
Proof.
  unfold write_text, open_for_writing, set_files. simpl.
  rewrite lookup_insert_eq. simpl. by rewrite insert_insert_eq.
Qed.

Lemma write_open_a name text (w : world FL) :
  write_text name text (open_for_writing name mode_a w)
  = set_files (<[name := default [] (files w !! name) ++ text]> (files w)) w.
Proof.
  unfold write_text, open_for_writing, set_files. simpl.
  rewrite lookup_insert_eq. simpl. by rewrite insert_insert_eq.
Qed.

Lemma start_append format name (w : world FL) content :
  files w !! name = Some content ->
  (IMPLEMENTATIONS format).1.2 content = start format append name w
  \/ exists e, (IMPLEMENTATIONS format).1.2 content = Raise e.
Proof.
  intros Hf. unfold start, peek_phase. rewrite Hf.
  destruct ((IMPLEMENTATIONS format).1.2 content) as [p|e]; [by left|right; by eexists].
Qed.

Lemma start_append_Ok format name (w : world FL) content p :
  files w !! name = Some content ->
  (IMPLEMENTATIONS format).1.2 content = Ok p ->
  start format append name w = Ok p.
Proof. intros Hf Hp. unfold start, peek_phase. by rewrite Hf, Hp. Qed.

Lemma start_absent format mode name (w : world FL) :
  files w !! name = None -> start format mode name w = Ok (EPOCH, PList []).
Proof. intros Hf. unfold start, peek_phase. by rewrite Hf. Qed.

Lemma start_overwrite format name (w : world FL) :
  start format overwrite name w = Ok (EPOCH, PList []).
Proof. unfold start, peek_phase. by destruct (files w !! name). Qed.

(** Writing a csv file from a given start: the rows after the watermark
    are put after what the file holds. *)
Lemma save_csv_from data mode filename (w : world FL) W old :
  let name := target data csv filename in
  name <> ("-" : str) ->
  start csv mode name w = Ok (W, old) ->
  save_data data (Some csv) mode filename w
  = (Ok tt,
     set_files (<[name := default [] (files w !! name)
                          ++ csv_writerows (map csv_row (written_rows data W))]> (files w)) w).
Proof.
  intros name Hname Hstart. rewrite (save_data_file _ _ _ _ _ W old) by done.
  cbv zeta. cbn [IMPLEMENTATIONS fst snd]. rewrite _write_csv_eq. by rewrite write_open_a.
Qed.

(** Writing a json file from a given start: the file becomes the document
    of the old ticks followed by the rows after the watermark. *)
Lemma save_json_from data mode filename (w : world FL) W old items :
  let name := target data json filename in
  name <> ("-" : str) ->
  start json mode name w = Ok (W, old) ->
  list_of (py_iter old) = Ok items ->
  save_data data (Some json) mode filename w
  = (Ok tt,
     set_files (<[name := json_dumps (document data
                                        (items ++ map json_row (written_rows data W)))]>
                  (files w)) w).
Proof.
  intros name Hname Hstart Hit. rewrite (save_data_file _ _ _ _ _ W old) by done.
  cbv zeta. cbn [IMPLEMENTATIONS fst snd]. rewrite (_write_json_eq _ _ _ items) by done.
  by rewrite write_open_w.
Qed.

Lemma set_files_id (w : world FL) : set_files (files w) w = w.
Proof. by destruct w. Qed.

(** ** Ascending series *)

#[local] Instance tick_le_trans : Transitive tick_le.
Proof. intros a b c. apply dt_leb_trans. Qed.

Lemma StronglySorted_bfilter {A : Type} (R : relation A) (f : A -> bool) l :
  StronglySorted R l -> StronglySorted R (List.filter f l).
Proof.
  induction 1 as [|x l HS IH HF]; simpl; [constructor|].
  destruct (f x); [|done]. constructor; [done|].
  rewrite Forall_forall in *. intros y Hy. apply HF. by apply elem_of_bfilter in Hy as [? _].
Qed.

Lemma newer_than_last W (self : MarketData FL) l t :
  ascending (data self) -> newer_than W self = l ++ [t] ->
  newer_than (tick_time t) self = [].
Proof.
  intros Hasc Hnew. apply newer_than_nil_iff. intros x Hx.
  assert (StronglySorted tick_le (l ++ [t])) as HS.
  { rewrite <- Hnew. apply StronglySorted_bfilter.
    apply Sorted_StronglySorted; [|done]. intros a b c. apply dt_leb_trans. }
  assert (dt_gtb (tick_time t) W = true) as HtW.
  { assert (t ∈ newer_than W self) as Ht by (rewrite Hnew; apply elem_of_app; right; by left).
    by apply elem_of_bfilter in Ht as [_ Ht]. }
  destruct (dt_gtb (tick_time x) W) eqn:E.
  - assert (x ∈ l ++ [t]) as Hin by (rewrite <- Hnew; by apply elem_of_bfilter).
    apply elem_of_app in Hin as [Hin|Hin].
    + apply (StronglySorted_app_1_elem_of tick_le l [t] x t HS Hin). by left.
    + apply list_elem_of_singleton in Hin as ->. apply dt_leb_refl.
  - rewrite dt_gtb_leb in E. apply negb_false_iff in E.
    rewrite dt_gtb_leb in HtW. apply negb_true_iff in HtW.
    destruct (dt_leb_total (tick_time x) (tick_time t)) as [H|H]; [done|].
    by rewrite (dt_leb_trans _ _ _ H E) in HtW.
Qed.

Lemma set_files_same name v (w : world FL) :
  files w !! name = Some v -> set_files (<[name := v]> (files w)) w = w.
Proof. intros H. rewrite insert_id by done. apply set_files_id. Qed.

Lemma start_json_watermark mode name (w : world FL) W old :
  start json mode name w = Ok (W, old) -> watermark_of old = Ok W.
Proof.
  unfold start, peek_phase. destruct (files w !! name) as [content|].
  - destruct mode; [done| |by intros [= <- <-]].
    cbn [IMPLEMENTATIONS fst snd].
    destruct (_peek_json content) as [p|e] eqn:E.
    + intros [= ->]. by apply _peek_json_Ok in E as (od & _ & _ & H).
    + by destruct (is_exn_BrokenFile e).
  - by intros [= <- <-].
Qed.

Lemma start_csv_existing mode name (w : world FL) W old content :
  files w !! name = Some content ->
  start csv mode name w = Ok (W, old) -> mode = append ->
  _peek_csv content = Ok (W, old).
Proof.
  intros Hf Hs ->. unfold start, peek_phase in Hs. rewrite Hf in Hs.
  cbn [IMPLEMENTATIONS fst snd] in Hs.
  destruct (_peek_csv content) as [p|e]; [by injection Hs as ->|].
  by destruct (is_exn_BrokenFile e).
Qed.

(** Merging the same series a second time into a csv file *)
Lemma csv_idempotent self filename (w : world FL) :
  let name := target self csv filename in
  name <> ("-" : str) ->
  (save_data self (Some csv) append filename w).1 = Ok tt ->
  ascending (data self) -> Forall storable (data self) -> Forall plain_price (data self) ->
  ends_line (default [] (files w !! name)) ->
  let w1 := (save_data self (Some csv) append filename w).2 in
  save_data self (Some csv) append filename w1 = (Ok tt, w1).
Proof.
  intros name Hname Hok Hasc Hst Hpl Hend.
  destruct (start csv append name w) as [[W old]|e] eqn:Es.
  2:{ rewrite (save_data_aborted _ _ _ _ _ e) in Hok by done. done. }
  rewrite (save_csv_from self append filename w W old) by done. fold name. cbv zeta. simpl snd.
  set (c0 := default [] (files w !! name)) in *.
  set (text := csv_writerows (map csv_row (written_rows self W))).
  set (w1 := set_files (<[name := c0 ++ text]> (files w)) w).
  assert (files w1 !! name = Some (c0 ++ text)) as Hf1 by apply lookup_insert_eq.
  assert (exists W' old', start csv append name w1 = Ok (W', old')
                         /\ newer_than W' self = []) as (W' & old' & Hs' & Hnew').
  { destruct (newer_than W self) as [|t0 l0] eqn:En using rev_ind.
    - assert (text = []) as Ht by (unfold text, written_rows; by rewrite En).
      exists W, old. split; [|done]. apply (start_append_Ok csv name w1 _ _ Hf1).
      rewrite Ht, app_nil_r. cbn [IMPLEMENTATIONS fst snd]. unfold c0.
      destruct (files w !! name) as [content|] eqn:Ef.
      + by apply (start_csv_existing append name w).
      + rewrite start_absent in Es by done. by injection Es as <- <-.
    - clear IHl0. exists (tick_time t0), (PList []). split.
      + apply (start_append_Ok csv name w1 _ _ Hf1). cbn [IMPLEMENTATIONS fst snd].
        unfold text, written_rows. rewrite En.
        assert (Forall plain_price (l0 ++ [t0]) /\ storable t0) as [Hp0 Hs0].
        { assert (forall x, x ∈ l0 ++ [t0] -> x ∈ data self) as Hsub.
          { intros x Hx. rewrite <- En in Hx. by apply elem_of_bfilter in Hx as [? _]. }
          split.
          - apply Forall_forall. intros x Hx. rewrite Forall_forall in Hpl. by apply Hpl, Hsub.
          - rewrite Forall_forall in Hst. apply Hst, Hsub, elem_of_app. right. by left. }
        by apply _peek_csv_appended.
      + by apply (newer_than_last W self l0 t0). }
  rewrite (save_csv_from self append filename w1 W' old') by done. fold name.
  unfold written_rows. rewrite Hnew'.
  change (csv_writerows (map csv_row (map encode []))) with ([] : str).
  rewrite Hf1. simpl default. rewrite app_nil_r. by rewrite set_files_same.
Qed.

(** Merging the same series a second time into a json file *)
Lemma json_idempotent self filename (w : world FL) :
  let name := target self json filename in
  name <> ("-" : str) ->
  (save_data self (Some json) append filename w).1 = Ok tt ->
  ascending (data self) -> Forall storable (data self) ->
  (forall W old items,
     start json append name w = Ok (W, old) -> list_of (py_iter old) = Ok items ->
     reads_back (document self (items ++ map json_row (written_rows self W)))) ->
  let w1 := (save_data self (Some json) append filename w).2 in
  save_data self (Some json) append filename w1 = (Ok tt, w1).
Proof.
  intros name Hname Hok Hasc Hst Hrb.
  destruct (start json append name w) as [[W old]|e] eqn:Es.
  2:{ rewrite (save_data_aborted _ _ _ _ _ e) in Hok by done. done. }
  destruct (list_of (py_iter old)) as [items|e] eqn:Ei.
  2:{ rewrite (save_data_file _ _ _ _ _ W old) in Hok by done. cbv zeta in Hok.
      cbn [IMPLEMENTATIONS fst snd] in Hok. unfold _write_json in Hok. by rewrite Ei in Hok. }
  specialize (Hrb W old items eq_refl Ei).
  rewrite (save_json_from self append filename w W old items) by done. fold name.
  cbv zeta. simpl snd.
  set (ticks1 := items ++ map json_row (written_rows self W)) in *.
  set (w1 := set_files (<[name := json_dumps (document self ticks1)]> (files w)) w).
  assert (files w1 !! name = Some (json_dumps (document self ticks1))) as Hf1
    by apply lookup_insert_eq.
  assert (exists W', watermark_of (PList ticks1) = Ok W' /\ newer_than W' self = [])
    as (W' & HW' & Hnew').
  { destruct (newer_than W self) as [|t0 l0] eqn:En using rev_ind.
    - exists W. split; [|done]. unfold ticks1, written_rows. rewrite En. simpl.
      rewrite app_nil_r. apply (watermark_of_items old); [done|].
      by apply (start_json_watermark append name w).
    - clear IHl0. exists (tick_time t0). split.
      + unfold ticks1, written_rows. rewrite En. apply watermark_of_written.
        rewrite Forall_forall in Hst. apply Hst.
        assert (t0 ∈ newer_than W self) as Hin by (rewrite En; apply elem_of_app; right; by left).
        by apply elem_of_bfilter in Hin as [? _].
      + by apply (newer_than_last W self l0 t0). }
  assert (start json append name w1 = Ok (W', PList ticks1)) as Hs'.
  { apply (start_append_Ok json name w1 _ _ Hf1). cbn [IMPLEMENTATIONS fst snd].
    by apply _peek_json_document. }
  rewrite (save_json_from self append filename w1 W' (PList ticks1) ticks1) by done.
  fold name. unfold written_rows. rewrite Hnew'. simpl map. rewrite app_nil_r.
  by rewrite set_files_same.
Qed.

(** ** Records at or before [EPOCH] *)

Lemma dt_gtb_leb_trans a b c : dt_gtb a b = true -> dt_leb c b = true -> dt_gtb a c = true.
Proof.
  rewrite !dt_gtb_leb, !negb_true_iff. intros H1 H2.
  destruct (dt_leb a c) eqn:E; [|done]. by rewrite (dt_leb_trans _ _ _ E H2) in H1.
Qed.

Lemma newer_than_after_epoch W (self : MarketData FL) :
  dt_leb EPOCH W = true -> newer_than W (after_epoch self) = newer_than W self.
Proof.
  intros HW. unfold after_epoch, newer_than at 1. simpl. unfold newer_than.
  induction (data self) as [|t l IH]; [done|]. simpl.
  destruct (dt_gtb (tick_time t) EPOCH) eqn:E1; simpl; rewrite IH; [done|].
  destruct (dt_gtb (tick_time t) W) eqn:E2; [|done].
  by rewrite (dt_gtb_leb_trans _ _ _ E2 HW) in E1.
Qed.

Lemma write_after_epoch format (self : MarketData FL) W old :
  dt_leb EPOCH W = true ->
  (IMPLEMENTATIONS format).1.1 (after_epoch self) W old
  = (IMPLEMENTATIONS format).1.1 self W old.
Proof.
  intros HW. destruct format; cbn [IMPLEMENTATIONS fst snd].
  - rewrite !_write_csv_eq. unfold written_rows. by rewrite newer_than_after_epoch.
  - unfold _write_json. rewrite !encoded_rows_newer. by rewrite newer_than_after_epoch.
Qed.

(** A write that starts at [EPOCH] or later is the write of the series
    without its records at or before [EPOCH]. *)
Lemma save_data_after_epoch (self : MarketData FL) format mode filename (w : world FL) :
  let name := target self format filename in
  (name <> ("-" : str) ->
   forall W old, start format mode name w = Ok (W, old) -> dt_leb EPOCH W = true) ->
  save_data self (Some format) mode filename w
  = save_data (after_epoch self) (Some format) mode filename w.
Proof.
  intros name HW.
  assert (target (after_epoch self) format filename = name) as Ht by done.
  destruct (decide (name = ("-" : str))) as [Hn|Hn].
  - rewrite !save_data_stdout by done. by rewrite write_after_epoch.
  - rewrite !save_data_phases by (by rewrite ?Ht). cbv zeta. rewrite Ht. fold name.
    specialize (HW Hn). unfold start in HW.
    destruct (peek_phase format mode name w) as [[[W old]|e] w']; [|done].
    by rewrite (write_after_epoch format self W old (HW W old eq_refl)).
Qed.

Lemma start_not_append format mode name (w : world FL) W old :
  mode <> append \/ files w !! name = None ->
  start format mode name w = Ok (W, old) -> W = EPOCH.
Proof.
  unfold start, peek_phase. intros H. destruct (files w !! name) as [c|].
  - destruct mode; try done; [|by intros [= <- _]]. by destruct H.
  - by intros [= <- _].
Qed.

Lemma newer_than_all W (self : MarketData FL) :
  Forall (fun t => dt_gtb (tick_time t) W = true) (data self) ->
  newer_than W self = data self.
Proof.
  unfold newer_than. induction 1 as [|t l Ht HF IH]; [done|]. simpl. by rewrite Ht, IH.
Qed.

(** ** Writing to a fresh destination and reading it back *)

Lemma fresh_csv_roundtrip (self : MarketData FL) mode filename (w : world FL) :
  let name := target self csv filename in
  name <> ("-" : str) -> files w !! name = None ->
  Forall storable (data self) -> Forall csv_price (data self) ->
  Forall (fun t => dt_gtb (tick_time t) EPOCH = true) (data self) ->
  exists text,
    save_data self (Some csv) mode filename w
    = (Ok tt, set_files (<[name := text]> (files w)) w)
    /\ _read_csv text = Ok (mk_MarketData PNone PNone (data self)).
Proof.
  intros name Hname Hf Hs Hp He. unfold name in *.
  exists (csv_writerows (map csv_row (map encode (data self)))). split.
  - rewrite (save_csv_from self mode filename w EPOCH (PList [])); [|done|by apply start_absent].
    rewrite Hf. unfold written_rows. by rewrite newer_than_all.
  - by apply _read_csv_written.
Qed.

Lemma fresh_json_roundtrip (self : MarketData FL) mode filename (w : world FL) :
  let name := target self json filename in
  name <> ("-" : str) -> files w !! name = None ->
  Forall storable (data self) ->
  reads_back (document self (map json_row (map encode (data self)))) ->
  Forall (fun t => dt_gtb (tick_time t) EPOCH = true) (data self) ->
  exists text,
    save_data self (Some json) mode filename w
    = (Ok tt, set_files (<[name := text]> (files w)) w)
    /\ _read_json text = Ok self.
Proof.
  intros name Hname Hf Hs Hrb He. unfold name in *.
  exists (json_dumps (document self (map json_row (map encode (data self))))). split.
  - rewrite (save_json_from self mode filename w EPOCH (PList []) []);
      [|done|by apply start_absent|done].
    unfold written_rows. by rewrite newer_than_all.
  - rewrite _read_json_written by done. by destruct self.
Qed.

(** ** Overwrite mode *)

Lemma overwrite_json (self : MarketData FL) filename (w : world FL) :
  let name := target self json filename in
  name <> ("-" : str) ->
  save_data self (Some json) overwrite filename w
  = (Ok tt,
     set_files (<[name := json_dumps (document self (map json_row (written_rows self EPOCH)))]>
                  (files w)) w).
Proof.
  intros name Hname.
  by rewrite (save_json_from self overwrite filename w EPOCH (PList []) []);
    [|done|apply start_overwrite|done].
Qed.

Lemma overwrite_csv (self : MarketData FL) filename (w : world FL) content :
  let name := target self csv filename in
  name <> ("-" : str) -> files w !! name = Some content ->
  save_data self (Some csv) overwrite filename w
  = (Ok tt,
     set_files (<[name := content ++ csv_writerows (map csv_row (written_rows self EPOCH))]>
                  (files w)) w).
Proof.
  intros name Hname Hf. unfold name in *.
  rewrite (save_csv_from self overwrite filename w EPOCH (PList []));
    [|done|apply start_overwrite]. by rewrite Hf.
Qed.

(** ** The raw export parser *)

Lemma index_Ok {A : Type} (l : list A) i x : index l i = Ok x <-> l !! i = Some x.
Proof. unfold index. destruct (l !! i); simpl; split; congruence. Qed.

Lemma index_Raise {A : Type} (l : list A) i e :
  index l i = Raise e <-> l !! i = None /\ e = IndexError.
Proof.
  unfold index. destruct (l !! i); simpl; split; try done.
  - by intros [? _].
  - by intros [= <-].
  - by intros [_ ->].
Qed.

Lemma index0_Ok {A : Type} (l : list A) x : index l 0 = Ok x <-> exists r, l = x :: r.
Proof.
  rewrite index_Ok. destruct l as [|y r]; simpl; split.
  - done.
  - by intros [? ?].
  - intros [= ->]. by eexists.
  - by intros [? [= -> _]].
Qed.

Lemma parse_datetime_Raise s e : parse_datetime s = Raise e -> e = ValueError.
Proof. unfold parse_datetime. destruct (strptime _ _); simpl; congruence. Qed.

Lemma tick_of_raw_row_Ok date_str row (t : tick) :
  tick_of_raw_row date_str row = Ok t <->
  exists tm price volume rest,
    row = tm :: price :: volume :: rest
    /\ parse_datetime (date_str ++ " " ++ strip tm) = Ok t.1.1
    /\ float_of_str price = Some t.1.2 /\ int_of_str volume = Some t.2.
Proof.
  destruct t as [[d p] v]. simpl. unfold tick_of_raw_row.
  destruct row as [|tm [|price [|volume rest]]];
    try (split; [done|by intros (? & ? & ? & ? & ? & _)]).
  destruct (parse_datetime _) as [d'|e] eqn:Ed; simpl in *.
  2:{ split; [done|]. intros (? & ? & ? & ? & [= <- <- <- <-] & H & _). simpl in *; congruence. }
  destruct (float_of_str price) as [p'|] eqn:Ep; simpl.
  2:{ split; [done|]. intros (? & ? & ? & ? & [= <- <- <- <-] & _ & H & _). simpl in *; congruence. }
  destruct (int_of_str volume) as [v'|] eqn:Ev; simpl.
  2:{ split; [done|]. intros (? & ? & ? & ? & [= <- <- <- <-] & _ & _ & H). simpl in *; congruence. }
  split.
  - intros [= <- <- <-]. exists tm, price, volume, rest. by rewrite Ed.
  - intros (? & ? & ? & ? & [= <- <- <- <-] & H1 & H2 & H3). simpl in *.
    rewrite Ed in H1. rewrite Ep in H2. rewrite Ev in H3. by simplify_eq.
Qed.

Lemma tick_of_raw_row_Raise date_str row e :
  tick_of_raw_row date_str row = Raise e -> e = ValueError /\ bad_raw_row date_str row.
Proof.
  unfold tick_of_raw_row, bad_raw_row.
  destruct row as [|tm [|price [|volume rest]]];
    try (intros [= <-]; split; [done|left; simpl; lia]).
  destruct (parse_datetime _) as [d'|e'] eqn:Ed; simpl in *.
  2:{ intros [= <-]. pose proof (parse_datetime_Raise _ _ Ed) as ->.
      split; [done|]. right. exists tm, price, volume, rest. by auto. }
  destruct (float_of_str price) as [p'|] eqn:Ep; simpl.
  2:{ intros [= <-]. split; [done|]. right. exists tm, price, volume, rest. by auto. }
  destruct (int_of_str volume) as [v'|] eqn:Ev; simpl; [done|].
  intros [= <-]. split; [done|]. right. exists tm, price, volume, rest. by auto.
Qed.

Lemma data_rows_short parsed : (length parsed <= 4)%nat -> data_rows parsed = [].
Proof.
  intros H. unfold data_rows. apply drop_ge.
  destruct parsed as [|a [|b [|c [|d [|e r]]]]]; simpl in *; lia.
Qed.

Lemma _parse_raw_Ok raw sym isn ticks :
  _parse_raw raw = Ok (sym, isn, ticks) <->
  exists parsed h0 r0 h1 r1 rows,
    _parse_csv raw = Ok parsed
    /\ parsed !! 0%nat = Some (h0 :: r0) /\ re_find_header h0 = Some (sym, isn)
    /\ parsed !! 1%nat = Some (h1 :: r1)
    /\ map_result (tick_of_raw_row (strip h1)) (data_rows parsed) = Ok rows
    /\ ticks = rev rows.
Proof.
  unfold _parse_raw, data_rows.
  destruct (_parse_csv raw) as [parsed|e]; simpl.
  2:{ split; [done|]. by intros (? & ? & ? & ? & ? & ? & ? & _). }
  destruct (index parsed 0) as [row0|e] eqn:E0; simpl.
  2:{ split; [done|]. intros (? & ? & ? & ? & ? & ? & [= <-] & H & _).
      apply index_Ok in H. congruence. }
  apply index_Ok in E0.
  destruct (index row0 0) as [h0|e] eqn:Eh0; simpl.
  2:{ split; [done|]. intros (? & h & r & ? & ? & ? & [= <-] & H & _).
      rewrite E0 in H. injection H as ->. by rewrite (proj2 (index0_Ok _ _)) in Eh0 by by eexists. }
  apply index0_Ok in Eh0 as [r0 ->].
  destruct (re_find_header h0) as [[sym' isn']|] eqn:Eh; simpl.
  2:{ split; [done|]. intros (? & h & r & ? & ? & ? & [= <-] & H & H' & _).
      rewrite E0 in H. injection H as <- <-. congruence. }
  destruct (index parsed 1) as [row1|e] eqn:E1; simpl.
  2:{ split; [done|]. intros (? & ? & ? & ? & ? & ? & [= <-] & _ & _ & H & _).
      apply index_Ok in H. congruence. }
  apply index_Ok in E1.
  destruct (index row1 0) as [h1|e] eqn:Eh1; simpl.
  2:{ split; [done|]. intros (? & ? & ? & h & r & ? & [= <-] & _ & _ & H & _).
      rewrite E1 in H. injection H as ->. by rewrite (proj2 (index0_Ok _ _)) in Eh1 by by eexists. }
  apply index0_Ok in Eh1 as [r1 ->].
  destruct (map_result _ _) as [rows|e] eqn:Em; simpl.
  - split.
    + intros [= <- <- <-]. by exists parsed, h0, r0, h1, r1, rows.
    + intros (? & ? & ? & ? & ? & ? & [= <-] & H0 & Hh & H1 & Hm & ->).
      rewrite E0 in H0. injection H0 as <- <-. rewrite E1 in H1. injection H1 as <- <-.
      congruence.
  - split; [done|].
    intros (? & ? & ? & ? & ? & ? & [= <-] & H0 & Hh & H1 & Hm & ->).
    rewrite E1 in H1. injection H1 as <- <-. congruence.
Qed.

Lemma _parse_raw_Raise raw e : _parse_raw raw = Raise e -> raw_failure raw e.
Proof.
  unfold _parse_raw. fold (data_rows).
  destruct (_parse_csv raw) as [parsed|e0] eqn:Ec; simpl.
  2:{ intros [= <-]. by apply fail_csv. }
  destruct (index parsed 0) as [row0|e0] eqn:E0; simpl.
  2:{ intros [= <-]. apply index_Raise in E0 as [E0 ->]. apply (fail_no_header _ parsed); [done|].
      intros h r H. congruence. }
  apply index_Ok in E0.
  destruct (index row0 0) as [h0|e0] eqn:Eh0; simpl.
  2:{ intros [= <-]. apply index_Raise in Eh0 as [Eh0 ->].
      apply (fail_no_header _ parsed); [done|]. intros h r H. rewrite E0 in H.
      injection H as ->. done. }
  apply index0_Ok in Eh0 as [r0 ->].
  destruct (re_find_header h0) as [[sym' isn']|] eqn:Eh; simpl.
  2:{ intros [= <-]. by apply (fail_pattern _ parsed h0 r0). }
  destruct (index parsed 1) as [row1|e0] eqn:E1; simpl.
  2:{ intros [= <-]. apply index_Raise in E1 as [E1 ->].
      apply (fail_no_date _ parsed h0 r0); [done|done|by rewrite Eh|].
      intros h r H. congruence. }
  apply index_Ok in E1.
  destruct (index row1 0) as [h1|e0] eqn:Eh1; simpl.
  2:{ intros [= <-]. apply index_Raise in Eh1 as [Eh1 ->].
      apply (fail_no_date _ parsed h0 r0); [done|done|by rewrite Eh|].
      intros h r H. rewrite E1 in H. injection H as ->. done. }
  apply index0_Ok in Eh1 as [r1 ->].
  destruct (map_result _ _) as [rows|e0] eqn:Em; simpl; [done|].
  intros [= <-]. apply map_result_Raise in Em as (row & Hin & Hrow).
  apply tick_of_raw_row_Raise in Hrow as [-> Hbad].
  apply (fail_row _ parsed h0 r0 h1 r1 row); try done; by rewrite Eh.
Qed.

Lemma bad_raw_row_Raise date_str row :
  bad_raw_row date_str row -> tick_of_raw_row date_str row = Raise ValueError.
Proof.
  intros Hbad. destruct (tick_of_raw_row date_str row) as [t|e] eqn:E.
  - apply tick_of_raw_row_Ok in E as (tm & price & volume & rest & -> & Hd & Hp & Hv).
    destruct Hbad as [Hlen|(tm' & p' & v' & rest' & [= <- <- <- <-] & [Hb|[Hb|Hb]])].
    + simpl in Hlen. lia.
    + simpl in *. rewrite Hd in Hb. done.
    + rewrite Hp in Hb. done.
    + rewrite Hv in Hb. done.
  - by apply tick_of_raw_row_Raise in E as [-> _].
Qed.

Lemma map_result_bad {A B : Type} (f : A -> result B) l a e :
  a ∈ l -> f a = Raise e -> (forall x e', f x = Raise e' -> e' = e) ->
  map_result f l = Raise e.
Proof.
  intros Hin Ha Hall. destruct (map_result f l) as [bs|e'] eqn:E.
  - apply map_result_Forall2 in E. apply list_elem_of_lookup in Hin as [i Hi].
    destruct (Forall2_lookup_l _ _ _ _ _ E Hi) as (b & _ & Hb). congruence.
  - apply map_result_Raise in E as (x & _ & Hx). by rewrite (Hall x e' Hx).
Qed.

Lemma raw_failure_fails raw e : raw_failure raw e -> _parse_raw raw = Raise e.
Proof.
  unfold _parse_raw. fold data_rows.
  intros [e' Hc|parsed Hc Hf|parsed h0 r0 Hc H0 Hh|parsed h0 r0 Hc H0 [g Hh] H1
         |parsed h0 r0 h1 r1 row Hc H0 [g Hh] H1 Hin Hbad]; rewrite Hc; simpl; try done.
  - unfold index at 1. destruct (parsed !! 0%nat) as [[|h r]|] eqn:E; simpl; try done.
    by destruct (Hf h r).
  - rewrite (proj2 (index_Ok _ _ _) H0). simpl. unfold index. simpl. by rewrite Hh.
  - rewrite (proj2 (index_Ok _ _ _) H0). simpl. unfold index at 1. simpl. rewrite Hh. simpl.
    destruct g as [sym isn].
    unfold index at 1. destruct (parsed !! 1%nat) as [[|h r]|] eqn:E; simpl; try done.
    by destruct (H1 h r).
  - rewrite (proj2 (index_Ok _ _ _) H0). simpl. unfold index at 1. simpl. rewrite Hh. simpl.
    destruct g as [sym isn]. rewrite H1. simpl. fold (data_rows parsed).
    rewrite (map_result_bad (tick_of_raw_row (strip h1)) (data_rows parsed) row ValueError);
      [done|done|by apply bad_raw_row_Raise|].
    intros x e' Hx. by apply tick_of_raw_row_Raise in Hx as [-> _].
Qed.

(** ** Reading files *)

Lemma tick_of_row_csv_Ok row t :
  tick_of_row (csv_pyrow row) = Ok t <-> good_csv_row row t.
Proof.
  destruct t as [[d p] v]. unfold good_csv_row, csv_pyrow, tick_of_row, unpack3. simpl.
  destruct row as [|a [|b [|c [|x r]]]]; simpl;
    try (split; [done|by intros (? & ? & ? & ? & _)]).
  destruct (parse_datetime a) as [d'|e] eqn:Ed; simpl.
  2:{ split; [done|]. intros (? & ? & ? & [= <- <- <-] & H & _). by rewrite Ed in H. }
  destruct (float_of_str b) as [p'|] eqn:Ep; simpl.
  2:{ split; [done|]. intros (? & ? & ? & [= <- <- <-] & _ & H & _). by rewrite Ep in H. }
  destruct (int_of_str c) as [v'|] eqn:Ev; simpl.
  2:{ split; [done|]. intros (? & ? & ? & [= <- <- <-] & _ & _ & H). by rewrite Ev in H. }
  split.
  - intros [= <- <- <-]. by exists a, b, c.
  - intros (? & ? & ? & [= <- <- <-] & H1 & H2 & H3).
    rewrite Ed in H1. rewrite Ep in H2. rewrite Ev in H3. by simplify_eq.
Qed.

Lemma tick_of_row_csv_Raise row e :
  tick_of_row (csv_pyrow row) = Raise e <-> e = ValueError /\ bad_csv_row row.
Proof.
  unfold bad_csv_row, csv_pyrow, tick_of_row, unpack3. simpl.
  destruct row as [|a [|b [|c [|x r]]]]; simpl;
    try (split; [intros [= <-]; split; [done|by left]|by intros [-> _]]).
  destruct (parse_datetime a) as [d'|e'] eqn:Ed; simpl.
  2:{ pose proof (parse_datetime_Raise _ _ Ed) as ->. split; [|by intros [-> _]].
      intros [= <-]. split; [done|]. right. exists a, b, c. by auto. }
  destruct (float_of_str b) as [p'|] eqn:Ep; simpl.
  2:{ split; [|by intros [-> _]]. intros [= <-]. split; [done|]. right. exists a, b, c. by auto. }
  destruct (int_of_str c) as [v'|] eqn:Ev; simpl.
  2:{ split; [|by intros [-> _]]. intros [= <-]. split; [done|]. right. exists a, b, c. by auto. }
  split; [done|]. intros [_ [H|(? & ? & ? & [= <- <- <-] & [H|[H|H]])]]; [done|..].
  - by rewrite Ed in H.
  - by rewrite Ep in H.
  - by rewrite Ev in H.
Qed.

Lemma _read_csv_eq content :
  _read_csv content =
  match map_result tick_of_row (map csv_pyrow (csv_rows content)) with
  | Ok data => Ok (mk_MarketData PNone PNone data)
  | Raise e => Raise BrokenFile
  end.
Proof.
  unfold _read_csv, from_rows, csv_rows. cbn [yields ends_with].
  rewrite csv_reader_text_mode. fold csv_pyrow.
  destruct (map_result _ _) as [d|e] eqn:E; [done|]. simpl.
  apply map_result_Raise in E as (x & Hx & Hr). apply elem_of_map in Hx as (row & -> & _).
  by apply tick_of_row_csv_Raise in Hr as [-> _].
Qed.

Lemma _read_csv_Ok content md :
  _read_csv content = Ok md <->
  symbol md = PNone /\ isin md = PNone /\ Forall2 good_csv_row (csv_rows content) (data md).
Proof.
  rewrite _read_csv_eq.
  assert (forall l, map_result tick_of_row (map csv_pyrow (csv_rows content)) = Ok l
                    <-> Forall2 good_csv_row (csv_rows content) l) as Hm.
  { intros l. rewrite map_result_Forall2. generalize (csv_rows content). intros rows.
    revert l. induction rows as [|row rows IH]; intros l; simpl.
    - split; inversion 1; constructor.
    - split; inversion 1 as [|? ? ? ? Hr Hrs]; subst; constructor;
        try (by apply tick_of_row_csv_Ok); by apply IH. }
  destruct (map_result _ _) as [d|e] eqn:E.
  - split.
    + intros [= <-]. simpl. by rewrite <- Hm.
    + intros (Hs & Hi & HF). apply Hm in HF. destruct md. simpl in *. by simplify_eq.
  - split; [done|]. intros (_ & _ & HF). by apply Hm in HF.
Qed.

Lemma _read_csv_Raise content e :
  _read_csv content = Raise e <-> e = BrokenFile /\ Exists bad_csv_row (csv_rows content).
Proof.
  rewrite _read_csv_eq. destruct (map_result _ _) as [d|e'] eqn:E.
  - split; [done|]. intros [_ HE]. apply Exists_exists in HE as (row & Hin & Hbad).
    apply map_result_Forall2 in E.
    assert (csv_pyrow row ∈ map csv_pyrow (csv_rows content)) as Hin'.
    { apply elem_of_map. by exists row. }
    apply list_elem_of_lookup in Hin' as [i Hi].
    destruct (Forall2_lookup_l _ _ _ _ _ E Hi) as (t & _ & Ht).
    assert (tick_of_row (csv_pyrow row) = Raise ValueError) as Hr
      by by apply tick_of_row_csv_Raise.
    congruence.
  - apply map_result_Raise in E as (x & Hx & Hr). apply elem_of_map in Hx as (row & -> & Hin).
    apply tick_of_row_csv_Raise in Hr as [-> Hbad]. split.
    + intros [= <-]. split; [done|]. apply Exists_exists. by exists row.
    + by intros [-> _].
Qed.

(** The records [_read_json] returns come from the ticks of the document,
    one by one and in their order. *)
Lemma _read_json_Ok content md :
  _read_json content = Ok md ->
  exists raw ticks_v rows,
    json_loads (universal_newlines content) = Some raw
    /\ getitem raw "ticks" = Ok ticks_v /\ list_of (py_iter ticks_v) = Ok rows
    /\ Forall2 (fun row t => tick_of_row row = Ok t) rows (data md).
Proof.
  unfold _read_json. destruct (json_loads _) as [raw|]; simpl; [|done].
  destruct (getitem raw _) as [s|e]; simpl; [|by destruct e].
  destruct (getitem raw _) as [i|e]; simpl; [|by destruct e].
  destruct (getitem raw _) as [t|e] eqn:Et; simpl; [|by destruct e].
  unfold from_rows. destruct (map_result _ _) as [d|e] eqn:Em; simpl; [|by destruct e].
  destruct (ends_with (py_iter t)) as [e|] eqn:Ee; simpl; [by destruct e|].
  intros [= <-]. exists raw, t, (yields (py_iter t)). repeat split; try done.
  - unfold list_of. by rewrite Ee.
  - by apply map_result_Forall2.
Qed.

(** ** The store reader *)

Lemma Sorted_map_ticks (rows : list (tickdoc FL)) :
  Sorted time_asc rows ->
  ascending (map (fun t => (t_time t, t_price t, t_volume t)) rows).
Proof.
  induction 1 as [|x l HS IH HH]; simpl; [constructor|]. constructor; [done|].
  destruct HH as [|y l' Hxy]; simpl; constructor.
  unfold time_asc in Hxy. unfold tick_le, tick_time. simpl. by apply Is_true_true.
Qed.

Lemma load_data_from_db_sorted symbol_or_isin from_ to (w w' : world FL) md :
  load_data_from_db symbol_or_isin from_ to w = (Ok md, w') -> ascending (data md).
Proof.
  unfold load_data_from_db. destruct (find_stock _ _) as [st|]; [|done].
  intros [= <- _]. simpl. apply Sorted_map_ticks. apply Sorted_merge_sort. apply _.
Qed.

(** The raw parser returns the data rows in reverse: a newest-first
    export gives an ascending series. *)
Lemma rev_descending (rows : list tick) :
  Sorted (flip tick_le) rows -> ascending (rev rows).
Proof.
  intros H. rewrite rev_alt. apply Sorted_reverse in H. unfold ascending.
  exact H.
Qed.

(** ** Range boundaries *)

Lemma some_first {A : Type} (pre : list (option A)) x post :
  Forall (fun o => o = None) pre -> some (pre ++ Some x :: post) = Some x.
Proof. induction 1 as [|o pre -> _ IH]; [done|]. by simpl. Qed.

Lemma some_None {A : Type} (l : list (option A)) :
  Forall (fun o => o = None) l -> some l = None.
Proof. induction 1 as [|o pre -> _ IH]; [done|]. by simpl. Qed.

Lemma _parse_datetime_first dt_str (w : world FL) pre f post d :
  FORMATS = pre ++ f :: post ->
  Forall (fun g => strptime dt_str g = None) pre -> strptime dt_str f = Some d ->
  _parse_datetime dt_str w = (Ok d, w).
Proof.
  intros HF Hpre Hf. unfold _parse_datetime. rewrite HF, map_app. simpl. rewrite Hf.
  rewrite some_first; [done|]. by apply Forall_fmap in Hpre || (rewrite Forall_map; exact Hpre).
Qed.

Lemma _parse_datetime_none dt_str (w : world FL) :
  Forall (fun g => strptime dt_str g = None) FORMATS ->
  _parse_datetime dt_str w =
  _exit ("Can't parse " ++ [DQUOTE] ++ dt_str ++ [DQUOTE] ++ " into datetime.") w.
Proof.
  intros HF. unfold _parse_datetime. rewrite some_None; [done|].
  rewrite Forall_map. exact HF.
Qed.

(** ** What the peeks read *)

Lemma _peek_csv_Ok content T old :
  _peek_csv content = Ok (T, old) <-> csv_watermark content = Ok T /\ old = PList [].
Proof.
  unfold _peek_csv, csv_watermark.
  destruct (match last _ with Some _ => _ | None => _ end) as [d|e]; simpl.
  - split; [by intros [= <- <-]|]. by intros [[= <-] ->].
  - split; [by destruct e|]. by intros [? _].
Qed.

Lemma parse_process_char_Raise r c e : parse_process_char r c = Raise e -> e = CsvError.
Proof.
  unfold parse_process_char.
  destruct (state r), c as [x|]; simpl;
    repeat match goal with |- context [if ?b then _ else _] => destruct b end;
    congruence.
Qed.

Lemma feed_line_Raise line r e : feed_line r line = Raise e -> e = CsvError.
Proof.
  revert r. induction line as [|c line IH]; intros r; simpl.
  - apply parse_process_char_Raise.
  - destruct (parse_process_char r (Some c)) as [r'|e'] eqn:E; simpl.
    + apply IH.
    + intros [= <-]. by apply parse_process_char_Raise in E.
Qed.

Lemma reader_rows_Raise lines r e :
  ends_with (reader_rows r lines) = Some e -> e = CsvError.
Proof.
  revert r. induction lines as [|l lines IH]; intros r; simpl.
  - by destruct (field r), (state r).
  - destruct (feed_line r l) as [r'|e'] eqn:E; simpl.
    + destruct (state r'); simpl; apply IH.
    + intros [= <-]. by apply feed_line_Raise in E.
Qed.

Lemma _parse_csv_Raise raw e : _parse_csv raw = Raise e -> e = CsvError.
Proof.
  unfold _parse_csv, list_of, csv_reader_over.
  destruct (ends_with _) as [e'|] eqn:E; [|done]. intros [= <-].
  by apply reader_rows_Raise in E.
Qed.

Lemma raw_failure_kind raw e :
  raw_failure raw e -> e ∈ [CsvError; IndexError; TypeError; ValueError].
Proof.
  intros [e' Hc| | | |]; try (apply _parse_csv_Raise in Hc as ->);
    repeat (first [by left | right]).
Qed.

Lemma not_newer_at T (self : MarketData FL) t :
  tick_time t = T -> t ∉ newer_than T self.
Proof.
  intros <- Hin. apply elem_of_bfilter in Hin as [_ Hin].
  unfold dt_gtb in Hin. by rewrite dt_ltb_irrefl in Hin.
Qed.

Lemma save_csv_nothing_new self filename (w : world FL) content T old :
  target self csv filename <> ("-" : str) ->
  files w !! target self csv filename = Some content ->
  _peek_csv content = Ok (T, old) -> newer_than T self = [] ->
  save_data self (Some csv) append filename w = (Ok tt, w).
Proof.
  intros Hn Hf Hp Hnew.
  rewrite (save_csv_from self append filename w T old);
    [|done|by apply (start_append_Ok csv _ w content)].
  rewrite Hf. unfold written_rows. rewrite Hnew. simpl default.
  change (csv_writerows (map csv_row (map encode []))) with ([] : str).
  rewrite app_nil_r. by rewrite set_files_same.
Qed.

End Properties.

(** * The claims of the specification *)

(** C7. Datetime parsing precedence: a range boundary is tried against the
    formats DD.MM.YYYY, DD.MM.YYYYTHH:MM, DD.MM.YYYYTHH:MM:SS,
    DD.MM.YYYY HH:MM, DD.MM.YYYY HH:MM:SS in this order and the first format
    that matches gives the result; "30.07.2014" is that day at midnight,
    "30.07.2014 15:05" is read to the minute, and a string that matches no
    format makes the program report the unrecognized string on the error
    stream and exit with status 1. *)
Theorem C7_datetime_format_precedence :
  FORMATS = ["%d.%m.%Y" : str; "%d.%m.%YT%H:%M" : str; "%d.%m.%YT%H:%M:%S" : str;
             "%d.%m.%Y %H:%M" : str; "%d.%m.%Y %H:%M:%S" : str]
  /\ (forall (FL : PyFloat) (dt_str : str) (w : world FL) pre f post d,
        FORMATS = pre ++ f :: post ->
        Forall (fun g => strptime dt_str g = None) pre ->
        strptime dt_str f = Some d ->
        _parse_datetime dt_str w = (Ok d, w))
  /\ (forall (FL : PyFloat) (dt_str : str) (w : world FL),
        Forall (fun g => strptime dt_str g = None) FORMATS ->
        _parse_datetime dt_str w =
        (Raise (SystemExit 1),
         mk_world (files w) (stdout w)
           (stderr w ++ ("Can't parse " ++ [DQUOTE] ++ dt_str ++ [DQUOTE]
                         ++ " into datetime.") ++ [LF])
           (db w)))
  /\ _parse_datetime "30.07.2014" empty_world
     = (Ok (mk_datetime 2014 7 30 0 0 0 0), empty_world)
  /\ _parse_datetime "30.07.2014 15:05" empty_world
     = (Ok (mk_datetime 2014 7 30 15 5 0 0), empty_world)
  /\ (_parse_datetime "30.07.2014 15h" empty_world).1 = Raise (SystemExit 1).
Proof.
  split; [reflexivity|]. split; [|split; [|repeat split; reflexivity]].
  - intros FL dt_str w pre f post d. apply _parse_datetime_first.
  - intros FL dt_str w H. rewrite _parse_datetime_none by exact H. reflexivity.
Qed.

(** The boundary "30.07.2014T15:05": the bare date format fails on the
    trailing characters and the second format gives the result *)
Lemma C7_datetime_format_precedence_witness :
  _parse_datetime "30.07.2014T15:05" empty_world
  = (Ok (mk_datetime 2014 7 30 15 5 0 0), empty_world).
Proof.
  apply (proj1 (proj2 C7_datetime_format_precedence) DecFloat
           ("30.07.2014T15:05" : str) empty_world
           [("%d.%m.%Y" : str)] ("%d.%m.%YT%H:%M" : str)
           [("%d.%m.%YT%H:%M:%S" : str); ("%d.%m.%Y %H:%M" : str);
            ("%d.%m.%Y %H:%M:%S" : str)]).
  - reflexivity.
  - repeat constructor.
  - reflexivity.
Defined.

(** C5. Raw export parser ordering: when the header, the date line and the
    data rows of an export (the lines after the third one, the last line
    left out; the exchange lists them newest first) are readable, the parser
    returns the symbol and the ISIN captured from the header, gives each data
    row the timestamp read from date + ' ' + time, and returns the records
    in the reverse of the order of the rows, which is oldest first, ascending
    by timestamp; the ABBN export parses to symbol ABBN, ISIN CH0012221716
    and its two records in ascending order. *)
Theorem C5_raw_parser_ordering :
  (forall (FL : PyFloat) (raw : str) parsed h0 r0 h1 r1 sym isn rows,
     _parse_csv raw = Ok parsed ->
     parsed !! 0%nat = Some (h0 :: r0) -> re_find_header h0 = Some (sym, isn) ->
     parsed !! 1%nat = Some (h1 :: r1) ->
     map_result (tick_of_raw_row (strip h1)) (drop 3 (removelast parsed)) = Ok rows ->
     _parse_raw raw = Ok (sym, isn, rev rows)
     /\ Forall2 (fun (row : list str) (t : tick) =>
                   exists tm price volume rest,
                     row = tm :: price :: volume :: rest
                     /\ parse_datetime (strip h1 ++ " " ++ strip tm) = Ok t.1.1
                     /\ float_of_str price = Some t.1.2
                     /\ int_of_str volume = Some t.2)
          (drop 3 (removelast parsed)) rows
     /\ (Sorted (flip tick_le) rows -> ascending (rev rows)))
  /\ _parse_raw ABBN_export = Ok ("ABBN" : str, "CH0012221716" : str, data ABBN)
  /\ ascending (data ABBN).
Proof.
  split; [|split].
  - intros FL raw parsed h0 r0 h1 r1 sym isn rows Hc H0 Hh H1 Hrows. split; [|split].
    + apply _parse_raw_Ok. by exists parsed, h0, r0, h1, r1, rows.
    + apply map_result_Forall2 in Hrows.
      eapply Forall2_impl; [exact Hrows|]. intros row t Ht.
      by apply tick_of_raw_row_Ok in Ht.
    + apply rev_descending.
  - reflexivity.
  - repeat constructor.
Qed.

(** The ABBN export, row by row *)
Lemma C5_raw_parser_ordering_witness :
  _parse_raw ABBN_export = Ok ("ABBN" : str, "CH0012221716" : str, rev (rev (data ABBN))).
Proof.
  refine (proj1 (proj1 C5_raw_parser_ordering DecFloat ABBN_export
            [["ABB LTD (ABBN/CH0012221716)" : str];
             ["          29.07.2014" : str; [] ];
             ["          Time" : str; "Price" : str; "Volume" : str; [] ];
             ["          15:24:35" : str; "21.6" : str; "9010" : str; [] ];
             ["          15:23:03" : str; "21.52" : str; "5738" : str; [] ];
             [] ]
            ("ABB LTD (ABBN/CH0012221716)" : str) []
            ("          29.07.2014" : str) [ [] ]
            ("ABBN" : str) ("CH0012221716" : str) (rev (data ABBN))
            _ _ _ _ _)); reflexivity.
Defined.

(** C3. Overwrite mode on an existing csv file does not replace it: the file
    is opened for appending, so the series ABBN written with mode overwrite
    over a file that holds a row of the day before leaves that row in place
    and puts the two rows of the series after it; the json file of the same
    content written the same way is replaced by the document of the series
    alone. *)
Theorem C3_overwrite_csv_keeps_prior_rows :
  file_after "ABBN.csv"
    (save_data ABBN (Some csv) overwrite None (with_file "ABBN.csv" earlier_csv))
  = Some (earlier_csv
          ++ "29.07.2014 15:23:03;21.52;5738" ++ [CR; LF]
          ++ "29.07.2014 15:24:35;21.6;9010" ++ [CR; LF])
  /\ file_after "ABBN.json"
       (save_data ABBN (Some json) overwrite None (with_file "ABBN.json" earlier_json))
     = Some (json_dumps (document ABBN (map json_row (encoded_rows ABBN EPOCH)))).
Proof. split; vm_compute; reflexivity. Qed.








(** C9. Order of the records by constructor: the store reader returns its
    records sorted ascending by timestamp (ties permitted); the raw export
    parser returns the records of the data rows in reverse order, so its
    series is ascending exactly when the rows are listed newest first; the
    csv and json file readers return the records of the rows in the order of
    the file, sorting nothing. *)
Theorem C9_order_by_constructor (FL : PyFloat) (JS : JsonCodec) :
  (forall symbol_or_isin from_ to (w w' : world FL) md,
     load_data_from_db symbol_or_isin from_ to w = (Ok md, w') -> ascending (data md))
  /\ (forall (raw : str) sym isn ticks,
        _parse_raw raw = Ok (sym, isn, ticks) ->
        exists parsed h1 r1 rows,
          _parse_csv raw = Ok parsed /\ parsed !! 1%nat = Some (h1 :: r1)
          /\ map_result (tick_of_raw_row (strip h1)) (drop 3 (removelast parsed)) = Ok rows
          /\ ticks = rev rows
          /\ (ascending ticks <-> Sorted (flip tick_le) rows))
  /\ (forall (content : str) md,
        _read_csv content = Ok md -> Forall2 good_csv_row (csv_rows content) (data md))
  /\ (forall (content : str) md,
        _read_json content = Ok md ->
        exists raw ticks_v rows,
          json_loads (universal_newlines content) = Some raw
          /\ getitem raw "ticks" = Ok ticks_v /\ list_of (py_iter ticks_v) = Ok rows
          /\ Forall2 (fun row t => tick_of_row row = Ok t) rows (data md)).
Proof.
  split; [|split; [|split]].
  - apply load_data_from_db_sorted.
  - intros raw sym isn ticks H.
    apply _parse_raw_Ok in H as (parsed & h0 & r0 & h1 & r1 & rows & Hc & _ & _ & H1 & Hr & ->).
    exists parsed, h1, r1, rows. repeat split; try done.
    + intros H. rewrite <- (rev_involutive rows), rev_alt. by apply Sorted_reverse in H.
    + apply rev_descending.
  - intros content md H. by apply _read_csv_Ok in H as (_ & _ & H).
  - apply _read_json_Ok.
Qed.

(** The csv reader keeps the order of a file whose rows are newest first:
    the series it returns is not ascending. *)
Lemma C9_csv_reader_keeps_file_order :
  exists md, @_read_csv DecFloat newest_first_csv = Ok md /\ ~ ascending (data md).
Proof.
  eexists. split; [reflexivity|]. intros H.
  apply Sorted_inv in H as [_ H]. apply HdRel_inv in H. discriminate H.
Qed.

(** C1. Watermark filtering on append. The watermark T of the store is the
    greatest timestamp stored for the symbol; the watermark of a file is the
    timestamp of its last record (the first field of the last line of a csv
    file, the last tick of a json file), whatever the order of the file.
    An append-mode merge writes exactly the incoming records with timestamp
    strictly greater than T, in their original order, after what the
    destination holds; a record whose timestamp equals T is excluded; and
    if every incoming record has timestamp <= T no record is written: the
    store and the csv file stay as they are (the insert operation is not
    invoked) and the json file is written again with its old ticks. *)
Theorem C1_watermark_append (FL : PyFloat) (JS : JsonCodec)
    (self : MarketData FL) (w : world FL) :
  (forall T,
     is_max_time T (map t_time (symbol_ticks (symbol self) (db w))) ->
     save_data_to_db self w
     = (Ok tt,
        match newer_than T self with
        | [] => w
        | new => set_db (mk_database (stocks (db w))
                           (ticks (db w) ++ map (tickdoc_of self) new)
                           (insert_calls (db w) ++ [map (tickdoc_of self) new])) w
        end))
  /\ (forall filename content T,
        let name := target self csv filename in
        name <> ("-" : str) -> files w !! name = Some content ->
        csv_watermark content = Ok T ->
        save_data self (Some csv) append filename w
        = (Ok tt,
           match newer_than T self with
           | [] => w
           | new => set_files
                      (<[name := content ++ csv_writerows (map csv_row (map encode new))]>
                         (files w)) w
           end))
  /\ (forall filename content od old items T,
        let name := target self json filename in
        name <> ("-" : str) -> files w !! name = Some content ->
        json_loads (universal_newlines content) = Some od ->
        getitem od "ticks" = Ok old -> list_of (py_iter old) = Ok items ->
        watermark_of old = Ok T ->
        save_data self (Some json) append filename w
        = (Ok tt,
           set_files
             (<[name := json_dumps
                          (document self
                             (items ++ map json_row (map encode (newer_than T self))))]>
                (files w)) w))
  /\ (forall T,
        newer_than T self = List.filter (fun t => dt_gtb (tick_time t) T) (data self)
        /\ (forall t, tick_time t = T -> t ∉ newer_than T self)
        /\ (Forall (fun t => dt_leb (tick_time t) T = true) (data self) ->
            newer_than T self = [])).
Proof.
  split; [|split; [|split]].
  - intros T HT. by apply store_append.
  - intros filename content T name Hn Hf HT.
    assert (_peek_csv content = Ok (T, PList [])) as Hp by by apply _peek_csv_Ok.
    destruct (newer_than T self) as [|t new] eqn:E.
    + by apply (save_csv_nothing_new self filename w content T (PList [])).
    + rewrite (save_csv_from self append filename w T (PList []));
        [|done|by apply (start_append_Ok csv _ w content)].
      fold name. rewrite Hf. unfold written_rows. by rewrite E.
  - intros filename content od old items T name Hn Hf Hl Hg Hi HT.
    apply (save_json_from self append filename w T old items); [done| |done].
    apply (start_append_Ok json _ w content); [done|].
    apply _peek_json_Ok. by exists od.
  - intros T. split; [done|]. split; [intros t; apply not_newer_at|].
    intros H. unfold newer_than. induction H as [|t l Ht _ IH]; [done|].
    simpl. by rewrite dt_gtb_leb, Ht.
Qed.

(** The second record of ABBN goes into a store that holds the first, and
    both go after the row of the day before in a csv file. *)
Lemma C1_watermark_append_witness :
  save_data_to_db ABBN (with_store first_stored)
  = (Ok tt,
     with_store
       (mk_database (stocks first_stored)
          (ticks first_stored
           ++ [mk_tickdoc (PStr "ABBN") (PStr "CH0012221716")
                 (on_day 15 24 35 0) (DFin false 216 (-1)) 9010%Z])
          [[mk_tickdoc (PStr "ABBN") (PStr "CH0012221716")
              (on_day 15 24 35 0) (DFin false 216 (-1)) 9010%Z]]))
  /\ save_data ABBN (Some csv) append None (with_file "ABBN.csv" earlier_csv)
     = (Ok tt,
        with_file "ABBN.csv"
          (earlier_csv
           ++ "29.07.2014 15:23:03;21.52;5738" ++ [CR; LF]
           ++ "29.07.2014 15:24:35;21.6;9010" ++ [CR; LF])).
Proof.
  split.
  - refine (eq_trans
              (proj1 (C1_watermark_append DecFloat MiniJson ABBN (with_store first_stored))
                 (on_day 15 23 3 0) _) _).
    + split; [by left|]. intros t Ht. apply list_elem_of_singleton in Ht. by subst t.
    + evaluate.
  - refine (eq_trans
              (proj1 (proj2 (C1_watermark_append DecFloat MiniJson ABBN
                               (with_file "ABBN.csv" earlier_csv)))
                 None earlier_csv (mk_datetime 2014 7 28 17 30 0 0) _ _ _) _).
    + discriminate.
    + evaluate.
    + evaluate.
    + evaluate.
Defined.

(** A csv file that lists its rows newest first holds a record at
    15:24:35, the greatest of its timestamps; the incoming record at
    15:24:35 is not after it, and the merge writes it all the same, since
    the last row of the file is at 15:23:03. *)
Lemma C1_unsorted_file_gets_old_record :
  (exists md, @_read_csv DecFloat newest_first_csv = Ok md
              /\ is_max_time (on_day 15 24 35 0) (map tick_time (data md)))
  /\ Forall (fun t => dt_leb (tick_time t) (on_day 15 24 35 0) = true) (data latest_only)
  /\ file_after "ABBN.csv"
       (save_data latest_only (Some csv) append None (with_file "ABBN.csv" newest_first_csv))
     = Some (newest_first_csv ++ "29.07.2014 15:24:35;21.6;9010" ++ [CR; LF]).
Proof.
  split; [|split].
  - eexists. split; [reflexivity|]. split; [by left|].
    intros t Ht. simpl in Ht.
    apply elem_of_cons in Ht as [->|Ht]; [done|].
    apply list_elem_of_singleton in Ht. by subst t.
  - by repeat constructor.
  - evaluate.
Qed.




(** C6. Round trip. For every series whose timestamps are valid, of a
    four-digit year, of whole seconds and after EPOCH, and whose texts the
    libraries read back (prices that float reads back from their repr and
    that need no quoting, a document that the json library reads back),
    writing it to a destination that does not exist yet and reading the file
    written gives the records of the series, same timestamps, prices and
    volumes in the same order; the json file also gives back the symbol and
    the isin, the csv file gives none. *)
Theorem C6_fresh_roundtrip (FL : PyFloat) (JS : JsonCodec)
    (self : MarketData FL) (mode : write_mode) (filename : option str) (w : world FL) :
  Forall storable (data self) ->
  Forall (fun t => dt_gtb (tick_time t) EPOCH = true) (data self) ->
  (let name := target self csv filename in
   name <> ("-" : str) -> files w !! name = None ->
   Forall csv_price (data self) ->
   exists text,
     save_data self (Some csv) mode filename w
     = (Ok tt, set_files (<[name := text]> (files w)) w)
     /\ _read_csv text = Ok (mk_MarketData PNone PNone (data self)))
  /\ (let name := target self json filename in
      name <> ("-" : str) -> files w !! name = None ->
      reads_back (document self (map json_row (map encode (data self)))) ->
      exists text,
        save_data self (Some json) mode filename w
        = (Ok tt, set_files (<[name := text]> (files w)) w)
        /\ _read_json text = Ok self).
Proof.
  intros Hst Hep. split.
  - intros name Hn Hf Hp. by apply fresh_csv_roundtrip.
  - intros name Hn Hf Hr. by apply fresh_json_roundtrip.
Qed.

(** ABBN written to a new csv file and to a new json file *)
Lemma C6_fresh_roundtrip_witness :
  (exists text,
     save_data ABBN (Some csv) strict None empty_world
     = (Ok tt, set_files (<[("ABBN.csv" : str) := text]> (files empty_world)) empty_world)
     /\ _read_csv text = Ok (mk_MarketData PNone PNone (data ABBN)))
  /\ (exists text,
        save_data ABBN (Some json) strict None empty_world
        = (Ok tt, set_files (<[("ABBN.json" : str) := text]> (files empty_world)) empty_world)
        /\ _read_json text = Ok ABBN).
Proof.
  assert (Forall storable (data ABBN)) as Hst by (repeat constructor).
  assert (Forall (fun t => dt_gtb (tick_time t) EPOCH = true) (data ABBN)) as Hep
    by (repeat constructor).
  split.
  - apply (proj1 (C6_fresh_roundtrip DecFloat MiniJson ABBN strict None empty_world Hst Hep)).
    + discriminate.
    + reflexivity.
    + repeat constructor.
  - apply (proj2 (C6_fresh_roundtrip DecFloat MiniJson ABBN strict None empty_world Hst Hep)).
    + discriminate.
    + reflexivity.
    + unfold reads_back. evaluate.
Defined.

(** A series whose only record is at EPOCH, a valid timestamp of a whole
    second: the new csv file is written empty and the new json file without
    ticks, and reading them gives no record. *)
Lemma C6_epoch_record_not_read_back :
  Forall storable (data at_epoch)
  /\ data at_epoch = [(EPOCH, DFin false 15 (-1), 10%Z)]
  /\ file_after "ABBN.csv" (save_data at_epoch (Some csv) strict None empty_world)
     = Some []
  /\ @_read_csv DecFloat [] = Ok (mk_MarketData PNone PNone [])
  /\ (exists text,
        file_after "ABBN.json" (save_data at_epoch (Some json) strict None empty_world)
        = Some text
        /\ _read_json text
           = Ok (mk_MarketData (PStr "ABBN") (PStr "CH0012221716") [])).
Proof.
  split; [repeat constructor|]. split; [reflexivity|]. split; [evaluate|].
  split; [evaluate|]. eexists. split; [reflexivity|]. evaluate.
Qed.

(** C10. Epoch-boundary drop. A write that starts from the default
    watermark EPOCH leaves out every record whose timestamp is EPOCH or
    earlier: a write to a file that does not exist yet, a strict-mode or
    overwrite-mode write and a write to stdout ('-') are the writes of the
    series without these records, and so is an append-mode write onto a
    file whose watermark is EPOCH or later. *)
Theorem C10_epoch_boundary_drop (FL : PyFloat) (JS : JsonCodec)
    (self : MarketData FL) (format : file_format) (mode : write_mode)
    (filename : option str) (w : world FL) :
  let name := target self format filename in
  name = ("-" : str) \/ mode <> append \/ files w !! name = None
  \/ (forall W old, start format mode name w = Ok (W, old) -> dt_leb EPOCH W = true) ->
  save_data self (Some format) mode filename w
  = save_data (after_epoch self) (Some format) mode filename w
  /\ data (after_epoch self)
     = List.filter (fun t => dt_gtb (tick_time t) EPOCH) (data self)
  /\ Forall (fun t => dt_leb (tick_time t) EPOCH = false) (data (after_epoch self)).
Proof.
  intros name H. split; [|split].
  - apply save_data_after_epoch. fold name. intros Hn W old Hs.
    destruct H as [H|[H|[H|H]]]; [done| | |by apply (H W old)].
    + rewrite (start_not_append format mode name w W old); [done|by left|done].
    + rewrite (start_not_append format mode name w W old); [done|by right|done].
  - reflexivity.
  - apply Forall_forall. intros t Ht. apply elem_of_bfilter in Ht as [_ Ht].
    rewrite dt_gtb_leb in Ht. by apply negb_true_iff in Ht.
Qed.

(** A record at EPOCH written with mode overwrite *)
Lemma C10_epoch_boundary_drop_witness :
  save_data at_epoch (Some csv) overwrite None (with_file "ABBN.csv" earlier_csv)
  = save_data (after_epoch at_epoch) (Some csv) overwrite None
      (with_file "ABBN.csv" earlier_csv).
Proof.
  apply (C10_epoch_boundary_drop DecFloat MiniJson at_epoch csv overwrite None
           (with_file "ABBN.csv" earlier_csv)).
  right. left. discriminate.
Defined.

(** An append onto a csv file whose last row is of 1969 writes the record
    at EPOCH. *)
Lemma C10_append_after_older_row_writes_epoch :
  data at_epoch = [(EPOCH, DFin false 15 (-1), 10%Z)]
  /\ file_after "ABBN.csv"
       (save_data at_epoch (Some csv) append None (with_file "ABBN.csv" old_csv))
     = Some (old_csv ++ "01.01.1970 00:00:00;1.5;10" ++ [CR; LF]).
Proof. split; [reflexivity|evaluate]. Qed.

(** * Further properties of the code *)

(** ** Timestamps as text *)

Lemma str_datetime_truncate d : str_datetime d = str_datetime (truncate_second d).
Proof. by rewrite !str_datetime_eq. Qed.

Lemma valid_truncate_second d :
  valid_datetime d = true -> valid_datetime (truncate_second d) = true.
Proof.
  unfold valid_datetime. simpl. rewrite !andb_true_iff. intros H.
  repeat split; try apply H.
Qed.

Lemma match_items_microsecond items : forall s acc d rest,
  (d, rest) ∈ match_items items s acc -> microsecond d = microsecond acc.
Proof.
  induction items as [|it items IH]; intros s acc d rest H.
  - simpl in H. apply list_elem_of_singleton in H. by injection H as -> _.
  - assert (forall it', (forall v, microsecond (set_field it' v acc) = microsecond acc)) as Hset
      by (by intros []).
    assert (forall it',
              (d, rest) ∈ flat_map (fun pat =>
                  match match_pattern pat s with
                  | Some (m, rest) =>
                      match_items items rest (set_field it' (group_value m) acc)
                  | None => []
                  end) (alternatives it') ->
              microsecond d = microsecond acc) as Hdir.
    { intros it' Hin. apply list_elem_of_In, in_flat_map in Hin as (pat & _ & Hin).
      destruct (match_pattern pat s) as [[m r]|]; [|by destruct Hin].
      apply list_elem_of_In, IH in Hin. by rewrite Hin, Hset. }
    destruct it; try exact (Hdir _ H).
    + simpl in H. destruct s as [|x s']; [by apply elem_of_nil in H|].
      destruct (chr_eqb _ _); [by apply IH in H|by apply elem_of_nil in H].
    + simpl in H. apply list_elem_of_In, in_flat_map in H as (r & _ & H).
      by apply list_elem_of_In, IH in H.
Qed.

Lemma strptime_sound s fmt d :
  strptime s fmt = Some d -> valid_datetime d = true /\ whole_second d = true.
Proof.
  unfold strptime. destruct (parse_format fmt) as [items|]; [|done]. simpl.
  destruct (match_items items s _) as [|[d' [|? ?]] l] eqn:E; try done.
  destruct (valid_datetime d') eqn:Hv; [|done]. intros [= <-]. split; [done|].
  assert ((d', []) ∈ match_items items s (mk_datetime 1900 1 1 0 0 0 0)) as Hin
    by (rewrite E; by left).
  apply match_items_microsecond in Hin. unfold whole_second. by rewrite Hin.
Qed.

Lemma truncate_whole d : whole_second d = true -> truncate_second d = d.
Proof. destruct d. unfold whole_second, truncate_second. simpl. by intros ->%N.eqb_eq. Qed.

(** X1. A timestamp is written with its second and nothing finer: for a
    valid datetime of a year from 1000 on, parsing the text [str_datetime]
    writes gives the datetime without its microseconds. *)
Theorem X1_str_datetime_then_parse (d : datetime) :
  valid_datetime d = true -> (1000 <=? year d) = true ->
  parse_datetime (str_datetime d) = Ok (truncate_second d).
Proof.
  intros Hv _. rewrite str_datetime_truncate.
  apply parse_str_datetime; [by apply valid_truncate_second|done].
Qed.

Lemma X1_str_datetime_then_parse_witness :
  parse_datetime (str_datetime (mk_datetime 2014 7 29 15 23 3 500000))
  = Ok (mk_datetime 2014 7 29 15 23 3 0).
Proof.
  apply (X1_str_datetime_then_parse (mk_datetime 2014 7 29 15 23 3 500000)); reflexivity.
Defined.

(** X2. What [parse_datetime] accepts is a valid datetime of a whole
    second, and for a year from 1000 on writing it with [str_datetime] and
    parsing the text again gives it back. *)
Theorem X2_parse_then_str_datetime (s : str) (d : datetime) :
  parse_datetime s = Ok d ->
  valid_datetime d = true /\ whole_second d = true
  /\ ((1000 <=? year d) = true -> parse_datetime (str_datetime d) = Ok d).
Proof.
  unfold parse_datetime. destruct (strptime s _) as [d'|] eqn:E; [|done].
  intros [= <-]. apply strptime_sound in E as [Hv Hw].
  split; [done|]. split; [done|]. intros _. by apply parse_str_datetime.
Qed.

Lemma X2_parse_then_str_datetime_witness :
  parse_datetime (str_datetime (mk_datetime 2014 7 1 9 5 0 0))
  = Ok (mk_datetime 2014 7 1 9 5 0 0).
Proof.
  refine (proj2 (proj2 (X2_parse_then_str_datetime ("1.7.2014 9:5:0" : str)
                          (mk_datetime 2014 7 1 9 5 0 0) _)) _); reflexivity.
Defined.

(** ** The rows after a watermark *)

Lemma newer_than_split (FL : PyFloat) (T : datetime) (l : list (@tick FL)) :
  ascending l ->
  exists older newer,
    l = older ++ newer
    /\ Forall (fun t => dt_leb (tick_time t) T = true) older
    /\ Forall (fun t => dt_gtb (tick_time t) T = true) newer
    /\ List.filter (fun t => dt_gtb (tick_time t) T) l = newer.
Proof.
  intros Hs. apply Sorted_StronglySorted in Hs; [|intros a b c; apply dt_leb_trans].
  induction Hs as [|x l Hs IH Hx].
  - exists [], []. by repeat split.
  - destruct (dt_gtb (tick_time x) T) eqn:E.
    + exists [], (x :: l).
      assert (Forall (fun t => dt_gtb (tick_time t) T = true) (x :: l)) as HF.
      { constructor; [done|]. eapply Forall_impl; [exact Hx|].
        intros y Hy. by apply (dt_leb_gtb_trans (tick_time x)). }
      split; [done|]. split; [constructor|]. split; [done|].
      clear -HF. induction HF as [|y k Hy _ IHk]; [done|]. simpl. by rewrite Hy, IHk.
    + destruct IH as (older & newer & -> & Ho & Hn & Hf).
      exists (x :: older), newer. split; [done|]. split.
      * constructor; [|done]. rewrite dt_gtb_leb in E. by apply negb_false_iff in E.
      * split; [done|]. simpl. by rewrite E.
Qed.

(** X3. In a series sorted ascending by timestamp the records after a
    watermark are the end of the series: the series is the records at or
    before the watermark followed by the records after it, and
    [encoded_rows] gives the rows of the latter, in their order. *)
Theorem X3_encoded_rows_of_ascending (FL : PyFloat) (self : MarketData FL) (T : datetime) :
  ascending (data self) ->
  exists older newer,
    data self = older ++ newer
    /\ Forall (fun t => dt_leb (tick_time t) T = true) older
    /\ Forall (fun t => dt_gtb (tick_time t) T = true) newer
    /\ encoded_rows self T
       = map (fun t : tick => (str_datetime t.1.1, t.1.2, t.2)) newer.
Proof.
  intros Hs. destruct (newer_than_split FL T (data self) Hs) as (older & newer & E & Ho & Hn & Hf).
  exists older, newer. repeat split; try done.
  rewrite encoded_rows_newer. unfold newer_than. by rewrite Hf.
Qed.

Lemma X3_encoded_rows_of_ascending_witness :
  exists older newer,
    data ABBN = older ++ newer
    /\ Forall (fun t => dt_leb (tick_time t) (on_day 15 23 3 0) = true) older
    /\ Forall (fun t => dt_gtb (tick_time t) (on_day 15 23 3 0) = true) newer
    /\ encoded_rows ABBN (on_day 15 23 3 0)
       = map (fun t : tick => (str_datetime t.1.1, t.1.2, t.2)) newer.
Proof.
  apply (X3_encoded_rows_of_ascending DecFloat ABBN (on_day 15 23 3 0)).
  repeat constructor.
Defined.

(** ** The tick store *)

(** X4. A merge into the store never fails and only adds: files, standard
    streams and the update list stay as they are, the ticks stored before
    stay in place before the new ones, every new document carries the
    symbol and the isin of the series and a record of the series, and the
    insert operation is invoked at most once, with the new documents. *)
Theorem X4_save_data_to_db_only_adds (FL : PyFloat) (self : MarketData FL) (w : world FL) :
  exists new,
    save_data_to_db self w
    = (Ok tt,
       mk_world (files w) (stdout w) (stderr w)
         (mk_database (stocks (db w)) (ticks (db w) ++ new)
            (insert_calls (db w) ++ match new with [] => [] | _ => [new] end)))
    /\ Forall (fun doc => t_symbol doc = symbol self /\ t_isin doc = isin self
                          /\ tick_of_doc doc ∈ data self) new.
Proof.
  rewrite save_data_to_db_unfold.
  set (T := store_watermark (symbol self) (db w)).
  exists (map (tickdoc_of self) (newer_than T self)). split.
  - destruct (map _ _) as [|doc docs] eqn:E.
    + rewrite !app_nil_r. by destruct w as [? ? ? []].
    + done.
  - apply Forall_forall. intros doc Hdoc. apply elem_of_map in Hdoc as (t & -> & Ht).
    apply elem_of_bfilter in Ht as [Ht _]. by destruct t as [[? ?] ?].
Qed.

(** X5. Reading a stock from the store changes nothing and returns, under
    the symbol and the isin of the stock found by symbol or by isin, the
    stored ticks of that symbol whose time is in the range asked for, both
    bounds included, each once, sorted ascending by time; for a stock that
    is not on the update list the program exits with status 1 and only the
    error stream has changed. *)
Theorem X5_load_data_from_db_range (FL : PyFloat) (name : str)
    (from_ to : option datetime) (w : world FL) :
  match find_stock name w with
  | Some st =>
      exists md,
        load_data_from_db name from_ to w = (Ok md, w)
        /\ symbol md = s_symbol st /\ isin md = s_isin st
        /\ ascending (data md)
        /\ data md ≡ₚ map tick_of_doc
                        (List.filter (in_query (s_symbol st) from_ to) (ticks (db w)))
        /\ Forall (fun t : tick =>
                     match from_ with Some f => dt_leb f (tick_time t) = true | None => True end
                     /\ match to with Some u => dt_leb (tick_time t) u = true | None => True end)
             (data md)
  | None =>
      exists message,
        load_data_from_db name from_ to w
        = (Raise (SystemExit 1),
           mk_world (files w) (stdout w) (stderr w ++ message ++ [LF]) (db w))
  end.
Proof.
  destruct (find_stock name w) as [st|] eqn:Ef.
  2:{ unfold load_data_from_db. rewrite Ef. by eexists. }
  set (docs := List.filter (in_query (s_symbol st) from_ to) (ticks (db w))).
  set (md := mk_MarketData (s_symbol st) (s_isin st)
               (map tick_of_doc (merge_sort time_asc docs))).
  assert (load_data_from_db name from_ to w = (Ok md, w)) as E
    by (unfold load_data_from_db; by rewrite Ef).
  pose proof (merge_sort_Permutation time_asc docs) as HP.
  exists md. split; [done|]. split; [done|]. split; [done|].
  split; [by apply (load_data_from_db_sorted _ _ _ _ _ _ E)|]. split.
  - apply (Permutation_map tick_of_doc) in HP. exact HP.
  - apply Forall_forall. intros t Ht. apply elem_of_map in Ht as (doc & -> & Hdoc).
    apply (elem_of_Permutation_proper _ _ _ HP) in Hdoc.
    apply elem_of_bfilter in Hdoc as [_ Hq]. unfold in_query in Hq.
    apply andb_true_iff in Hq as [Hq Hto]. apply andb_true_iff in Hq as [_ Hfrom].
    unfold tick_time. simpl. split; [by destruct from_|by destruct to].
Qed.

Lemma sorted_perm_eq {A : Type} (R : relation A) (l1 : list A) : forall l2,
  StronglySorted R l1 -> StronglySorted R l2 -> l1 ≡ₚ l2 ->
  (forall x y, x ∈ l1 -> y ∈ l1 -> R x y -> R y x -> x = y) ->
  l1 = l2.
Proof.
  induction l1 as [|x l1 IH]; intros l2 H1 H2 HP Hanti.
  - by apply Permutation_nil in HP.
  - destruct l2 as [|y l2]; [by apply Permutation_sym, Permutation_nil_cons in HP|].
    apply StronglySorted_inv in H1 as [H1 Hx]. apply StronglySorted_inv in H2 as [H2 Hy].
    assert (x = y) as <-.
    { assert (x ∈ y :: l2) as Hxin by (rewrite <- HP; by left).
      assert (y ∈ x :: l1) as Hyin by (rewrite HP; by left).
      apply elem_of_cons in Hxin as [?|Hxin]; [done|].
      apply elem_of_cons in Hyin as [?|Hyin]; [done|].
      rewrite Forall_forall in Hx, Hy.
      apply Hanti; [by left|by right|by apply Hx|by apply Hy]. }
    f_equal. apply IH; try done.
    + by apply Permutation_cons_inv in HP.
    + intros a b Ha Hb. apply Hanti; by right.
Qed.

Lemma strictly_ascending_time_inj (FL : PyFloat) (l : list (@tick FL)) x y :
  strictly_ascending l -> x ∈ l -> y ∈ l -> tick_time x = tick_time y -> x = y.
Proof.
  intros Hs. apply Sorted_StronglySorted in Hs; [|intros a b c; apply dt_ltb_trans].
  induction Hs as [|z l Hs IH Hz]; intros Hx Hy E; [by apply elem_of_nil in Hx|].
  rewrite Forall_forall in Hz.
  apply elem_of_cons in Hx as [->|Hx]; apply elem_of_cons in Hy as [->|Hy]; try done.
  - specialize (Hz y Hy). rewrite E in Hz. by rewrite dt_ltb_irrefl in Hz.
  - specialize (Hz x Hx). rewrite E in Hz. by rewrite dt_ltb_irrefl in Hz.
  - by apply IH.
Qed.

Lemma strictly_ascending_ascending (FL : PyFloat) (l : list (@tick FL)) :
  strictly_ascending l -> ascending l.
Proof.
  induction 1 as [|x l Hs IH Hx]; [constructor|]. constructor; [done|].
  destruct Hx as [|y l' Hxy]; constructor. unfold tick_le, dt_leb.
  by rewrite (dt_ltb_asym _ _ Hxy).
Qed.

Lemma merge_sort_stored (FL : PyFloat) (self : MarketData FL) (l : list (@tick FL)) :
  strictly_ascending l ->
  merge_sort time_asc (map (tickdoc_of self) l) = map (tickdoc_of self) l.
Proof.
  intros Hs.
  pose proof (@time_asc_trans FL) as Htrans. pose proof (@time_asc_total FL) as Htotal.
  apply sorted_perm_eq with (R := time_asc).
  - apply StronglySorted_merge_sort; apply _.
  - apply Sorted_StronglySorted; [exact Htrans|].
    apply strictly_ascending_ascending in Hs.
    induction Hs as [|x k Hk IH Hx]; [constructor|]. simpl. constructor; [done|].
    destruct Hx as [|y k' Hxy]; constructor. unfold time_asc. simpl.
    apply Is_true_true. exact Hxy.
  - apply merge_sort_Permutation.
  - intros a b Ha Hb Hab Hba.
    rewrite merge_sort_Permutation in Ha, Hb.
    apply elem_of_map in Ha as (x & -> & Hx). apply elem_of_map in Hb as (y & -> & Hy).
    f_equal. apply (strictly_ascending_time_inj FL l); try done.
    unfold time_asc in Hab, Hba. simpl in Hab, Hba.
    apply Is_true_true in Hab, Hba. by apply dt_leb_antisym.
Qed.

Lemma save_data_to_db_frame (FL : PyFloat) (self : MarketData FL) (w : world FL) :
  (save_data_to_db self w).1 = Ok tt
  /\ files (save_data_to_db self w).2 = files w
  /\ stdout (save_data_to_db self w).2 = stdout w
  /\ stderr (save_data_to_db self w).2 = stderr w
  /\ stocks (db (save_data_to_db self w).2) = stocks (db w).
Proof. rewrite save_data_to_db_unfold. by destruct (map _ _). Qed.

Lemma find_stock_stocks (FL : PyFloat) (name : str) (w w' : world FL) :
  stocks (db w') = stocks (db w) -> find_stock name w' = find_stock name w.
Proof. unfold find_stock. by intros ->. Qed.



(** ** Writing a file *)

Lemma open_write_lookup (FL : PyFloat) (name other text : str) (m : open_mode) (w : world FL) :
  other <> name ->
  files (open_for_writing name m w) !! other = files w !! other
  /\ files (write_text name text (open_for_writing name m w)) !! other = files w !! other.
Proof.
  intros Hne. destruct m; simpl; rewrite !lookup_insert_ne; done.
Qed.

(** X8. [save_data] touches its target only: the store is left as it is,
    every file other than the target keeps its content (or stays absent),
    with a file as target nothing is printed on the standard output, and
    with '-' as target no file changes. *)
Theorem X8_save_data_touches_target_only (FL : PyFloat) (JS : JsonCodec)
    (self : MarketData FL) (format : file_format) (mode : write_mode)
    (filename : option str) (w : world FL) :
  let name := target self format filename in
  let w' := (save_data self (Some format) mode filename w).2 in
  db w' = db w
  /\ (forall other : str, other <> name -> files w' !! other = files w !! other)
  /\ (name <> ("-" : str) -> stdout w' = stdout w)
  /\ (name = ("-" : str) -> files w' = files w /\ stderr w' = stderr w).
Proof.
  intros name w'. unfold w'. destruct (decide (name = ("-" : str))) as [Hn|Hn].
  - rewrite (save_data_stdout self format mode filename w Hn).
    destruct ((IMPLEMENTATIONS format).1.1 self EPOCH (PList [])); simpl; by repeat split.
  - rewrite (save_data_phases self format mode filename w Hn). fold name. cbv zeta.
    destruct (peek_phase_files format mode name w) as (Hf & Ho & Hd).
    destruct (peek_phase format mode name w) as [[[W old]|e] w1]; cbn [fst snd] in *.
    2:{ repeat split; try done. intros other _. by rewrite Hf. }
    set (m := (IMPLEMENTATIONS format).2).
    destruct ((IMPLEMENTATIONS format).1.1 self W old) as [text|e]; cbn [fst snd].
    + destruct (write_text_other name text w1 m) as (Ho' & _ & Hd').
      rewrite Hd', Hd, Ho', Ho. repeat split; try done.
      intros other Hne.
      destruct (open_write_lookup FL name other text m w1 Hne) as [_ ->].
      by rewrite Hf.
    + assert (db (open_for_writing name m w1) = db w1
              /\ stdout (open_for_writing name m w1) = stdout w1) as [-> ->]
        by by destruct m.
      repeat split; try done.
      intros other Hne.
      destruct (open_write_lookup FL name other [] m w1 Hne) as [-> _].
      by rewrite Hf.
Qed.

(** X9. Strict mode never writes over a file: when the target exists the
    program says so on the error stream and exits with status 1, and files,
    standard output and store are as before. *)
Theorem X9_strict_keeps_existing_file (FL : PyFloat) (JS : JsonCodec)
    (self : MarketData FL) (format : file_format) (filename : option str)
    (w : world FL) (content : str) :
  let name := target self format filename in
  name <> ("-" : str) -> files w !! name = Some content ->
  save_data self (Some format) strict filename w
  = (Raise (SystemExit 1),
     mk_world (files w) (stdout w)
       (stderr w ++ ("File " ++ name ++ " already exists. Use --append or --overwrite.")
                 ++ [LF])
       (db w)).
Proof.
  intros name Hn Hf. rewrite (save_data_phases self format strict filename w Hn).
  fold name. cbv zeta. unfold peek_phase. by rewrite Hf.
Qed.

Lemma X9_strict_keeps_existing_file_witness :
  save_data ABBN (Some csv) strict None (with_file "ABBN.csv" earlier_csv)
  = (Raise (SystemExit 1),
     mk_world (files (with_file "ABBN.csv" earlier_csv)) []
       ("File ABBN.csv already exists. Use --append or --overwrite." ++ [LF])
       no_store).
Proof.
  apply (X9_strict_keeps_existing_file DecFloat MiniJson ABBN csv None
           (with_file "ABBN.csv" earlier_csv) earlier_csv).
  - discriminate.
  - reflexivity.
Defined.

Lemma _peek_csv_Raise (FL : PyFloat) content e :
  _peek_csv content = Raise e -> e = BrokenFile.
Proof.
  unfold _peek_csv.
  destruct (last (lines_of (universal_newlines content))) as [l|]; [|done].
  destruct (index (split SEMI l) 0) as [x|e'] eqn:Ei; simpl.
  - destruct (parse_datetime x) as [d|e'] eqn:Ep; simpl; [done|].
    apply parse_datetime_Raise in Ep as ->. by intros [= <-].
  - apply index_Raise in Ei as [_ ->]. by intros [= <-].
Qed.

Lemma _peek_json_Raise (FL : PyFloat) (JS : JsonCodec) content e :
  _peek_json content = Raise e -> e = BrokenFile.
Proof.
  unfold _peek_json. intros H. apply (reraise_all _ _ H). clear H. intros x.
  destruct (json_loads (universal_newlines content)) as [od|]; simpl; [|by intros [= <-]].
  destruct (getitem od _) as [old|e'] eqn:Eg; simpl.
  2:{ intros [= <-]. destruct od; simpl in Eg; try by injection Eg as <-.
      destruct (assoc _ _); simpl in Eg; [done|by injection Eg as <-]. }
  destruct (py_truth old); simpl; [|done].
  destruct (getitem_last old) as [l|e'] eqn:El; simpl.
  2:{ intros [= <-]. destruct old; simpl in El; try by injection El as <-.
      - destruct (last s); simpl in El; [done|by injection El as <-].
      - destruct (last l); simpl in El; [done|by injection El as <-]. }
  destruct (getitem_first l) as [y|e'] eqn:Ef; simpl.
  2:{ intros [= <-]. destruct l; simpl in Ef; try by injection Ef as <-.
      - destruct (head s); simpl in Ef; [done|by injection Ef as <-].
      - destruct (head l); simpl in Ef; [done|by injection Ef as <-]. }
  destruct (py_parse_datetime y) as [d|e'] eqn:Ep; simpl; [done|].
  intros [= <-]. destruct y; simpl in Ep; try by injection Ep as <-.
  by apply parse_datetime_Raise in Ep as ->.
Qed.

(** X10. Peeking at a file fails in one way only, with BrokenFile, and an
    append onto a file that cannot be peeked at gives the file up: the
    program says on the error stream that the format is broken and exits
    with status 1, and files, standard output and store are as before. *)
Theorem X10_append_gives_up_on_broken_file (FL : PyFloat) (JS : JsonCodec)
    (self : MarketData FL) (format : file_format) (filename : option str)
    (w : world FL) (content : str) (e : exn) :
  let name := target self format filename in
  name <> ("-" : str) -> files w !! name = Some content ->
  match format with csv => _peek_csv content | json => _peek_json content end = Raise e ->
  e = BrokenFile
  /\ save_data self (Some format) append filename w
     = (Raise (SystemExit 1),
        mk_world (files w) (stdout w)
          (stderr w ++ ("File " ++ name ++ " format is broken. Remove it or use --overwrite.")
                    ++ [LF])
          (db w)).
Proof.
  intros name Hn Hf Hp.
  assert (e = BrokenFile) as ->.
  { destruct format; [by apply _peek_csv_Raise in Hp|by apply _peek_json_Raise in Hp]. }
  split; [done|].
  rewrite (save_data_phases self format append filename w Hn).
  fold name. cbv zeta. unfold peek_phase. rewrite Hf.
  destruct format; cbn [IMPLEMENTATIONS fst snd]; by rewrite Hp.
Qed.

(** A json file cut in the middle *)
Lemma X10_append_gives_up_on_broken_file_witness :
  save_data ABBN (Some json) append None (with_file "ABBN.json" "{")
  = (Raise (SystemExit 1),
     mk_world (files (with_file "ABBN.json" "{")) []
       ("File ABBN.json format is broken. Remove it or use --overwrite." ++ [LF])
       no_store).
Proof.
  apply (X10_append_gives_up_on_broken_file DecFloat MiniJson ABBN json None
           (with_file "ABBN.json" "{") ("{" : str) BrokenFile).
  - discriminate.
  - reflexivity.
  - reflexivity.
Defined.

(** X11. An append can cost a json file its content: when the ticks of the
    document are a value that is false and cannot be iterated (null, false
    or zero) the peek succeeds with watermark EPOCH, the file is opened for
    writing, which empties it, and chaining the old ticks raises TypeError
    before anything is written. *)
Theorem X11_append_empties_json_without_ticks (FL : PyFloat) (JS : JsonCodec)
    (self : MarketData FL) (filename : option str) (w : world FL)
    (content : str) (od old : pyval FL) :
  let name := target self json filename in
  name <> ("-" : str) -> files w !! name = Some content ->
  json_loads (universal_newlines content) = Some od ->
  getitem od "ticks" = Ok old ->
  py_truth old = false -> ends_with (py_iter old) <> None ->
  save_data self (Some json) append filename w
  = (Raise TypeError, set_files (<[name := []]> (files w)) w).
Proof.
  intros name Hn Hf Hl Hg Ht Hi.
  assert (_peek_json content = Ok (EPOCH, old)) as Hp.
  { apply _peek_json_Ok. exists od. split; [done|]. split; [done|].
    unfold watermark_of. by rewrite Ht. }
  rewrite (save_data_file self json append filename w EPOCH old Hn);
    [|by apply (start_append_Ok json _ w content)].
  fold name. cbv zeta. cbn [IMPLEMENTATIONS fst snd]. unfold _write_json, list_of.
  destruct old; simpl in Hi; try done.
Qed.

Lemma X11_append_empties_json_without_ticks_witness :
  save_data ABBN (Some json) append None
    (with_file "ABBN.json" (json_dumps (PDict [("ticks" : str, PNone)])))
  = (Raise TypeError, with_file "ABBN.json" []).
Proof.
  refine (eq_trans
            (X11_append_empties_json_without_ticks DecFloat MiniJson ABBN None
               (with_file "ABBN.json" (json_dumps (PDict [("ticks" : str, PNone)])))
               (json_dumps (PDict [("ticks" : str, PNone)]))
               (PDict [("ticks" : str, PNone)]) PNone _ _ _ _ _ _) _).
  - discriminate.
  - reflexivity.
  - reflexivity.
  - reflexivity.
  - reflexivity.
  - discriminate.
  - evaluate.
Defined.

(** X12. With '-' as file name the rows go to the standard output whatever
    the mode: no file is read or changed, a file named '-' included, and
    what is printed is the text of the records after EPOCH, the csv rows or
    the json document. *)
Theorem X12_save_data_to_stdout (FL : PyFloat) (JS : JsonCodec)
    (self : MarketData FL) (mode : write_mode) (w : world FL) :
  save_data self (Some csv) mode (Some ("-" : str)) w
  = (Ok tt,
     mk_world (files w)
       (stdout w ++ csv_writerows (map csv_row (encoded_rows self EPOCH)))
       (stderr w) (db w))
  /\ save_data self (Some json) mode (Some ("-" : str)) w
     = (Ok tt,
        mk_world (files w)
          (stdout w
           ++ json_dumps (PDict [("symbol" : str, symbol self); ("isin" : str, isin self);
                                 ("ticks" : str,
                                  PList (map json_row (encoded_rows self EPOCH)))]))
          (stderr w) (db w)).
Proof.
  split.
  - by rewrite (save_data_stdout self csv mode (Some ("-" : str)) w).
  - by rewrite (save_data_stdout self json mode (Some ("-" : str)) w).
Qed.

(** ** Reading a json file *)

Lemma tick_of_row_Raise (FL : PyFloat) (row : pyval FL) e :
  (forall x e', int_of_float x = Raise e' -> e' = OverflowError \/ e' = ValueError) ->
  tick_of_row row = Raise e -> e = TypeError \/ e = ValueError \/ e = OverflowError.
Proof.
  intros Hint. unfold tick_of_row, unpack3, list_of.
  destruct (ends_with (py_iter row)) as [e'|] eqn:Ee; simpl.
  { intros [= <-]. destruct row; simpl in Ee; try done; injection Ee as <-; by left. }
  destruct (yields (py_iter row)) as [|dt [|price [|volume [|x r]]]]; simpl;
    try (intros [= <-]; right; by left).
  destruct (py_parse_datetime dt) as [d|e'] eqn:Ed; simpl.
  2:{ intros [= <-]. destruct dt; simpl in Ed; try (injection Ed as <-; by left).
      apply parse_datetime_Raise in Ed as ->. right; by left. }
  destruct (py_float price) as [p|e'] eqn:Ep; simpl.
  2:{ intros [= <-].
      destruct price; simpl in Ep; try (injection Ep as <-; by left);
        match type of Ep with
        | of_option _ ?o = _ => destruct o; simpl in Ep; [done|injection Ep as <-]
        | _ => idtac
        end; try (right; by left); try (right; by right); done. }
  destruct (py_int volume) as [v|e'] eqn:Ev; simpl; [done|].
  intros [= <-]. destruct volume; simpl in Ev; try (injection Ev as <-; by left); try done.
  - destruct (Hint _ _ Ev) as [->| ->]; [right; by right|right; by left].
  - destruct (int_of_str s); simpl in Ev; [done|injection Ev as <-]. right; by left.
Qed.

Lemma getitem_Raise (FL : PyFloat) (v : pyval FL) key e :
  getitem v key = Raise e ->
  (e = KeyError /\ exists items, v = PDict items /\ assoc key items = None)
  \/ (e = TypeError /\ forall items, v <> PDict items).
Proof.
  destruct v as [| | | | | |items]; simpl; try (intros [= <-]; right; by split).
  destruct (assoc key items) eqn:E; simpl; [done|].
  intros [= <-]. left. split; [done|]. by eexists.
Qed.

(** X14. What [_read_json] reports as BrokenFile and what it lets through.
    A text that is no json and a document that lacks one of the keys
    symbol, isin and ticks give BrokenFile, and so does a row of the wrong
    length or with a text that does not parse. A document that is no
    object gives TypeError instead, and whatever the file holds the read
    fails only with BrokenFile, TypeError or OverflowError (the float
    library raising OverflowError or ValueError when a float has no
    integer value). *)
Theorem X14_read_json_failures (FL : PyFloat) (JS : JsonCodec) (content : str) :
  (forall x e', int_of_float x = Raise e' -> e' = OverflowError \/ e' = ValueError) ->
  (forall e, _read_json content = Raise e ->
             e = BrokenFile \/ e = TypeError \/ e = OverflowError)
  /\ (json_loads (universal_newlines content) = None ->
      _read_json content = Raise BrokenFile)
  /\ (forall items key,
        json_loads (universal_newlines content) = Some (PDict items) ->
        key ∈ [("symbol" : str); ("isin" : str); ("ticks" : str)] ->
        assoc key items = None ->
        _read_json content = Raise BrokenFile)
  /\ (forall od,
        json_loads (universal_newlines content) = Some od ->
        (forall items, od <> PDict items) ->
        _read_json content = Raise TypeError).
Proof.
  intros Hint. unfold _read_json. split; [|split; [|split]].
  - intros e.
    destruct (json_loads (universal_newlines content)) as [od|]; cbn [bind of_option];
      [|intros [= <-]; by left].
    destruct (getitem od "symbol") as [s|e1] eqn:Es; cbn [bind].
    2:{ apply getitem_Raise in Es as [[-> _]|[-> _]]; simpl; intros [= <-]; auto. }
    destruct (getitem od "isin") as [i|e1] eqn:Ei; cbn [bind].
    2:{ apply getitem_Raise in Ei as [[-> _]|[-> _]]; simpl; intros [= <-]; auto. }
    destruct (getitem od "ticks") as [t|e1] eqn:Et; cbn [bind].
    2:{ apply getitem_Raise in Et as [[-> _]|[-> _]]; simpl; intros [= <-]; auto. }
    unfold from_rows.
    destruct (map_result tick_of_row (yields (py_iter t))) as [rows|e1] eqn:Em; cbn [bind].
    + destruct (ends_with (py_iter t)) as [e1|] eqn:Ee; [|done].
      assert (e1 = TypeError) as ->
        by (destruct t; simpl in Ee; try done; by injection Ee as <-).
      simpl. intros [= <-]. auto.
    + apply map_result_Raise in Em as (row & _ & Hrow).
      apply (tick_of_row_Raise FL row e1 Hint) in Hrow as [->|[->| ->]];
        simpl; intros [= <-]; auto.
  - by intros ->.
  - intros items key -> Hkey Hnone. cbn [bind of_option getitem].
    repeat (apply elem_of_cons in Hkey as [->|Hkey]);
      [| | |by apply elem_of_nil in Hkey].
    + by rewrite Hnone.
    + destruct (assoc "symbol" items); cbn [bind of_option]; [|done]. by rewrite Hnone.
    + destruct (assoc "symbol" items); cbn [bind of_option]; [|done].
      destruct (assoc "isin" items); cbn [bind of_option]; [|done]. by rewrite Hnone.
  - intros od -> Hod. simpl. destruct od as [| | | | | |items]; try done.
    by destruct (Hod items).
Qed.

(** A json file that holds a list *)
Lemma X14_read_json_failures_witness :
  @_read_json DecFloat MiniJson "[]" = Raise TypeError.
Proof.
  refine (proj2 (proj2 (proj2 (X14_read_json_failures DecFloat MiniJson ("[]" : str) _)))
            (PList []) _ _).
  - intros x e'. destruct x; simpl; intros [= <-]; auto.
  - reflexivity.
  - discriminate.
Defined.

(** ** Loading a file *)

Lemma rfind_None c s : Forall (fun x => x <> c) s -> rfind c s = None.
Proof.
  induction 1 as [|x s Hx _ IH]; [done|]. simpl. rewrite IH.
  destruct (chr_eqb x c) eqn:E; [|done]. by apply chr_eqb_eq in E.
Qed.

Lemma rfind_last c a b :
  Forall (fun x => x <> c) b -> rfind c (a ++ c :: b) = Some (length a).
Proof.
  intros Hb. induction a as [|x a IH]; simpl.
  - by rewrite (rfind_None c b Hb), chr_eqb_refl.
  - by rewrite IH.
Qed.

Lemma load_data_frame (FL : PyFloat) (JS : JsonCodec) filename symbol_or_isin format
    (w : world FL) :
  files (load_data filename symbol_or_isin format w).2 = files w
  /\ stdout (load_data filename symbol_or_isin format w).2 = stdout w
  /\ db (load_data filename symbol_or_isin format w).2 = db w
  /\ (forall md, (load_data filename symbol_or_isin format w).1 = Ok md ->
                 (load_data filename symbol_or_isin format w).2 = w).
Proof.
  unfold load_data, _exit.
  destruct format as [f|];
    [|destruct (rsplit_dot filename) as [|a [|ext [|? ?]]];
      [| |destruct (format_of_name ext)|]];
    cbv beta iota zeta;
  repeat match goal with
         | |- context [match ?x with _ => _ end] => destruct x
         | |- context [if ?x then _ else _] => destruct x
         end; simpl; repeat split; try done; by destruct w.
Qed.

(** X15. Loading a file reads and changes nothing else: whatever the file
    name, the stock named and the format, files, standard output and store
    are as before, and when a series is returned the error stream is as
    before too. *)
Theorem X15_load_data_reads_only (FL : PyFloat) (JS : JsonCodec) (filename : str)
    (symbol_or_isin : option str) (format : option file_format) (w : world FL) :
  let r := load_data filename symbol_or_isin format w in
  files r.2 = files w /\ stdout r.2 = stdout w /\ db r.2 = db w
  /\ (forall md, r.1 = Ok md -> r.2 = w).
Proof. intros r. unfold r. apply load_data_frame. Qed.

Lemma rsplit_dot_app root ext :
  Forall (fun c => c <> "."%char) ext ->
  rsplit_dot (root ++ "."%char :: ext) = [root; ext].
Proof.
  intros Hext. unfold rsplit_dot. rewrite (rfind_last "." root ext Hext).
  f_equal; [|f_equal]; induction root as [|x root IH]; simpl; by rewrite ?IH.
Qed.

Lemma rsplit_dot_None s : Forall (fun c => c <> "."%char) s -> rsplit_dot s = [s].
Proof. intros H. unfold rsplit_dot. by rewrite rfind_None. Qed.

(** X16. What [load_data] refuses, in the order it checks. Without a
    format, a file name without a dot raises ValueError and a file name
    whose text after the last dot is neither json nor csv makes the program
    exit, both before the file is looked for; with a format known, a file
    that does not exist and a file the reader finds broken make the
    program exit. Every exit has status 1 and its message on the error
    stream, and leaves the rest as it was. *)
Theorem X16_load_data_refusals (FL : PyFloat) (JS : JsonCodec)
    (symbol_or_isin : option str) (w : world FL) :
  (forall filename : str,
     Forall (fun c => c <> "."%char) filename ->
     load_data filename symbol_or_isin None w = (Raise ValueError, w))
  /\ (forall root ext : str,
        Forall (fun c => c <> "."%char) ext ->
        ext <> ("json" : str) -> ext <> ("csv" : str) ->
        load_data (root ++ "." ++ ext) symbol_or_isin None w
        = (Raise (SystemExit 1),
           _warn ("Don't know how to read *." ++ ext ++ " files. "
                  ++ "Try specifying format explicitely with --csv or --json.") w))
  /\ (forall (filename : str) format,
        files w !! filename = None ->
        load_data filename symbol_or_isin (Some format) w
        = (Raise (SystemExit 1), _warn ("File " ++ filename ++ " not found.") w))
  /\ (forall (filename content : str) format,
        files w !! filename = Some content ->
        READERS format content = Raise BrokenFile ->
        load_data filename symbol_or_isin (Some format) w
        = (Raise (SystemExit 1), _warn ("File " ++ filename ++ " format is broken.") w)).
Proof.
  split; [|split; [|split]].
  - intros filename Hf. unfold load_data. by rewrite rsplit_dot_None.
  - intros root ext Hext Hj Hc. unfold load_data.
    change (root ++ "." ++ ext) with (root ++ "."%char :: ext).
    rewrite (rsplit_dot_app root ext Hext).
    unfold format_of_name. by rewrite !bool_decide_eq_false_2.
  - intros filename format Hf. unfold load_data. by rewrite Hf.
  - intros filename content format Hf Hr. unfold load_data. by rewrite Hf, Hr.
Qed.

Lemma X16_load_data_refusals_witness :
  load_data "ticks.xml" None None empty_world
  = (Raise (SystemExit 1),
     _warn ("Don't know how to read *.xml files. "
            ++ "Try specifying format explicitely with --csv or --json.") empty_world).
Proof.
  apply (proj1 (proj2 (X16_load_data_refusals DecFloat MiniJson None empty_world))
           ("ticks" : str) ("xml" : str)).
  - repeat constructor; discriminate.
  - discriminate.
  - discriminate.
Defined.

Lemma basename_app dir base :
  dir = [] \/ (exists d, dir = d ++ ["/"%char]) ->
  Forall (fun c => c <> "/"%char) base ->
  basename (dir ++ base) = base.
Proof.
  intros [->|[d ->]] Hb; unfold basename.
  - simpl. by rewrite rfind_None.
  - rewrite <- app_assoc. simpl. rewrite (rfind_last "/" d base Hb).
    induction d as [|x d IH]; [done|]. exact IH.
Qed.

Lemma splitext_app base ext :
  base <> [] -> Forall (fun c => c <> "/"%char /\ c <> "."%char) base ->
  Forall (fun c => c <> "/"%char /\ c <> "."%char) ext ->
  splitext (base ++ "."%char :: ext) = (base, "."%char :: ext).
Proof.
  intros Hne Hb He. unfold splitext.
  rewrite (rfind_last "." base ext) by (eapply Forall_impl; [exact He|by intros c [_ ?]]).
  rewrite (rfind_None "/").
  2:{ apply Forall_app. split; [eapply Forall_impl; [exact Hb|by intros c [? _]]|].
      constructor; [done|]. eapply Forall_impl; [exact He|by intros c [? _]]. }
  rewrite bool_decide_eq_true_2 by lia.
  rewrite Nat.sub_0_r. simpl drop.
  assert (take (length base) (base ++ "."%char :: ext) = base) as Htake
    by (clear; induction base as [|x b IH]; simpl; by rewrite ?IH).
  assert (drop (length base) (base ++ "."%char :: ext) = "."%char :: ext) as Hdrop
    by (clear; induction base as [|x b IH]; simpl; by rewrite ?IH).
  rewrite Htake, Hdrop.
  destruct base as [|c base]; [done|]. simpl.
  apply Forall_cons in Hb as [[_ Hc] _].
  destruct (chr_eqb c ".") eqn:E; [by apply chr_eqb_eq in E|done].
Qed.

(** X17. A csv file is loaded under the stock its name gives: with no
    format and no stock named, a file [dir/BASE.csv] that reads as csv is
    returned with the symbol and the isin of the stock that BASE finds in
    the update list, the directory playing no part; when BASE finds no
    stock the program exits with status 1. *)
Theorem X17_load_csv_by_file_name (FL : PyFloat) (JS : JsonCodec)
    (dir base content : str) (md : MarketData FL) (w : world FL) :
  dir = [] \/ (exists d, dir = d ++ ["/"%char]) ->
  base <> [] -> Forall (fun c => c <> "/"%char /\ c <> "."%char) base ->
  let filename := dir ++ base ++ ".csv" in
  files w !! filename = Some content ->
  _read_csv content = Ok md ->
  load_data filename None None w
  = match find_stock base w with
    | Some st => (Ok (mk_MarketData (s_symbol st) (s_isin st) (data md)), w)
    | None =>
        (Raise (SystemExit 1),
         _warn ("Can't guess stock for " ++ filename ++ " file. Use --as to specify.") w)
    end.
Proof.
  intros Hdir Hne Hb filename Hf Hr. unfold load_data.
  assert (rsplit_dot filename = [dir ++ base; ("csv" : str)]) as ->.
  { unfold filename. rewrite app_assoc. apply (rsplit_dot_app (dir ++ base) "csv").
    repeat constructor; discriminate. }
  change (format_of_name "csv") with (Some csv). cbv beta iota zeta.
  rewrite Hf. cbn [READERS]. rewrite Hr.
  apply _read_csv_Ok in Hr as (Hs & _ & _). rewrite Hs. cbn [py_truth].
  assert (basename filename = base ++ ".csv") as ->.
  { unfold filename. apply basename_app; [done|].
    apply Forall_app. split; [eapply Forall_impl; [exact Hb|by intros c [? _]]|].
    repeat constructor; discriminate. }
  change (base ++ ".csv") with (base ++ "."%char :: "csv").
  rewrite splitext_app; [|done|done|repeat constructor; discriminate]. cbn [fst].
  by destruct (find_stock base w).
Qed.

Lemma X17_load_csv_by_file_name_witness :
  load_data "data/ABBN.csv" None None
    (with_file_and_store "data/ABBN.csv" ABBN_csv ABBN_listed)
  = (Ok ABBN, with_file_and_store "data/ABBN.csv" ABBN_csv ABBN_listed).
Proof.
  refine (eq_trans
            (X17_load_csv_by_file_name DecFloat MiniJson ("data/" : str) ("ABBN" : str)
               ABBN_csv (mk_MarketData PNone PNone (data ABBN))
               (with_file_and_store "data/ABBN.csv" ABBN_csv ABBN_listed) _ _ _ _ _) _).
  - right. by exists ("data" : str).
  - discriminate.
  - repeat constructor; discriminate.
  - reflexivity.
  - evaluate.
  - reflexivity.
Defined.

(** X18. With a stock named it is the name that counts, not the file: a
    csv file that reads is returned under the symbol and the isin of the
    stock the name finds, and when the name finds none the program exits
    with status 1, saying that the stock is not registered. *)
Theorem X18_load_csv_as_named_stock (FL : PyFloat) (JS : JsonCodec)
    (filename name content : str) (md : MarketData FL) (w : world FL) :
  name <> [] ->
  files w !! filename = Some content ->
  _read_csv content = Ok md ->
  load_data filename (Some name) (Some csv) w
  = match find_stock name w with
    | Some st => (Ok (mk_MarketData (s_symbol st) (s_isin st) (data md)), w)
    | None =>
        (Raise (SystemExit 1),
         _warn ("Stock " ++ name ++ " not registered in database.") w)
    end.
Proof.
  intros Hne Hf Hr. unfold load_data. rewrite Hf. cbn [READERS]. rewrite Hr.
  apply _read_csv_Ok in Hr as (Hs & _ & _). rewrite Hs. cbn [py_truth].
  destruct name as [|c name]; [done|]. by destruct (find_stock (c :: name) w).
Qed.

Lemma X18_load_csv_as_named_stock_witness :
  load_data "ticks.txt" (Some ("CH0012221716" : str)) (Some csv)
    (with_file_and_store "ticks.txt" ABBN_csv ABBN_listed)
  = (Ok ABBN, with_file_and_store "ticks.txt" ABBN_csv ABBN_listed).
Proof.
  refine (eq_trans
            (X18_load_csv_as_named_stock DecFloat MiniJson ("ticks.txt" : str)
               ("CH0012221716" : str) ABBN_csv (mk_MarketData PNone PNone (data ABBN))
               (with_file_and_store "ticks.txt" ABBN_csv ABBN_listed) _ _ _) _).
  - discriminate.
  - reflexivity.
  - evaluate.
  - reflexivity.
Defined.

(** X19. A json file that names its symbol is taken at its word: when the
    symbol read from the file is a true value the series is returned as
    read, the update list is not consulted and a stock named on the
    command line is ignored. *)
Theorem X19_load_json_keeps_its_identity (FL : PyFloat) (JS : JsonCodec)
    (filename content : str) (symbol_or_isin : option str)
    (md : MarketData FL) (w : world FL) :
  files w !! filename = Some content ->
  _read_json content = Ok md -> py_truth (symbol md) = true ->
  load_data filename symbol_or_isin (Some json) w = (Ok md, w).
Proof.
  intros Hf Hr Ht. unfold load_data. rewrite Hf. cbn [READERS]. by rewrite Hr, Ht.
Qed.

(** The json file of ABBN loaded as another stock, into an empty store *)
Lemma X19_load_json_keeps_its_identity_witness :
  load_data "x.json" (Some ("NESN" : str)) (Some json)
    (with_file "x.json" (json_dumps (document ABBN (map json_row (map encode (data ABBN))))))
  = (Ok ABBN,
     with_file "x.json" (json_dumps (document ABBN (map json_row (map encode (data ABBN)))))).
Proof.
  apply (X19_load_json_keeps_its_identity DecFloat MiniJson ("x.json" : str)
           (json_dumps (document ABBN (map json_row (map encode (data ABBN)))))).
  - reflexivity.
  - evaluate.
  - reflexivity.
Defined.

(** ** Commands on files and the store *)

Lemma load_data_ext (FL : PyFloat) (JS : JsonCodec) filename symbol_or_isin format
    (w w' : world FL) :
  files w' = files w -> stocks (db w') = stocks (db w) ->
  (load_data filename symbol_or_isin format w').1
  = (load_data filename symbol_or_isin format w).1.
Proof.
  intros Hf Hs. unfold load_data, _exit. rewrite Hf.
  destruct format as [f|];
    [|destruct (rsplit_dot filename) as [|a [|ext [|? ?]]];
      [| |destruct (format_of_name ext)|]];
    cbv beta iota zeta; try done;
    (destruct (files w !! filename) as [content|]; [|done];
     destruct (READERS _ content) as [md|e]; [|by destruct (is_exn_BrokenFile e)];
     destruct (py_truth (symbol md)); [done|];
     rewrite (find_stock_stocks FL _ w w' Hs);
     destruct (find_stock _ w); [done|];
     by destruct symbol_or_isin as [[|]|]).
Qed.

(** X20. Loading a file into the store twice is loading it once: when
    [do_load] succeeds, running it again with the same arguments succeeds
    and leaves files, streams and store as the first run left them. *)
Theorem X20_do_load_twice (FL : PyFloat) (JS : JsonCodec) (symbol_or_isin : option str)
    (filename : str) (format : option file_format) (w : world FL) :
  (do_load symbol_or_isin filename format w).1 = Ok tt ->
  let w1 := (do_load symbol_or_isin filename format w).2 in
  do_load symbol_or_isin filename format w1 = (Ok tt, w1).
Proof.
  intros Hok w1.
  destruct (load_data_frame FL JS filename symbol_or_isin format w) as (_ & _ & _ & Hw).
  assert (exists md, load_data filename symbol_or_isin format w = (Ok md, w)) as [md Hl].
  { unfold do_load in Hok.
    destruct (load_data filename symbol_or_isin format w) as [[md|e] w'] eqn:E; [|done].
    exists md. f_equal. by apply (Hw md). }
  assert (w1 = (save_data_to_db md w).2) as Hw1 by (unfold w1, do_load; by rewrite Hl).
  destruct (save_data_to_db_frame FL md w) as (_ & Hf & _ & _ & Hs).
  assert (load_data filename symbol_or_isin format w1 = (Ok md, w1)) as Hl1.
  { pose proof (load_data_ext FL JS filename symbol_or_isin format w w1) as Hext.
    rewrite Hw1 in Hext at 1 2. specialize (Hext Hf Hs). rewrite Hl in Hext.
    destruct (load_data_frame FL JS filename symbol_or_isin format w1) as (_ & _ & _ & Hw').
    destruct (load_data filename symbol_or_isin format w1) as [r w''] eqn:E.
    simpl in Hext. subst r. f_equal. by apply (Hw' md). }
  unfold do_load. rewrite Hl1, Hw1. apply store_idempotent.
Qed.

(** The csv file of ABBN loaded into a store that lists ABBN *)
Lemma X20_do_load_twice_witness :
  let w := with_file_and_store "ABBN.csv" ABBN_csv ABBN_listed in
  let w1 := (do_load None "ABBN.csv" None w).2 in
  do_load None "ABBN.csv" None w1 = (Ok tt, w1).
Proof.
  apply (X20_do_load_twice DecFloat MiniJson None ("ABBN.csv" : str) None
           (with_file_and_store "ABBN.csv" ABBN_csv ABBN_listed)).
  evaluate.
Defined.

Lemma save_data_db (FL : PyFloat) (JS : JsonCodec) (self : MarketData FL) format mode
    filename (w : world FL) :
  db (save_data self format mode filename w).2 = db w.
Proof.
  destruct format as [format|]; [|done].
  destruct (decide (target self format filename = ("-" : str))) as [Hn|Hn].
  - rewrite (save_data_stdout self format mode filename w Hn).
    by destruct ((IMPLEMENTATIONS format).1.1 self EPOCH (PList [])).
  - rewrite (save_data_phases self format mode filename w Hn). cbv zeta.
    destruct (peek_phase_files format mode (target self format filename) w) as (_ & _ & Hd).
    destruct (peek_phase format mode _ w) as [[[W old]|e] w1]; cbn [fst snd] in *; [|done].
    set (m := (IMPLEMENTATIONS format).2).
    destruct ((IMPLEMENTATIONS format).1.1 self W old) as [text|e]; cbn [fst snd].
    + destruct (write_text_other (target self format filename) text w1 m) as (_ & _ & ->).
      done.
    + rewrite <- Hd. by destruct m.
Qed.

Lemma load_data_from_db_ext (FL : PyFloat) name from_ to (w w' : world FL) md :
  db w' = db w ->
  load_data_from_db name from_ to w = (Ok md, w) ->
  load_data_from_db name from_ to w' = (Ok md, w').
Proof.
  intros Hd. unfold load_data_from_db, find_stock. rewrite Hd.
  destruct (head _) as [st|]; [|done]. by intros [= <-].
Qed.

(** X21. Exporting a stock in append mode twice is exporting it once. The
    series the store reader returns is sorted, so when its timestamps are
    valid, of a four-digit year and of whole seconds and the first export
    succeeds, a second export with the same arguments leaves files,
    streams and store as the first left them: for a csv file that was
    empty or ended with a newline and prices whose text needs no quoting,
    and for a json file whose document the json library reads back. *)
Theorem X21_do_export_append_twice (FL : PyFloat) (JS : JsonCodec) (name : str)
    (from_ to : option datetime) (filename : option str) (w : world FL)
    (md : MarketData FL) :
  load_data_from_db name from_ to w = (Ok md, w) ->
  Forall storable (data md) ->
  (let file := target md csv filename in
   file <> ("-" : str) ->
   (do_export name from_ to (Some csv) append filename w).1 = Ok tt ->
   Forall plain_price (data md) ->
   ends_line (default [] (files w !! file)) ->
   let w1 := (do_export name from_ to (Some csv) append filename w).2 in
   do_export name from_ to (Some csv) append filename w1 = (Ok tt, w1))
  /\ (let file := target md json filename in
      file <> ("-" : str) ->
      (do_export name from_ to (Some json) append filename w).1 = Ok tt ->
      (forall W old items,
         start json append file w = Ok (W, old) -> list_of (py_iter old) = Ok items ->
         reads_back (document md (items ++ map json_row (written_rows md W)))) ->
      let w1 := (do_export name from_ to (Some json) append filename w).2 in
      do_export name from_ to (Some json) append filename w1 = (Ok tt, w1)).
Proof.
  intros Hl Hst.
  assert (ascending (data md)) as Hasc by by apply (load_data_from_db_sorted _ _ _ _ _ _ Hl).
  assert (forall format, do_export name from_ to format append filename w
                         = save_data md format append filename w) as Hex
    by (intros format; unfold do_export; by rewrite Hl).
  split.
  - intros file Hn Hok Hp He w1. unfold w1. rewrite Hex in *.
    unfold do_export.
    rewrite (load_data_from_db_ext FL name from_ to w _ md); [|apply save_data_db|done].
    by apply csv_idempotent.
  - intros file Hn Hok Hr w1. unfold w1. rewrite Hex in *.
    unfold do_export.
    rewrite (load_data_from_db_ext FL name from_ to w _ md); [|apply save_data_db|done].
    by apply json_idempotent.
Qed.

(** The stored record of ABBN exported twice to a new csv file *)
Lemma X21_do_export_append_twice_witness :
  let w := with_store first_stored in
  let w1 := (do_export "ABBN" None None (Some csv) append None w).2 in
  do_export "ABBN" None None (Some csv) append None w1 = (Ok tt, w1).
Proof.
  apply (proj1 (X21_do_export_append_twice DecFloat MiniJson ("ABBN" : str) None None None
                  (with_store first_stored)
                  first_only eq_refl ltac:(repeat constructor))).
  - discriminate.
  - evaluate.
  - repeat constructor.
  - by left.
Defined.

(** X22. What is exported to a new file is loaded back from it. When the
    records the store reader returns have valid timestamps of a four-digit
    year and of whole seconds, all after EPOCH, and their text is read
    back by the libraries, an export to a file that does not exist yet
    succeeds, and loading that file for the same stock gives the very
    series that was exported, in either format. *)
Theorem X22_export_then_load (FL : PyFloat) (JS : JsonCodec) (name : str)
    (from_ to : option datetime) (mode : write_mode) (filename : option str)
    (w : world FL) (md : MarketData FL) :
  name <> [] ->
  load_data_from_db name from_ to w = (Ok md, w) ->
  Forall storable (data md) ->
  Forall (fun t => dt_gtb (tick_time t) EPOCH = true) (data md) ->
  (let file := target md csv filename in
   file <> ("-" : str) -> files w !! file = None ->
   Forall csv_price (data md) ->
   let w1 := (do_export name from_ to (Some csv) mode filename w).2 in
   (do_export name from_ to (Some csv) mode filename w).1 = Ok tt
   /\ load_data file (Some name) (Some csv) w1 = (Ok md, w1))
  /\ (let file := target md json filename in
      file <> ("-" : str) -> files w !! file = None ->
      reads_back (document md (map json_row (map encode (data md)))) ->
      let w1 := (do_export name from_ to (Some json) mode filename w).2 in
      (do_export name from_ to (Some json) mode filename w).1 = Ok tt
      /\ load_data file (Some name) (Some json) w1 = (Ok md, w1)).
Proof.
  intros Hne Hl Hst Hep.
  assert (exists st, find_stock name w = Some st
                     /\ symbol md = s_symbol st /\ isin md = s_isin st) as (st & Hfs & Hs & Hi).
  { unfold load_data_from_db in Hl. destruct (find_stock name w) as [st|]; [|done].
    exists st. by injection Hl as <-. }
  assert (forall format, do_export name from_ to format mode filename w
                         = save_data md format mode filename w) as Hex
    by (intros format; unfold do_export; by rewrite Hl).
  assert (forall text file,
            find_stock name (set_files (<[file := text]> (files w)) w) = Some st) as Hfs1
    by (intros; by rewrite <- Hfs).
  assert (mk_MarketData (s_symbol st) (s_isin st) (data md) = md) as Hmd
    by (rewrite <- Hs, <- Hi; by destruct md).
  destruct name as [|c name]; [done|].
  split.
  - intros file Hn Hf Hp w1. unfold w1. rewrite Hex.
    destruct (fresh_csv_roundtrip md mode filename w Hn Hf Hst Hp Hep) as (text & -> & Hr).
    split; [done|]. cbn [snd]. unfold load_data. cbn [files set_files].
    fold file. rewrite lookup_insert_eq. cbn [READERS]. rewrite Hr. cbn [symbol py_truth data].
    by rewrite Hfs1, Hmd.
  - intros file Hn Hf Hr w1. unfold w1. rewrite Hex.
    destruct (fresh_json_roundtrip md mode filename w Hn Hf Hst Hr Hep) as (text & -> & Hrd).
    split; [done|]. cbn [snd]. unfold load_data. cbn [files set_files].
    fold file. rewrite lookup_insert_eq. cbn [READERS]. rewrite Hrd.
    destruct (py_truth (symbol md)); [done|]. by rewrite Hfs1, Hmd.
Qed.

(** The stored record of ABBN exported to new files and loaded back *)
Lemma X22_export_then_load_witness :
  let w := with_store first_stored in
  let md := first_only in
  (let w1 := (do_export "ABBN" None None (Some csv) strict None w).2 in
   (do_export "ABBN" None None (Some csv) strict None w).1 = Ok tt
   /\ load_data "ABBN.csv" (Some ("ABBN" : str)) (Some csv) w1 = (Ok md, w1))
  /\ (let w1 := (do_export "ABBN" None None (Some json) strict None w).2 in
      (do_export "ABBN" None None (Some json) strict None w).1 = Ok tt
      /\ load_data "ABBN.json" (Some ("ABBN" : str)) (Some json) w1 = (Ok md, w1)).
Proof.
  pose proof (X22_export_then_load DecFloat MiniJson ("ABBN" : str) None None strict None
                (with_store first_stored) first_only
                ltac:(discriminate) eq_refl ltac:(repeat constructor)
                ltac:(repeat constructor)) as [Hcsv Hjson].
  split.
  - apply Hcsv; [discriminate|reflexivity|repeat constructor].
  - apply Hjson; [discriminate|reflexivity|]. unfold reads_back. evaluate.
Defined.

(** X23. A batch goes past the subtasks that exit and stops at any other
    failure. [_process_stocks] never ends with SystemExit; when every
    subtask ends or exits all of them are run, in order, each in the world
    the one before left, and the batch succeeds; and the first subtask
    that raises anything else ends the batch with that exception, the
    later subtasks not being run. *)
Theorem X23_process_stocks_suppresses_exits (FL : PyFloat)
    (action : str -> world FL -> result unit * world FL) (names : list str) (w : world FL) :
  (forall c, (_process_stocks action names w).1 <> Raise (SystemExit c))
  /\ ((forall name w0, goes_on (action name w0).1) ->
      _process_stocks action names w
      = (Ok tt, fold_left (fun w0 name => (action name w0).2) names w))
  /\ (forall before name after e,
        names = before ++ name :: after ->
        let w0 := fold_left (fun w0 name => (action name w0).2) before w in
        (forall n w', n ∈ before -> goes_on (action n w').1) ->
        (action name w0).1 = Raise e -> ~ goes_on (Raise e) ->
        _process_stocks action names w = (Raise e, (action name w0).2)).
Proof.
  split; [|split].
  - revert w. induction names as [|name names IH]; intros w c; [done|]. simpl.
    destruct (action name w) as [[[]|e] w']; try apply IH. by destruct e.
  - intros Hgo. revert w. induction names as [|name names IH]; intros w; [done|]. simpl.
    specialize (Hgo name w). destruct (action name w) as [[[]|e] w']; simpl in *;
      [apply IH|]. destruct e; try done; apply IH.
  - intros before name after e -> w0 Hgo He Hno. unfold w0 in *. clear w0.
    revert w Hgo He. induction before as [|b before IH]; intros w Hgo He; simpl in *.
    + destruct (action name w) as [r w']. simpl in He. subst r. by destruct e.
    + assert (goes_on (action b w).1) as Hb by (apply Hgo; by left).
      assert (_process_stocks action (before ++ name :: after) (action b w).2
              = (Raise e, (action name (fold_left (fun w0 n => (action n w0).2) before
                                          (action b w).2)).2)) as Hrest.
      { apply IH; [|done]. intros n w' Hn. apply Hgo. by right. }
      destruct (action b w) as [[[]|eb] w']; simpl in *; [done|].
      destruct eb; try done.
Qed.

Lemma filter_none_negb {A : Type} (f : A -> bool) (l : list A) :
  List.filter f l = [] -> List.filter (fun x => negb (f x)) l = l.
Proof.
  induction l as [|x l IH]; [done|]. simpl. destruct (f x); [done|].
  intros H. simpl. by rewrite IH.
Qed.

Lemma head_filter_filter {A : Type} (p q : A -> bool) (l : list A) x :
  head (List.filter p l) = Some x -> q x = true ->
  head (List.filter p (List.filter q l)) = Some x.
Proof.
  induction l as [|y l IH]; [done|]. simpl. destruct (p y) eqn:Ep; simpl.
  - intros [= ->] Hq. rewrite Hq. simpl. by rewrite Ep.
  - intros Hx Hq. destruct (q y); simpl; [rewrite Ep|]; by apply IH.
Qed.

Lemma join_values_Raise (FL : PyFloat) (values : list (pyval FL)) e :
  join_values values = Raise e -> e = TypeError.
Proof.
  unfold join_values. destruct (map_result _ values) as [parts|e'] eqn:E; [done|].
  simpl. intros [= <-]. apply map_result_Raise in E as (v & _ & Hv). destruct v; congruence.
Qed.

Lemma do_remove_stocks (FL : PyFloat) names purge (w : world FL) :
  stocks (db (do_remove names purge w).2)
  = List.filter (fun st => negb (named names (s_symbol st) (s_isin st))) (stocks (db w))
  /\ files (do_remove names purge w).2 = files w
  /\ insert_calls (db (do_remove names purge w).2) = insert_calls (db w)
  /\ (purge = false -> ticks (db (do_remove names purge w).2) = ticks (db w))
  /\ (purge = true -> (do_remove names purge w).1 = Ok tt ->
      ticks (db (do_remove names purge w).2)
      = List.filter (fun t => negb (named names (t_symbol t) (t_isin t))) (ticks (db w)))
  /\ (forall e, (do_remove names purge w).1 = Raise e -> e = TypeError).
Proof.
  unfold do_remove.
  set (q := fun st : stock FL => is_in names (s_symbol st) || is_in names (s_isin st)).
  change (fun st : stock FL => negb (named names (s_symbol st) (s_isin st)))
    with (fun st => negb (q st)).
  destruct (List.filter q (stocks (db w))) as [|r rs] eqn:Er.
  - rewrite (filter_none_negb q _ Er). cbn [flat_map forallb negb].
    destruct (List.filter _ names); destruct purge; cbn [fst snd];
      try destruct (bool_decide _); by repeat split.
  - destruct (join_values _) as [text|e] eqn:Ej; cbn [fst snd].
    2:{ apply join_values_Raise in Ej as ->. repeat split; try done. by intros e [= <-]. }
    destruct (forallb hashable _); cbn [negb fst snd].
    2:{ repeat split; try done. by intros e [= <-]. }
    destruct (List.filter _ names); destruct purge; cbn [fst snd];
      try destruct (bool_decide _); by repeat split.
Qed.

(** X24. What [remove] and [purge] leave behind. Whatever the outcome, the
    update list afterwards is the list before without the stocks that one
    of the names selects by symbol or by isin, the others in their order:
    no name given finds a stock any more, and a name that found a stock no
    name selects still finds it. Files are not touched; without purge the
    ticks are not touched either, and a purge that succeeds leaves the
    ticks that no name selects. The command fails only with TypeError. *)
Theorem X24_do_remove_leaves (FL : PyFloat) (names : list str) (purge_data : bool)
    (w : world FL) :
  let r := do_remove names purge_data w in
  stocks (db r.2)
  = List.filter (fun st => negb (named names (s_symbol st) (s_isin st))) (stocks (db w))
  /\ (forall n, n ∈ names -> find_stock n r.2 = None)
  /\ (forall m st, find_stock m w = Some st ->
                   named names (s_symbol st) (s_isin st) = false ->
                   find_stock m r.2 = Some st)
  /\ files r.2 = files w
  /\ (purge_data = false -> ticks (db r.2) = ticks (db w))
  /\ (purge_data = true -> r.1 = Ok tt ->
      ticks (db r.2)
      = List.filter (fun t => negb (named names (t_symbol t) (t_isin t))) (ticks (db w)))
  /\ (forall e, r.1 = Raise e -> e = TypeError).
Proof.
  intros r. unfold r.
  destruct (do_remove_stocks FL names purge_data w) as (Hs & Hf & _ & Hk & Hp & He).
  split; [done|]. split; [|split; [|by repeat split]].
  - intros n Hn. unfold find_stock. rewrite Hs.
    match goal with |- head ?l = None => assert (l = []) as ->; [|done] end.
    clear Hs Hf Hk Hp He.
    induction (stocks (db w)) as [|st l IH]; [done|]. simpl.
    destruct (named names (s_symbol st) (s_isin st)) eqn:En; simpl; [exact IH|].
    rewrite IH.
    unfold named, is_in in En. apply orb_false_iff in En as [E1 E2].
    assert (forall v, existsb (fun k => pyval_eqb v (PStr k)) names = false ->
                      pyval_eqb v (PStr n) = false) as Hex.
    { intros v Hv. destruct (pyval_eqb v (PStr n)) eqn:E; [|done].
      rewrite <- Hv. symmetry. apply existsb_exists. exists n.
      split; [by apply list_elem_of_In|done]. }
    by rewrite (Hex _ E1), (Hex _ E2).
  - intros m st Hm Hst. unfold find_stock in *. rewrite Hs.
    apply head_filter_filter; [done|]. by rewrite Hst.
Qed.

(** ** More on files *)

(** X6. Overwrite mode replaces a json file: whatever the target holds, and
    whether it exists or not, afterwards it holds the document of the
    series with the rows of its records after EPOCH, and nothing of what
    it held. *)
Theorem X6_overwrite_replaces_json (FL : PyFloat) (JS : JsonCodec)
    (self : MarketData FL) (filename : option str) (w : world FL) :
  let name := target self json filename in
  name <> ("-" : str) ->
  save_data self (Some json) overwrite filename w
  = (Ok tt,
     set_files
       (<[name := json_dumps
                    (PDict [("symbol" : str, symbol self); ("isin" : str, isin self);
                            ("ticks" : str,
                             PList (map json_row (encoded_rows self EPOCH)))])]>
          (files w)) w).
Proof.
  intros name Hn. rewrite (overwrite_json self filename w Hn).
  unfold written_rows. by rewrite <- encoded_rows_newer.
Qed.

Lemma X6_overwrite_replaces_json_witness :
  file_after "ABBN.json"
    (save_data ABBN (Some json) overwrite None (with_file "ABBN.json" "{"))
  = file_after "ABBN.json" (save_data ABBN (Some json) strict None empty_world).
Proof.
  unfold file_after.
  rewrite (X6_overwrite_replaces_json DecFloat MiniJson ABBN None (with_file "ABBN.json" "{"))
    by discriminate.
  evaluate.
Defined.

(** X13. The mode only matters when the target exists: with '-' as target
    or a target that does not exist yet, append mode and overwrite mode do
    what strict mode does. *)
Theorem X13_modes_agree_without_target (FL : PyFloat) (JS : JsonCodec)
    (self : MarketData FL) (format : file_format) (mode : write_mode)
    (filename : option str) (w : world FL) :
  let name := target self format filename in
  name = ("-" : str) \/ files w !! name = None ->
  save_data self (Some format) mode filename w
  = save_data self (Some format) strict filename w.
Proof.
  intros name H. destruct (decide (name = ("-" : str))) as [Hn|Hn].
  - by rewrite !(save_data_stdout self format _ filename w Hn).
  - destruct H as [H|Hf]; [done|].
    rewrite !(save_data_phases self format _ filename w Hn). fold name. cbv zeta.
    unfold peek_phase. by rewrite Hf.
Qed.

Lemma X13_modes_agree_without_target_witness :
  save_data ABBN (Some csv) append None empty_world
  = save_data ABBN (Some csv) strict None empty_world.
Proof.
  apply (X13_modes_agree_without_target DecFloat MiniJson ABBN csv append None empty_world).
  right. reflexivity.
Defined.

(** X26. The watermark peeked from a file the program wrote is the time of
    the last record written: after the rows of records whose last one has
    a valid timestamp of a four-digit year and a whole second, a csv file
    that was empty or ended with a newline is peeked at that timestamp,
    and so is the json document of these rows, whatever ticks come before
    them, when the json library reads it back. *)
Theorem X26_peek_after_write (FL : PyFloat) (JS : JsonCodec) (self : MarketData FL)
    (l : list tick) (t : tick) :
  storable t ->
  (forall old : str,
     ends_line old -> Forall plain_price (l ++ [t]) ->
     _peek_csv (old ++ csv_writerows (map csv_row (map encode (l ++ [t]))))
     = Ok (tick_time t, PList []))
  /\ (forall items : list (pyval FL),
        let ticks := items ++ map json_row (map encode (l ++ [t])) in
        reads_back (document self ticks) ->
        _peek_json (json_dumps (document self ticks)) = Ok (tick_time t, PList ticks)).
Proof.
  intros Ht. split.
  - intros old Hold Hp. by apply _peek_csv_appended.
  - intros items ticks Hr. apply _peek_json_document; [done|].
    by apply watermark_of_written.
Qed.

Lemma X26_peek_after_write_witness :
  _peek_csv (earlier_csv ++ csv_writerows (map csv_row (map encode (data ABBN))))
  = Ok (on_day 15 24 35 0, PList []).
Proof.
  apply (proj1 (X26_peek_after_write DecFloat MiniJson ABBN
                  [(on_day 15 23 3 0, DFin false 2152 (-2), 5738%Z)]
                  (on_day 15 24 35 0, DFin false 216 (-1), 9010%Z)
                  ltac:(repeat constructor)) earlier_csv).
  - right. exists ("28.07.2014 17:30:00;21.4;1200" : str). evaluate.
  - repeat constructor.
Defined.

(** ** The raw export *)

Lemma span_spec p s w r :
  span p s = (w, r) -> s = w ++ r /\ forallb p w = true.
Proof.
  revert w r. induction s as [|c s IH]; intros w r; simpl.
  - by intros [= <- <-].
  - destruct (p c) eqn:E; [|by intros [= <- <-]].
    destruct (span p s) as [w' r']. intros [= <- <-].
    destruct (IH w' r' eq_refl) as [-> Hw]. simpl. by rewrite E, Hw.
Qed.

Lemma match_header_at_spec s a b :
  match_header_at s = Some (a, b) ->
  a <> [] /\ b <> [] /\ forallb is_word a = true /\ forallb is_word b = true
  /\ exists post, s = "("%char :: a ++ "/"%char :: b ++ ")"%char :: post.
Proof.
  unfold match_header_at. destruct s as [|c s1]; [done|].
  destruct (chr_eqb c "(") eqn:Ec; [|done]. apply chr_eqb_eq in Ec as ->.
  destruct (span is_word s1) as [[|x w1] [|c2 s2]] eqn:E1; try done.
  destruct (chr_eqb c2 "/") eqn:Ec2; [|done]. apply chr_eqb_eq in Ec2 as ->.
  destruct (span is_word s2) as [[|y w2] [|c3 s3]] eqn:E2; try done.
  destruct (chr_eqb c3 ")") eqn:Ec3; [|done]. apply chr_eqb_eq in Ec3 as ->.
  intros [= <- <-]. apply span_spec in E1 as [-> H1]. apply span_spec in E2 as [-> H2].
  repeat split; try done. by exists s3.
Qed.

Lemma re_find_header_spec s a b :
  re_find_header s = Some (a, b) ->
  a <> [] /\ b <> [] /\ forallb is_word a = true /\ forallb is_word b = true
  /\ exists pre post, s = pre ++ "("%char :: a ++ "/"%char :: b ++ ")"%char :: post.
Proof.
  induction s as [|c s IH].
  - simpl. done.
  - cbn [re_find_header]. destruct (match_header_at (c :: s)) as [[a' b']|] eqn:E.
    + intros [= -> ->]. apply match_header_at_spec in E as (Ha & Hb & Hwa & Hwb & post & E).
      repeat split; try done. exists [], post. by rewrite E.
    + intros H. destruct (IH H) as (Ha & Hb & Hwa & Hwb & pre & post & ->).
      repeat split; try done. by exists (c :: pre), post.
Qed.

(** X25. The identity a raw export gives. When an export parses, the
    symbol and the isin returned are the two words between the brackets of
    a text (SYMBOL/ISIN) that stands in the first field of its first line;
    both are non-empty and made of letters, digits and underscores only,
    so the symbol is never a false value. *)
Theorem X25_grab_identity (FL : PyFloat) (raw : str) (md : MarketData FL) :
  grab_from raw = Ok md ->
  exists (a b : str) parsed h0 r0 pre post,
    symbol md = PStr a /\ isin md = PStr b
    /\ a <> [] /\ b <> [] /\ forallb is_word a = true /\ forallb is_word b = true
    /\ _parse_csv raw = Ok parsed /\ parsed !! 0%nat = Some (h0 :: r0)
    /\ h0 = pre ++ "("%char :: a ++ "/"%char :: b ++ ")"%char :: post
    /\ py_truth (symbol md) = true.
Proof.
  unfold grab_from. destruct (_parse_raw raw) as [[[a b] ticks]|e] eqn:E; [|done].
  simpl. intros [= <-].
  apply _parse_raw_Ok in E as (parsed & h0 & r0 & h1 & r1 & rows & Hc & H0 & Hh & _).
  apply re_find_header_spec in Hh as (Ha & Hb & Hwa & Hwb & pre & post & Hs).
  exists a, b, parsed, h0, r0, pre, post. repeat split; try done.
  simpl. by destruct a.
Qed.

Lemma X25_grab_identity_witness :
  exists (a b : str) parsed h0 r0 pre post,
    symbol ABBN = PStr a /\ isin ABBN = PStr b
    /\ a <> [] /\ b <> [] /\ forallb is_word a = true /\ forallb is_word b = true
    /\ _parse_csv ABBN_export = Ok parsed /\ parsed !! 0%nat = Some (h0 :: r0)
    /\ h0 = pre ++ "("%char :: a ++ "/"%char :: b ++ ")"%char :: post
    /\ py_truth (symbol ABBN) = true.
Proof.
  apply (X25_grab_identity DecFloat ABBN_export ABBN). evaluate.
Defined.



(** ** Listing the update list *)

(** X28. [list] prints the update list and changes nothing else: one line
    per stock, the symbol, a tab and the isin, in the order of the list,
    after what the standard output held; files and store are as before,
    and the error stream gets a warning exactly when the list is empty. *)
Theorem X28_do_list_prints_update_list (FL : PyFloat) (w : world FL) :
  do_list w
  = (Ok tt,
     mk_world (files w)
       (stdout w
        ++ flat_map (fun st => py_str (s_symbol st) ++ ["009"%char] ++ py_str (s_isin st)
                               ++ [LF])
             (stocks (db w)))
       (stderr w ++ match stocks (db w) with
                    | [] => "Update list is empty" ++ [LF]
                    | _ => []
                    end)
       (db w)).
Proof.
  unfold do_list.
  assert (forall (l : list (stock FL)) (w0 : world FL),
            fold_left (fun w1 st => print (py_str (s_symbol st) ++ ["009"%char]
                                           ++ py_str (s_isin st)) w1) l w0
            = mk_world (files w0)
                (stdout w0
                 ++ flat_map (fun st => py_str (s_symbol st) ++ ["009"%char]
                                        ++ py_str (s_isin st) ++ [LF]) l)
                (stderr w0) (db w0)) as Hfold.
  { induction l as [|st l IH]; intros w0; simpl.
    - rewrite app_nil_r. by destruct w0.
    - rewrite IH. unfold print. simpl. f_equal. rewrite <- !app_assoc. simpl.
      by rewrite <- !app_assoc. }
  rewrite Hfold. destruct (stocks (db w)) as [|st l]; [done|].
  by rewrite app_nil_r.
Qed.
